(** * The Friction model: temperature, contact and evaporation

    A shallow embedding of [js/friction/model/FrictionModel.js] together
    with the parts of the view that the model depends on: the atom objects
    ([AtomNode.evaporate], [AtomNode.reset]) and the construction of the
    evaporation sample ([addLayer] in [js/view/magnifier/Magnifier.js]).

    Conventions.
    - JavaScript numbers are modelled as exact rationals ([Q]): a theorem
      over this model states what the code computes up to the rounding of
      its own operations.  Comparisons of numbers ([===], [>], [<]) are
      comparisons of rational values ([Qeq_bool], [Qlt_bool]).
    - Where rounding decides what the code does, the model is evaluated in
      binary64: the module [Double] holds the same functions over IEEE 754
      doubles.
    - An Axon [Property] is a field of the state record.  [set] on a property
      notifies its listeners only when the value changes; the listeners the
      model registers with [link] are inlined in the [*_set] functions.
    - [Math.random()] is an explicit argument [r] of every operation that can
      reach [evaporate]; the source draws it at most once per operation.
    - Atoms are objects shared between [toEvaporateSample], [toEvaporate]
      and the view: an atom is its creation index, and the [isEvaporated]
      flags live in a store. *)

From Stdlib Require Import ZArith QArith Qround Qminmax Qabs Qpower Lqa Lia.
From Stdlib Require Import SpecFloat.
From stdpp Require Import base list gmap sets.

Local Open Scope Q_scope.

(** ** Numbers *)

(** [a < b] on JavaScript numbers. *)
Definition Qlt_bool (a b : Q) : bool := negb (Qle_bool b a).

(** [DOT/Vector2], as far as the model uses it. *)
Module Vector2.

Record t : Type := mk { x : Q; y : Q }.

Definition plus (a b : t) : t := mk (x a + x b) (y a + y b).

Definition minus (a b : t) : t := mk (x a - x b) (y a - y b).

Definition zero : t := mk 0 0.

End Vector2.

(** ** Constants of [FrictionModel.js] *)

Definition DISTANCE_X : Q := 20.
Definition DISTANCE_Y : Q := 20.
Definition DISTANCE_INITIAL : Q := 25.
Definition AMPLITUDE_MIN : Q := 1.
Definition AMPLITUDE_EVAPORATE : Q := 7.
Definition AMPLITUDE_MAX : Q := 12.
Definition COOLING_RATE : Q := 2 # 10.
Definition HEATING_MULTIPLIER : Q := 75 # 10000.
Definition EVAPORATION_AMPLITUDE_REDUCTION : Q := 1 # 100.
Definition MAX_X_DISPLACEMENT : Q := 600.
Definition MIN_Y_POSITION : Q := -70.

(** ** The static atom layout *)

(** One group of a row: [{ offset: ..., num: ..., evaporate: ... }].  A
    missing [offset] is [None] (the view reads [offset || 0]); a missing
    [evaporate] is [false] (the view reads [evaporate || false]). *)
Record group : Type := mkGroup {
  offset : option Q;
  num : nat;
  evaporate_flag : bool
}.

Definition topAtomsStructure : list (list group) :=
  [ [ mkGroup None 30 false ];
    [ mkGroup (Some (5 # 10)) 29 true ];
    [ mkGroup None 29 true ];
    [ mkGroup (Some (5 # 10)) 5 true;
      mkGroup (Some (65 # 10)) 8 true;
      mkGroup (Some (155 # 10)) 5 true;
      mkGroup (Some (215 # 10)) 5 true;
      mkGroup (Some (275 # 10)) 1 true ];
    [ mkGroup (Some 3) 2 true;
      mkGroup (Some 8) 1 true;
      mkGroup (Some 12) 2 true;
      mkGroup (Some 17) 2 true;
      mkGroup (Some 24) 2 true ] ].

Definition bottomAtomsStructure : list (list group) :=
  [ [ mkGroup None 29 false ];
    [ mkGroup (Some (5 # 10)) 28 false ];
    [ mkGroup None 29 false ] ].

(** An atom object, identified by the order of its creation. *)
Definition Atom : Type := nat.

(** ** The model state *)

Record FrictionModel : Type := mkModel {
  scheduledEvaporationAmount : Q;
  toEvaporateSample : list (list Atom);
  toEvaporate : list (list Atom);
  temperatureProperty : Q;
  positionProperty : Vector2.t;
  distanceProperty : Q;
  bottomOffsetProperty : Q;
  atomRowsToEvaporateProperty : nat;
  contactProperty : bool;
  hintProperty : bool;
  newStepProperty : bool;
  (* [undefined] until [init] runs *)
  minYPos : option Q;
  (* the [isEvaporated] flag of every atom object *)
  isEvaporated : gset Atom
}.

(** Field updates. *)
Definition with_scheduled (v : Q) (s : FrictionModel) : FrictionModel :=
  mkModel v (toEvaporateSample s) (toEvaporate s) (temperatureProperty s)
    (positionProperty s) (distanceProperty s) (bottomOffsetProperty s)
    (atomRowsToEvaporateProperty s) (contactProperty s) (hintProperty s)
    (newStepProperty s) (minYPos s) (isEvaporated s).

Definition with_sample (v : list (list Atom)) (s : FrictionModel) : FrictionModel :=
  mkModel (scheduledEvaporationAmount s) v (toEvaporate s) (temperatureProperty s)
    (positionProperty s) (distanceProperty s) (bottomOffsetProperty s)
    (atomRowsToEvaporateProperty s) (contactProperty s) (hintProperty s)
    (newStepProperty s) (minYPos s) (isEvaporated s).

Definition with_toEvaporate (v : list (list Atom)) (s : FrictionModel) : FrictionModel :=
  mkModel (scheduledEvaporationAmount s) (toEvaporateSample s) v (temperatureProperty s)
    (positionProperty s) (distanceProperty s) (bottomOffsetProperty s)
    (atomRowsToEvaporateProperty s) (contactProperty s) (hintProperty s)
    (newStepProperty s) (minYPos s) (isEvaporated s).

Definition with_temperature (v : Q) (s : FrictionModel) : FrictionModel :=
  mkModel (scheduledEvaporationAmount s) (toEvaporateSample s) (toEvaporate s) v
    (positionProperty s) (distanceProperty s) (bottomOffsetProperty s)
    (atomRowsToEvaporateProperty s) (contactProperty s) (hintProperty s)
    (newStepProperty s) (minYPos s) (isEvaporated s).

Definition with_position (v : Vector2.t) (s : FrictionModel) : FrictionModel :=
  mkModel (scheduledEvaporationAmount s) (toEvaporateSample s) (toEvaporate s)
    (temperatureProperty s) v (distanceProperty s) (bottomOffsetProperty s)
    (atomRowsToEvaporateProperty s) (contactProperty s) (hintProperty s)
    (newStepProperty s) (minYPos s) (isEvaporated s).

Definition with_distance (v : Q) (s : FrictionModel) : FrictionModel :=
  mkModel (scheduledEvaporationAmount s) (toEvaporateSample s) (toEvaporate s)
    (temperatureProperty s) (positionProperty s) v (bottomOffsetProperty s)
    (atomRowsToEvaporateProperty s) (contactProperty s) (hintProperty s)
    (newStepProperty s) (minYPos s) (isEvaporated s).

Definition with_bottomOffset (v : Q) (s : FrictionModel) : FrictionModel :=
  mkModel (scheduledEvaporationAmount s) (toEvaporateSample s) (toEvaporate s)
    (temperatureProperty s) (positionProperty s) (distanceProperty s) v
    (atomRowsToEvaporateProperty s) (contactProperty s) (hintProperty s)
    (newStepProperty s) (minYPos s) (isEvaporated s).

Definition with_atomRows (v : nat) (s : FrictionModel) : FrictionModel :=
  mkModel (scheduledEvaporationAmount s) (toEvaporateSample s) (toEvaporate s)
    (temperatureProperty s) (positionProperty s) (distanceProperty s)
    (bottomOffsetProperty s) v (contactProperty s) (hintProperty s)
    (newStepProperty s) (minYPos s) (isEvaporated s).

Definition with_contact (v : bool) (s : FrictionModel) : FrictionModel :=
  mkModel (scheduledEvaporationAmount s) (toEvaporateSample s) (toEvaporate s)
    (temperatureProperty s) (positionProperty s) (distanceProperty s)
    (bottomOffsetProperty s) (atomRowsToEvaporateProperty s) v (hintProperty s)
    (newStepProperty s) (minYPos s) (isEvaporated s).

Definition with_hint (v : bool) (s : FrictionModel) : FrictionModel :=
  mkModel (scheduledEvaporationAmount s) (toEvaporateSample s) (toEvaporate s)
    (temperatureProperty s) (positionProperty s) (distanceProperty s)
    (bottomOffsetProperty s) (atomRowsToEvaporateProperty s) (contactProperty s) v
    (newStepProperty s) (minYPos s) (isEvaporated s).

Definition with_newStep (v : bool) (s : FrictionModel) : FrictionModel :=
  mkModel (scheduledEvaporationAmount s) (toEvaporateSample s) (toEvaporate s)
    (temperatureProperty s) (positionProperty s) (distanceProperty s)
    (bottomOffsetProperty s) (atomRowsToEvaporateProperty s) (contactProperty s)
    (hintProperty s) v (minYPos s) (isEvaporated s).

Definition with_minYPos (v : option Q) (s : FrictionModel) : FrictionModel :=
  mkModel (scheduledEvaporationAmount s) (toEvaporateSample s) (toEvaporate s)
    (temperatureProperty s) (positionProperty s) (distanceProperty s)
    (bottomOffsetProperty s) (atomRowsToEvaporateProperty s) (contactProperty s)
    (hintProperty s) (newStepProperty s) v (isEvaporated s).

Definition with_isEvaporated (v : gset Atom) (s : FrictionModel) : FrictionModel :=
  mkModel (scheduledEvaporationAmount s) (toEvaporateSample s) (toEvaporate s)
    (temperatureProperty s) (positionProperty s) (distanceProperty s)
    (bottomOffsetProperty s) (atomRowsToEvaporateProperty s) (contactProperty s)
    (hintProperty s) (newStepProperty s) (minYPos s) v.

(** ** Arrays *)

(** [row.splice( start, 1 )]: the removed element ([undefined] when nothing
    is removed) and the row that is left.  A negative [start] counts from the
    end, a [start] past the end removes nothing. *)
Definition splice1 (row : list Atom) (start : Z) : option Atom * list Atom :=
  let len := Z.of_nat (length row) in
  let i := Z.to_nat (if (start <? 0)%Z then Z.max (len + start) 0 else Z.min start len) in
  (row !! i, delete i row).

(** [Math.floor( Math.random() * length )] with [r] the random draw. *)
Definition randomIndex (r : Q) (len : nat) : Z :=
  Qfloor (r * inject_Z (Z.of_nat len)).

(** ** Property listeners and [evaporate] *)

(** [distanceProperty.set( d )] with its listener
    [contactProperty.set( Math.floor( distance ) <= 0 )]. *)
Definition distanceProperty_set (d : Q) (s : FrictionModel) : FrictionModel :=
  if Qeq_bool d (distanceProperty s) then s
  else with_contact (Qfloor d <=? 0)%Z (with_distance d s).

(** [AtomNode.evaporate]: the model only observes the flag. *)
Definition atom_evaporate (a : Atom) (s : FrictionModel) : FrictionModel :=
  with_isEvaporated ({[ a ]} ∪ isEvaporated s) s.

(** [AtomNode.reset]. *)
Definition atom_reset (a : Atom) (s : FrictionModel) : FrictionModel :=
  with_isEvaporated (isEvaporated s ∖ {[ a ]}) s.

(** First half of [evaporate]: move to the next row when the current one is
    empty. *)
Definition evaporate_advance (s : FrictionModel) : FrictionModel :=
  match last (toEvaporate s) with
  | Some [] =>
      let s := with_toEvaporate (removelast (toEvaporate s)) s in
      let s := distanceProperty_set (distanceProperty s + DISTANCE_Y) s in
      with_atomRows (length (toEvaporate s)) s
  | _ => s
  end.

(** Second half of [evaporate]: take a random atom out of the current row. *)
Definition evaporate_atom (r : Q) (s : FrictionModel) : FrictionModel :=
  match last (toEvaporate s) with
  | Some currentEvaporationRow =>
      let '(atom, rest) :=
        splice1 currentEvaporationRow
          (randomIndex r (length currentEvaporationRow)) in
      let s := with_toEvaporate
                 (<[ pred (length (toEvaporate s)) := rest ]> (toEvaporate s)) s in
      match atom with
      | Some a =>
          let s := atom_evaporate a s in
          with_scheduled
            (scheduledEvaporationAmount s + EVAPORATION_AMPLITUDE_REDUCTION) s
      | None => s
      end
  | None => s
  end.

Definition evaporate (r : Q) (s : FrictionModel) : FrictionModel :=
  evaporate_atom r (evaporate_advance s).

(** [temperatureProperty.set( t )] with its listener, the evaporation
    check. *)
Definition temperatureProperty_set (t : Q) (r : Q) (s : FrictionModel) : FrictionModel :=
  if Qeq_bool t (temperatureProperty s) then s
  else
    let s := with_temperature t s in
    if Qlt_bool AMPLITUDE_EVAPORATE t then evaporate r s else s.

(** The listener of [positionProperty]: update the distance, and heat the
    atoms when the books are in contact. *)
Definition positionListener (newPosition oldPosition : Vector2.t) (r : Q)
    (s : FrictionModel) : FrictionModel :=
  let s := distanceProperty_set
             (distanceProperty s - Vector2.y (Vector2.minus newPosition oldPosition)) s in
  if contactProperty s then
    let dx := Qabs (Vector2.x newPosition - Vector2.x oldPosition) in
    temperatureProperty_set
      (Qmin (temperatureProperty s + dx * HEATING_MULTIPLIER) AMPLITUDE_MAX) r s
  else s.

(** [positionProperty.set( p )].  The model always passes a fresh [Vector2]
    (the result of [plus]), and vectors are compared by identity, so the
    listener always runs; see [positionProperty_set_untouched] for the one
    exception, a [reset] of a property that still holds its initial
    object. *)
Definition positionProperty_set (p : Vector2.t) (r : Q) (s : FrictionModel) : FrictionModel :=
  positionListener p (positionProperty s) r (with_position p s).

(** ** Construction *)

(** The constructor.  Each [link] calls its listener once with the initial
    value: the distance listener sets [contact] to [floor 25 <= 0], which is
    [false]; the position listener subtracts a zero displacement from the
    distance and finds no contact; the temperature listener finds
    [1 > 7] false.  None of them changes the state. *)
Definition construct : FrictionModel :=
  mkModel 0 [] [] AMPLITUDE_MIN Vector2.zero DISTANCE_INITIAL 0 0%nat
    false true false None ∅.

(** [addLayer] of the magnifier, as far as the model is concerned: it creates
    [num] atoms per group, collects those of evaporating groups in [row], and
    pushes [row] on [model.toEvaporateSample] when the flag of the last group
    is set.  [next] is the index of the next atom to be created. *)
Fixpoint addLayer_groups (layer : list group) (next : nat) (row : list Atom)
    (evaporate : bool) : nat * list Atom * bool :=
  match layer with
  | [] => (next, row, evaporate)
  | g :: layer =>
      let evaporate := evaporate_flag g in
      let row := if evaporate then row ++ seq next (num g) else row in
      addLayer_groups layer (next + num g)%nat row evaporate
  end.

Definition addLayer (acc : nat * list (list Atom)) (layer : list group)
    : nat * list (list Atom) :=
  let '(next, row, evaporate) := addLayer_groups layer (fst acc) [] false in
  (next, if evaporate then snd acc ++ [row] else snd acc).

(** [addAtoms]: the layers of the top book, then those of the bottom book. *)
Definition addAtoms (s : FrictionModel) : FrictionModel :=
  let acc := foldl addLayer (0%nat, toEvaporateSample s) topAtomsStructure in
  let acc := foldl addLayer acc bottomAtomsStructure in
  with_sample (snd acc) s.

(** First loop of [init]: [toEvaporate[ i ] = toEvaporateSample[ i ].slice( 0 )]
    for every index of the sample.  Rows of [toEvaporate] past the end of the
    sample are kept. *)
Fixpoint copyRows (sample rows : list (list Atom)) : list (list Atom) :=
  match sample with
  | [] => rows
  | row :: sample => row :: copyRows sample (tail rows)
  end.

Definition init (s : FrictionModel) : FrictionModel :=
  let s := with_toEvaporate (copyRows (toEvaporateSample s) (toEvaporate s)) s in
  let s := foldl (fun s a => atom_reset a s) s (concat (toEvaporate s)) in
  let s := with_atomRows (length (toEvaporate s)) s in
  with_minYPos (Some MIN_Y_POSITION) s.

(** The model once the screen view is built: the view adds the atoms and
    ends its constructor with [model.init()]. *)
Definition initial : FrictionModel := init (addAtoms construct).

(** ** Operations *)

Definition step (dt : Q) (r : Q) (s : FrictionModel) : FrictionModel :=
  if Qlt_bool (5 # 10) dt then s
  else
    let s := with_newStep (negb (newStepProperty s)) s in
    (* Cool the atoms. *)
    let temperature := temperatureProperty s - scheduledEvaporationAmount s in
    let temperature :=
      Qmax AMPLITUDE_MIN (temperature * (1 - dt * COOLING_RATE)) in
    let s := temperatureProperty_set temperature r s in
    with_scheduled 0 s.

Definition reset (r : Q) (s : FrictionModel) : FrictionModel :=
  let s := temperatureProperty_set AMPLITUDE_MIN r s in
  let s := positionProperty_set Vector2.zero r s in
  let s := distanceProperty_set DISTANCE_INITIAL s in
  let s := with_bottomOffset 0 s in
  let s := with_atomRows 0 s in
  let s := with_contact false s in
  let s := with_hint true s in
  let s := with_newStep false s in
  init s.

(** [pos.y + v.y < this.minYPos]; a comparison with [undefined] is false. *)
Definition belowMinY (yy : Q) (s : FrictionModel) : bool :=
  match minYPos s with
  | Some m => Qlt_bool yy m
  | None => false
  end.

(** The part of [move] before the position is set: the motion vector is
    limited and the bottom offset updated. *)
Definition limitMotion (v : Vector2.t) (s : FrictionModel) : Vector2.t * FrictionModel :=
  let s := with_hint false s in
  (* check bottom offset *)
  let '(v, s) :=
    if Qlt_bool 0 (bottomOffsetProperty s) && Qlt_bool (Vector2.y v) 0 then
      (Vector2.mk (Vector2.x v) 0,
       with_bottomOffset (bottomOffsetProperty s + Vector2.y v) s)
    else (v, s) in
  let pos := positionProperty s in
  let '(v, s) :=
    if Qlt_bool (distanceProperty s) (Vector2.y v) then
      (Vector2.mk (Vector2.x v) (distanceProperty s),
       with_bottomOffset
         (bottomOffsetProperty s + Vector2.y v - distanceProperty s) s)
    else if belowMinY (Vector2.y pos + Vector2.y v) s then
      (Vector2.mk (Vector2.x v) (MIN_Y_POSITION - Vector2.y pos), s)
    else (v, s) in
  let v :=
    if Qlt_bool MAX_X_DISPLACEMENT (Vector2.x pos + Vector2.x v) then
      Vector2.mk (MAX_X_DISPLACEMENT - Vector2.x pos) (Vector2.y v)
    else if Qlt_bool (Vector2.x pos + Vector2.x v) (- MAX_X_DISPLACEMENT) then
      Vector2.mk (- MAX_X_DISPLACEMENT - Vector2.x pos) (Vector2.y v)
    else v in
  (v, s).

Definition move (v : Vector2.t) (r : Q) (s : FrictionModel) : FrictionModel :=
  let '(v, s) := limitMotion v s in
  (* set the new position *)
  positionProperty_set (Vector2.plus (positionProperty s) v) r s.

(** The [end] callback of the drag handler. *)
Definition dragEnd (s : FrictionModel) : FrictionModel :=
  with_bottomOffset 0 s.

(** ** Runs of the model *)

Inductive op : Type :=
  | Step (dt r : Q)
  | Move (v : Vector2.t) (r : Q)
  | Evaporate (r : Q)
  | Reset (r : Q)
  | DragEnd.

Definition apply (s : FrictionModel) (o : op) : FrictionModel :=
  match o with
  | Step dt r => step dt r s
  | Move v r => move v r s
  | Evaporate r => evaporate r s
  | Reset r => reset r s
  | DragEnd => dragEnd s
  end.

Definition run (s : FrictionModel) (ops : list op) : FrictionModel :=
  foldl apply s ops.

(** A random draw lies in [[0, 1)]. *)
Definition random (r : Q) : Prop := 0 <= r /\ r < 1.

(** What the simulation can pass: [dt] is an elapsed time, and every random
    draw comes from [Math.random]. *)
Definition valid (o : op) : Prop :=
  match o with
  | Step dt r => 0 <= dt /\ random r
  | Move _ r | Evaporate r | Reset r => random r
  | DragEnd => True
  end.

Inductive reachable : FrictionModel -> Prop :=
  | reachable_initial : reachable initial
  | reachable_apply s o : reachable s -> valid o -> reachable (apply s o).

Definition is_reset (o : op) : bool :=
  match o with Reset _ => true | _ => false end.

(** ** Vocabulary of the properties *)

(** The contact flag agrees with the distance. *)
Definition consistent (s : FrictionModel) : Prop :=
  contactProperty s = (Qfloor (distanceProperty s) <=? 0)%Z.

(** The published number of rows is the length of the queue. *)
Definition counted (s : FrictionModel) : Prop :=
  atomRowsToEvaporateProperty s = length (toEvaporate s).

(** What evaporation, however it is triggered, can do to the state: the
    position, the bottom offset and the sample stay, the distance and the
    scheduled cooling grow, the queue shrinks. *)
Record evolve (s s' : FrictionModel) : Prop := mkEvolve {
  ev_bottomOffset : bottomOffsetProperty s' = bottomOffsetProperty s;
  ev_minYPos : minYPos s' = minYPos s;
  ev_sample : toEvaporateSample s' = toEvaporateSample s;
  ev_position : positionProperty s' = positionProperty s;
  ev_distance : distanceProperty s <= distanceProperty s';
  ev_scheduled : scheduledEvaporationAmount s <= scheduledEvaporationAmount s';
  ev_rows : (length (toEvaporate s') <= length (toEvaporate s))%nat;
  ev_counted : counted s -> counted s';
  ev_consistent : consistent s -> consistent s'
}.

(** The temperature the position listener asks for when the books touch. *)
Definition heated (newPosition oldPosition : Vector2.t) (s : FrictionModel) : Q :=
  Qmin (temperatureProperty s
        + Qabs (Vector2.x newPosition - Vector2.x oldPosition) * HEATING_MULTIPLIER)
       AMPLITUDE_MAX.

(** The distance the position listener asks for. *)
Definition moved (newPosition oldPosition : Vector2.t) (s : FrictionModel) : Q :=
  distanceProperty s - Vector2.y (Vector2.minus newPosition oldPosition).

(** The invariant of the model: the ranges of the temperature and of the
    position, the sign of the distance and of the scheduled cooling, and the
    bookkeeping that ties the distance, the contact flag and the queue to the
    rest of the state. *)
Record Inv (s : FrictionModel) : Prop := mkInv {
  inv_temperature_min : AMPLITUDE_MIN <= temperatureProperty s;
  inv_temperature_max : temperatureProperty s <= AMPLITUDE_MAX;
  inv_scheduled : 0 <= scheduledEvaporationAmount s;
  inv_distance : 0 <= distanceProperty s;
  inv_x_min : - MAX_X_DISPLACEMENT <= Vector2.x (positionProperty s);
  inv_x_max : Vector2.x (positionProperty s) <= MAX_X_DISPLACEMENT;
  inv_y_min : MIN_Y_POSITION <= Vector2.y (positionProperty s);
  inv_minYPos : minYPos s = Some MIN_Y_POSITION;
  (* the gap is the initial gap, less the way down, plus evaporated rows *)
  inv_gap : DISTANCE_INITIAL
            <= distanceProperty s + Vector2.y (positionProperty s);
  inv_rows : (length (toEvaporate s) <= length (toEvaporateSample s))%nat;
  inv_counted : counted s;
  inv_consistent : consistent s;
  inv_sample : toEvaporateSample s = toEvaporateSample initial
}.

(** Example runs.  The top book pushed down onto the bottom book and to the
    right limit ... *)
Definition press : list op := [Move (Vector2.mk 700 25) 0].

Definition pressed : FrictionModel := run initial press.

(** ... then rubbed to the left while pushed further down ... *)
Definition rub : list op := press ++ [Move (Vector2.mk (-400) 3) 0].

Definition rubbed : FrictionModel := run initial rub.

(** ... and rubbed again while pulled up by less than the stored offset. *)
Definition rub_twice : list op := rub ++ [Move (Vector2.mk (-400) (-1)) 0].

Definition rubbed_twice : FrictionModel := run initial rub_twice.

(** Sequences of steps. *)
Definition steps (l : list (Q * Q)) : list op :=
  map (fun p => Step (fst p) (snd p)) l.

(** Sequences without [reset]. *)
Definition no_reset (ops : list op) : bool :=
  forallb (fun o => negb (is_reset o)) ops.

(** The last row emptied by nine evaporations. *)
Definition emptied : FrictionModel :=
  run initial (press ++ replicate 9 (Evaporate 0)).

(** ** Vocabulary of the further properties *)

(** The factor by which one step of [dt] seconds cools. *)
Definition coolingFactor (dt : Q) : Q := 1 - dt * COOLING_RATE.

(** The factor by which a sequence of steps cools. *)
Definition decay (l : list (Q * Q)) : Q :=
  foldr (fun p acc => coolingFactor (fst p) * acc) 1 l.

(** A time step the model does not discard. *)
Definition timely (p : Q * Q) : Prop := 0 <= fst p /\ fst p <= 5 # 10.

(** The atoms that can still evaporate. *)
Definition remaining (s : FrictionModel) : list Atom := concat (toEvaporate s).

(** Evaporation goes row by row: the rows above the last row of the queue
    are the rows of the sample, untouched, and the last row is what is left
    of its row of the sample, in the order of the sample. *)
Definition rowMajor (queue sample : list (list Atom)) : Prop :=
  queue = [] \/
  exists rows row whole,
    queue = rows ++ [row] /\
    take (length rows) sample = rows /\
    sample !! length rows = Some whole /\
    sublist row whole.

(** Every atom of the sample is either still in the queue or flagged as
    evaporated, and not both. *)
Definition accounted (s : FrictionModel) : Prop :=
  remaining s ++ elements (isEvaporated s) ≡ₚ concat (toEvaporateSample s).

(** Two states publish the same signals: they agree on everything but the
    scheduled evaporation amount, which is private to the model. *)
Record published_equal (s1 s2 : FrictionModel) : Prop := mkPublished {
  pe_temperature : temperatureProperty s1 == temperatureProperty s2;
  pe_position : positionProperty s1 = positionProperty s2;
  pe_distance : distanceProperty s1 == distanceProperty s2;
  pe_bottomOffset : bottomOffsetProperty s1 == bottomOffsetProperty s2;
  pe_atomRows : atomRowsToEvaporateProperty s1 = atomRowsToEvaporateProperty s2;
  pe_contact : contactProperty s1 = contactProperty s2;
  pe_hint : hintProperty s1 = hintProperty s2;
  pe_newStep : newStepProperty s1 = newStepProperty s2;
  pe_minYPos : minYPos s1 = minYPos s2;
  pe_toEvaporate : toEvaporate s1 = toEvaporate s2;
  pe_sample : toEvaporateSample s1 = toEvaporateSample s2;
  pe_isEvaporated : isEvaporated s1 = isEvaporated s2
}.

(** Two states hold the same atoms in the same places. *)
Definition same_atoms (s s' : FrictionModel) : Prop :=
  toEvaporate s' = toEvaporate s /\
  toEvaporateSample s' = toEvaporateSample s /\
  isEvaporated s' = isEvaporated s.

(** An operation calls [evaporate] at most once: the atoms after it are the
    atoms before it, or those one call of [evaporate] leaves. *)
Definition once (s s' : FrictionModel) : Prop :=
  same_atoms s s' \/
  exists r s1, same_atoms s s1 /\ same_atoms (evaporate r s1) s'.

(** ** The atoms of the view: [AtomNode]

    The part of an atom node that its evaporation touches: the centre
    [(x0, y0)], the flag, the visibility, and the motion handler that
    [evaporate] creates and links to [newStepProperty].  The jitter
    ([currentX], [currentY]) and the graphics are left out. *)
Module AtomNode.

Record t : Type := mk {
  x0 : Q;
  y0 : Q;
  isEvaporated : bool;
  visible : bool;
  (* [dx] and [dy] of the handler, once [evaporate] has created it *)
  handler : option (Q * Q);
  (* whether the handler is a listener of [newStepProperty] *)
  linked : bool;
  (* [options.x], [options.y] *)
  options : Vector2.t;
  isTopAtom : bool
}.

(** The listener of [positionProperty]: the atoms of the top book that have
    not evaporated move with the book. *)
Definition positionListener (newPosition oldPosition : Vector2.t) (a : t) : t :=
  if isTopAtom a && negb (isEvaporated a) then
    let motionVector := Vector2.minus newPosition oldPosition in
    mk (x0 a + Vector2.x motionVector) (y0 a + Vector2.y motionVector)
       (isEvaporated a) (visible a) (handler a) (linked a) (options a)
       (isTopAtom a)
  else a.

(** One notification of [newStepProperty] to the handler: the atom moves on
    and, once it is further right than four widths of the model, unlinks
    its handler and hides. *)
Definition handlerCall (width : Q) (a : t) : t :=
  match handler a with
  | Some (dx, dy) =>
      if linked a then
        let x := x0 a + dx in
        let y := y0 a - dy in
        if Qlt_bool (4 * width) x then
          mk x y (isEvaporated a) false (handler a) false (options a) (isTopAtom a)
        else
          mk x y (isEvaporated a) (visible a) (handler a) true (options a)
             (isTopAtom a)
      else a
  | None => a
  end.

(** [Math.round] of a number. *)
Definition round (q : Q) : Z := Qfloor (q + (1 # 2)).

(** [evaporate], with [width] the width of the model, [yrange] the value of
    [getYrange()] and [r1], [r2] the two random draws.  [link] calls the
    handler once at once. *)
Definition evaporate (width yrange r1 r2 : Q) (a : t) : t :=
  let steps := 250 in
  let evaporationDestinationX :=
    x0 a + 4 * width * (inject_Z (round r1) - (5 # 10)) in
  let dx := (evaporationDestinationX - x0 a) / steps in
  let evaporationDestinationY := y0 a + r2 * (15 # 10) * yrange in
  let dy := (evaporationDestinationY - y0 a) / steps in
  handlerCall width
    (mk (x0 a) (y0 a) true (visible a) (Some (dx, dy)) true (options a)
        (isTopAtom a)).

Definition reset (a : t) : t :=
  mk (Vector2.x (options a)) (Vector2.y (options a)) false true (handler a)
     false (options a) (isTopAtom a).

End AtomNode.

(** ** The describer of rising temperature: [TemperatureIncreasingDescriber]

    The describer listens to the temperature of the model and speaks when
    it has risen enough.  Its collaborators are events here: the timer
    callback that [alert] schedules is the event [Timeout], and
    [phet.joist.elapsedTime] is the argument of [startDrag] and [endDrag].
    The strings are named after the constants that hold them.  The two
    constants that the source reads from files that are not at hand,
    [EVAPORATION_LIMIT] and [DRAG_SESSION_THRESHOLD], are parameters. *)
Module TemperatureIncreasingDescriber.

Inductive phrase : Type :=
  | moreString | fasterString | nowHotterString
  | evenFasterString | warmerString | evenHotterString.

Record alertObject : Type := mkAlert { jiggle : phrase; temp : phrase }.

Definition INCREASING : list alertObject :=
  [ mkAlert moreString warmerString;
    mkAlert fasterString nowHotterString;
    mkAlert evenFasterString evenHotterString ].

(** What the describer adds to the back of the utterance queue. *)
Inductive utterance : Type :=
  | Jiggle (o : alertObject)
  | MaxTemp.

(** [FrictionAlertManager.TEMPERATURE_ALERT_THRESHOLD]. *)
Definition TEMPERATURE_ALERT_THRESHOLD : Q := 15 # 10.

Record t : Type := mk {
  timeOfLastDrag : Q;
  initialAmplitude : Q;
  alertIndex : Z;
  tooSoonForNextAlert : bool;
  (* [model.amplitudeProperty.value] *)
  amplitude : Q;
  utteranceQueue : list utterance
}.

(** The constructor; the listener that it links finds no rise at all. *)
Definition construct (amplitude0 : Q) : t :=
  mk 0 amplitude0 (-1) false amplitude0 [].

(** [array[ i ]] for an integer index. *)
Definition index {A} (l : list A) (i : Z) : option A :=
  if (i <? 0)%Z then None else l !! Z.to_nat i.

(** [alert]: speak, hold further alerts back, and measure the next rise from
    the temperature of now. *)
Definition alert (u : utterance) (d : t) : t :=
  mk (timeOfLastDrag d) (amplitude d) (alertIndex d) true (amplitude d)
     (utteranceQueue d ++ [u]).

(** [alertIncrease].  [None] is the [TypeError] that
    [alertTemperatureJiggleFromObject] raises on an [undefined] alert
    object. *)
Definition alertIncrease (d : t) : option t :=
  let d := mk (timeOfLastDrag d) (initialAmplitude d) (alertIndex d + 1)
              (tooSoonForNextAlert d) (amplitude d) (utteranceQueue d) in
  let currentAlertIndex :=
    Z.min (alertIndex d) (Z.of_nat (length INCREASING) - 1) in
  match index INCREASING currentAlertIndex with
  | Some alertObject => Some (alert (Jiggle alertObject) d)
  | None => None
  end.

Definition alertMaxTemp (d : t) : t := alert MaxTemp d.

Section Parameters.

Variable EVAPORATION_LIMIT : Q.
Variable DRAG_SESSION_THRESHOLD : Q.

Definition amplitudeListener (a : Q) (d : t) : option t :=
  let d := mk (timeOfLastDrag d) (initialAmplitude d) (alertIndex d)
              (tooSoonForNextAlert d) a (utteranceQueue d) in
  if negb (tooSoonForNextAlert d)
     && Qlt_bool TEMPERATURE_ALERT_THRESHOLD (a - initialAmplitude d) then
    if Qlt_bool a EVAPORATION_LIMIT then alertIncrease d
    else Some (alertMaxTemp d)
  else Some d.

Definition startDrag (elapsedTime : Q) (d : t) : t :=
  if Qlt_bool DRAG_SESSION_THRESHOLD (elapsedTime - timeOfLastDrag d) then
    mk (timeOfLastDrag d) (amplitude d) (-1) (tooSoonForNextAlert d)
       (amplitude d) (utteranceQueue d)
  else d.

Definition endDrag (elapsedTime : Q) (d : t) : t :=
  mk elapsedTime (initialAmplitude d) (alertIndex d) (tooSoonForNextAlert d)
     (amplitude d) (utteranceQueue d).

(** The callback of the timer that [alert] sets. *)
Definition timeout (d : t) : t :=
  mk (timeOfLastDrag d) (initialAmplitude d) (alertIndex d) false
     (amplitude d) (utteranceQueue d).

(** [reset] resets the utterance of the maximum temperature and nothing of
    the describer itself. *)
Definition reset (d : t) : t := d.

Inductive event : Type :=
  | Amplitude (a : Q)
  | StartDrag (elapsedTime : Q)
  | EndDrag (elapsedTime : Q)
  | Timeout
  | Reset.

Definition handle (d : t) (e : event) : option t :=
  match e with
  | Amplitude a => amplitudeListener a d
  | StartDrag elapsedTime => Some (startDrag elapsedTime d)
  | EndDrag elapsedTime => Some (endDrag elapsedTime d)
  | Timeout => Some (timeout d)
  | Reset => Some (reset d)
  end.

Fixpoint run (d : t) (events : list event) : option t :=
  match events with
  | [] => Some d
  | e :: events =>
      match handle d e with
      | Some d => run d events
      | None => None
      end
  end.

End Parameters.

(** The alerts of rising temperature in a queue, in order. *)
Definition jiggles (q : list utterance) : list alertObject :=
  omap (fun u => match u with Jiggle o => Some o | MaxTemp => None end) q.

Definition is_startDrag (e : event) : bool :=
  match e with StartDrag _ => true | _ => false end.

Definition is_timeout (e : event) : bool :=
  match e with Timeout => true | _ => false end.

End TemperatureIncreasingDescriber.

(** ** The sound of rubbing: [BookRubSoundGenerator]

    The state of the generator and of the contact property it listens to.
    The clock ([Date.now() / 1000]) is the argument [now] of the events that
    read it.  The velocity is the quotient the position listener computes,
    and a quotient need not be a rational: its type [number] adds what a
    division by zero gives.  The level passed to [setOutputLevel] is kept as
    written: [silent] for 0, [rubbing v] for
    [maxOutputLevel * min( |v| ^ 0.25, 1 )]. *)
Module BookRubSoundGenerator.

Definition FRICTION_SOUND_CENTER_FREQUENCY : Q := 1000.
Definition FRICTION_SOUND_VARIATION : Q := 15 # 100.
Definition DIRECTION_SWITCH_LOCKOUT_TIME : Q := 30 # 1000.
Definition STILLNESS_TIME : Q := 64 # 1000.

Inductive number : Type :=
  | NaN
  | Infinity (negative : bool)
  | Finite (value : Q).

(** [a > 0], [a < 0], [a === 0] and [a === b]: all false when an operand
    is [NaN]. *)
Definition positive (a : number) : bool :=
  match a with
  | NaN => false
  | Infinity negative => negb negative
  | Finite value => Qlt_bool 0 value
  end.

Definition negative (a : number) : bool :=
  match a with
  | NaN => false
  | Infinity negative => negative
  | Finite value => Qlt_bool value 0
  end.

Definition isZero (a : number) : bool :=
  match a with
  | Finite value => Qeq_bool value 0
  | _ => false
  end.

Definition same (a b : number) : bool :=
  match a, b with
  | Finite p, Finite q => Qeq_bool p q
  | Infinity m, Infinity n => Bool.eqb m n
  | _, _ => false
  end.

Definition isNaN (a : number) : bool :=
  match a with NaN => true | _ => false end.

(** [Math.abs]. *)
Definition abs (a : number) : number :=
  match a with
  | NaN => NaN
  | Infinity _ => Infinity false
  | Finite value => Finite (Qabs value)
  end.

(** [dx / ( now - last )], with [None] for the [Number.NEGATIVE_INFINITY]
    that [last] is at first: the difference is then [Infinity] and the
    quotient 0.  When the clock reads what it read at the last update the
    difference is 0, and the quotient is [Infinity] with the sign of [dx],
    or [NaN] when [dx] is 0 as well. *)
Definition quotient (dx now : Q) (last : option Q) : number :=
  match last with
  | None => Finite 0
  | Some last =>
      if Qeq_bool (now - last) 0 then
        if Qlt_bool 0 dx then Infinity false
        else if Qlt_bool dx 0 then Infinity true
        else NaN
      else Finite (dx / (now - last))
  end.

Inductive level : Type :=
  | silent
  | rubbing (velocity : number).

Record t : Type := mk {
  topBookXVelocityProperty : number;
  (* [None] is [Number.NEGATIVE_INFINITY] *)
  timeOfLastXVelocityUpdate : option Q;
  rubSoundLockedOutProperty : bool;
  rubSoundLockoutCounter : Q;
  (* the centre frequency of the band-pass filter *)
  centerFrequency : Q;
  (* the level of the last call of [setOutputLevel] *)
  outputLevel : level;
  contactProperty : bool
}.

(** The listener of [Property.multilink]: the output level follows the
    velocity, the contact and the lockout. *)
Definition multilink (g : t) : t :=
  mk (topBookXVelocityProperty g) (timeOfLastXVelocityUpdate g)
     (rubSoundLockedOutProperty g) (rubSoundLockoutCounter g) (centerFrequency g)
     (if contactProperty g
         && positive (abs (topBookXVelocityProperty g))
         && negb (rubSoundLockedOutProperty g)
      then rubbing (topBookXVelocityProperty g) else silent)
     (contactProperty g).

Definition rubSoundLockedOutProperty_set (b : bool) (g : t) : t :=
  if Bool.eqb b (rubSoundLockedOutProperty g) then g
  else multilink
         (mk (topBookXVelocityProperty g) (timeOfLastXVelocityUpdate g) b
             (rubSoundLockoutCounter g) (centerFrequency g) (outputLevel g)
             (contactProperty g)).

Definition contactProperty_set (b : bool) (g : t) : t :=
  if Bool.eqb b (contactProperty g) then g
  else multilink
         (mk (topBookXVelocityProperty g) (timeOfLastXVelocityUpdate g)
             (rubSoundLockedOutProperty g) (rubSoundLockoutCounter g)
             (centerFrequency g) (outputLevel g) b).

(** A change of direction: the filter moves, the sound is locked out and the
    lockout counter starts. *)
Definition changeDirection (frequency : Q) (g : t) : t :=
  let g := mk (topBookXVelocityProperty g) (timeOfLastXVelocityUpdate g)
              (rubSoundLockedOutProperty g) (rubSoundLockoutCounter g) frequency
              (outputLevel g) (contactProperty g) in
  let g := rubSoundLockedOutProperty_set true g in
  mk (topBookXVelocityProperty g) (timeOfLastXVelocityUpdate g)
     (rubSoundLockedOutProperty g) DIRECTION_SWITCH_LOCKOUT_TIME
     (centerFrequency g) (outputLevel g) (contactProperty g).

(** The listener of the velocity. *)
Definition velocityListener (velocity previousVelocity : number) (g : t) : t :=
  if positive velocity
     && (isZero previousVelocity || negative previousVelocity) then
    changeDirection
      (FRICTION_SOUND_CENTER_FREQUENCY * (1 + FRICTION_SOUND_VARIATION)) g
  else if negative velocity
          && (isZero previousVelocity || positive previousVelocity) then
    changeDirection
      (FRICTION_SOUND_CENTER_FREQUENCY * (1 - FRICTION_SOUND_VARIATION)) g
  else g.

(** [topBookXVelocityProperty.set( velocity )]: the velocity listener, then
    the multilink.  [NaN] is not equal to itself, so setting it notifies. *)
Definition topBookXVelocityProperty_set (velocity : number) (g : t) : t :=
  if same velocity (topBookXVelocityProperty g) then g
  else
    let previousVelocity := topBookXVelocityProperty g in
    let g := mk velocity (timeOfLastXVelocityUpdate g)
                (rubSoundLockedOutProperty g) (rubSoundLockoutCounter g)
                (centerFrequency g) (outputLevel g) (contactProperty g) in
    multilink (velocityListener velocity previousVelocity g).

Definition with_time (now : Q) (g : t) : t :=
  mk (topBookXVelocityProperty g) (Some now) (rubSoundLockedOutProperty g)
     (rubSoundLockoutCounter g) (centerFrequency g) (outputLevel g)
     (contactProperty g).

(** The listener of the position of the top book ([lazyLink]: not called
    when linked). *)
Definition positionListener (topBookPosition previousTopBookPosition : Vector2.t)
    (now : Q) (g : t) : t :=
  with_time now
    (topBookXVelocityProperty_set
       (quotient (Vector2.x topBookPosition - Vector2.x previousTopBookPosition)
          now (timeOfLastXVelocityUpdate g)) g).

(** [now - timeOfLastXVelocityUpdate > STILLNESS_TIME]. *)
Definition still (now : Q) (g : t) : bool :=
  match timeOfLastXVelocityUpdate g with
  | Some last => Qlt_bool STILLNESS_TIME (now - last)
  | None => true
  end.

Definition step (dt now : Q) (g : t) : t :=
  (* check to see if the book has stopped moving *)
  let g :=
    if positive (abs (topBookXVelocityProperty g)) && still now g then
      with_time now (topBookXVelocityProperty_set (Finite 0) g)
    else g in
  (* update the lockout timer if it is running *)
  if Qlt_bool 0 (rubSoundLockoutCounter g) then
    let counter := Qmax (rubSoundLockoutCounter g - dt) 0 in
    let g := mk (topBookXVelocityProperty g) (timeOfLastXVelocityUpdate g)
                (rubSoundLockedOutProperty g) counter (centerFrequency g)
                (outputLevel g) (contactProperty g) in
    if Qeq_bool counter 0 then rubSoundLockedOutProperty_set false g else g
  else g.

(** The constructor, for the contact it finds; the multilink is called once
    and finds the book still. *)
Definition construct (contact : bool) : t :=
  mk (Finite 0) None false 0 FRICTION_SOUND_CENTER_FREQUENCY silent contact.

Inductive event : Type :=
  | Position (topBookPosition previousTopBookPosition : Vector2.t) (now : Q)
  | Contact (b : bool)
  | Step (dt now : Q).

Definition handle (g : t) (e : event) : t :=
  match e with
  | Position topBookPosition previousTopBookPosition now =>
      positionListener topBookPosition previousTopBookPosition now g
  | Contact b => contactProperty_set b g
  | Step dt now => step dt now g
  end.

Definition run (g : t) (events : list event) : t := foldl handle g events.

(** The level the three properties ask for. *)
Definition expectedLevel (g : t) : level :=
  if contactProperty g
     && positive (abs (topBookXVelocityProperty g))
     && negb (rubSoundLockedOutProperty g)
  then rubbing (topBookXVelocityProperty g) else silent.

(** What the generator keeps true. *)
Record ok (g : t) : Prop := mkOk {
  ok_level : outputLevel g = expectedLevel g;
  ok_lockout : rubSoundLockedOutProperty g = Qlt_bool 0 (rubSoundLockoutCounter g);
  ok_counter : 0 <= rubSoundLockoutCounter g
}.

(** The velocity an event stores is a number: the event is not a change of
    position that keeps [x] at the clock reading of the last update. *)
Definition numeric (g : t) (e : event) : bool :=
  match e with
  | Position topBookPosition previousTopBookPosition now =>
      negb (isNaN (quotient (Vector2.x topBookPosition
                             - Vector2.x previousTopBookPosition)
                     now (timeOfLastXVelocityUpdate g)))
  | _ => true
  end.

Fixpoint regular (g : t) (events : list event) : bool :=
  match events with
  | [] => true
  | e :: events => numeric g e && regular (handle g e) events
  end.

(** The filter is where the direction of the motion puts it. *)
Record tuned (g : t) : Prop := mkTuned {
  tuned_number : isNaN (topBookXVelocityProperty g) = false;
  tuned_right : positive (topBookXVelocityProperty g) = true ->
                centerFrequency g == 1150;
  tuned_left : negative (topBookXVelocityProperty g) = true ->
               centerFrequency g == 850
}.

(** No step takes a negative time. *)
Definition timed (e : event) : Prop :=
  match e with
  | Step dt _ => 0 <= dt
  | _ => True
  end.

End BookRubSoundGenerator.

(** ** The sound of cooling: [CoolingSoundGenerator]

    The state of the generator.  [step] reads [outputLevel] and [isPlaying]
    of the noise generator it extends and calls its [setOutputLevel], [start]
    and [stop]; here the two values are arguments and the calls are a result
    (the time passed to [stop], 10 ms after the audio clock, is left out).
    The change rate is a quotient by [dt]: the model is that of the source
    for [dt <> 0]. *)
Module CoolingSoundGenerator.

Definition AMPLITUDE_AVERAGING_ARRAY_LENGTH : nat := 10.
Definition COOLING_SOUND_DELAY : Q := 25 # 100.
Definition COOLING_SOUND_DURATION : Q := 2.

Inductive call : Type :=
  | setOutputLevel (level timeConstant : Q)
  | start
  | stop.

Record t : Type := mk {
  maxOutputLevel : Q;
  mostRecentAmplitudeValue : Q;
  previousAmplitudeValue : Q;
  amplitudeChangeRateHistory : list Q;
  (* [None] is [undefined], and the [NaN] that adding to it gives *)
  continuousCoolingTime : option Q
}.

Definition construct (maxOutputLevel : Q) : t := mk maxOutputLevel 0 0 [] None.

(** The listener of the amplitude ([lazyLink]: not called when linked). *)
Definition amplitudeListener (amplitude : Q) (g : t) : t :=
  mk (maxOutputLevel g) amplitude (previousAmplitudeValue g)
     (amplitudeChangeRateHistory g) (continuousCoolingTime g).

(** [history.reduce( ( total, num ) => total + num )], which starts from the
    first element.  On an empty array the source would throw; [step] calls it
    after a push. *)
Definition reduce (history : list Q) : Q :=
  match history with
  | [] => 0
  | first :: rest => foldl Qplus first rest
  end.

Definition averageChangeRate (history : list Q) : Q :=
  reduce history / inject_Z (Z.of_nat AMPLITUDE_AVERAGING_ARRAY_LENGTH).

(** [history.push( rate )], then [splice( 0, 1 )] when the array is longer
    than the averaging length. *)
Definition record (rate : Q) (history : list Q) : list Q :=
  let history := history ++ [rate] in
  if (AMPLITUDE_AVERAGING_ARRAY_LENGTH <? length history)%nat
  then drop 1 history else history.

(** The level the cooling sound should have. *)
Definition targetLevel (g : t) : Q :=
  match continuousCoolingTime g with
  | Some time =>
      if Qlt_bool COOLING_SOUND_DELAY time then
        let scalingFactor :=
          (1 - Qmin ((time - COOLING_SOUND_DELAY) / COOLING_SOUND_DURATION) 1)
          * Qmin (Qabs (averageChangeRate (amplitudeChangeRateHistory g))) 1 in
        maxOutputLevel g * scalingFactor
      else 0
  | None => 0
  end.

(** [step]: the new state, the target level and the calls to the noise
    generator. *)
Definition step (dt : Q) (outputLevel : Q) (isPlaying : bool) (g : t)
    : t * Q * list call :=
  let amplitudeChangeRate :=
    (mostRecentAmplitudeValue g - previousAmplitudeValue g) / dt in
  let history := record amplitudeChangeRate (amplitudeChangeRateHistory g) in
  let time :=
    if (length history =? AMPLITUDE_AVERAGING_ARRAY_LENGTH)%nat
       && Qlt_bool (averageChangeRate history) 0
    then match continuousCoolingTime g with
         | Some time => Some (time + dt)
         | None => None
         end
    else Some 0 in
  let g := mk (maxOutputLevel g) (mostRecentAmplitudeValue g)
              (mostRecentAmplitudeValue g) history time in
  let targetOutputLevel := targetLevel g in
  let calls :=
    if Qeq_bool outputLevel targetOutputLevel then []
    else if Qlt_bool 0 targetOutputLevel then
      (if isPlaying then [] else [start])
      ++ [setOutputLevel targetOutputLevel (2 # 10)]
    else [setOutputLevel targetOutputLevel (5 # 10); stop] in
  (g, targetOutputLevel, calls).

Inductive event : Type :=
  | Amplitude (amplitude : Q)
  | Step (dt outputLevel : Q) (isPlaying : bool).

Definition handle (g : t) (e : event) : t :=
  match e with
  | Amplitude amplitude => amplitudeListener amplitude g
  | Step dt outputLevel isPlaying => fst (fst (step dt outputLevel isPlaying g))
  end.

Definition run (g : t) (events : list event) : t := foldl handle g events.

Definition is_step (e : event) : bool :=
  match e with Step _ _ _ => true | Amplitude _ => false end.

(** The number of steps among the events. *)
Definition stepCount (events : list event) : nat :=
  length (filter (fun e => is_step e = true) events).

End CoolingSoundGenerator.

(** ** The model in binary64

    The functions of [FrictionModel.js] once more, with the numbers of the
    source: IEEE 754 binary64, every operation rounded to nearest, ties to
    even ([SpecFloat] of the standard library with 53 bits of precision).
    This model is evaluated where rounding decides what the code does.  The
    atoms, the queue and the order of the listeners are those of the exact
    model above. *)
Module Double.

Definition number : Type := spec_float.

Definition prec : Z := 53.
Definition emax : Z := 1024.

Definition add : number -> number -> number := SFadd prec emax.
Definition sub : number -> number -> number := SFsub prec emax.
Definition mul : number -> number -> number := SFmul prec emax.
Definition div : number -> number -> number := SFdiv prec emax.

(** [a < b] and [a === b]: false when an operand is [NaN], and
    [-0 === 0]. *)
Definition ltb : number -> number -> bool := SFltb.
Definition leb : number -> number -> bool := SFleb.
Definition eqb : number -> number -> bool := SFeqb.

(** An integer literal (exact below [2 ^ 53]). *)
Definition ofZ (z : Z) : number := binary_normalize prec emax z 0 false.

(** A decimal literal [n / 10 ^ digits] as the parser reads it, the double
    nearest to its value: numerator and denominator are exact (below
    [2 ^ 53]), and the quotient is rounded once. *)
Definition decimal (n : Z) (digits : nat) : number :=
  div (ofZ n) (ofZ (10 ^ Z.of_nat digits)).

Definition isNaN (a : number) : bool :=
  match a with S754_nan => true | _ => false end.

Definition negative (a : number) : bool :=
  match a with
  | S754_zero s | S754_infinity s | S754_finite s _ _ => s
  | S754_nan => false
  end.

(** [Math.min] and [Math.max]: [NaN] when an operand is, and [-0] below
    [+0]. *)
Definition min (a b : number) : number :=
  if isNaN a || isNaN b then S754_nan
  else if ltb a b then a
  else if ltb b a then b
  else if negative a then a else b.

Definition max (a b : number) : number :=
  if isNaN a || isNaN b then S754_nan
  else if ltb a b then b
  else if ltb b a then a
  else if negative a then b else a.

Definition abs : number -> number := SFabs.

(** The signed mantissa of a finite number. *)
Definition mantissa (s : bool) (m : positive) : Z :=
  if s then Z.neg m else Z.pos m.

(** [Math.floor]. *)
Definition floor (a : number) : number :=
  match a with
  | S754_finite s m e =>
      if (0 <=? e)%Z then a
      else
        let z := Z.shiftr (mantissa s m) (- e) in
        if (z =? 0)%Z then S754_zero false else ofZ z
  | _ => a
  end.

(** The integer that [splice] makes of its first argument: [NaN] is 0, and
    the fraction is dropped. *)
Definition toInteger (a : number) (len : nat) : Z :=
  match a with
  | S754_nan | S754_zero _ | S754_infinity true => 0
  | S754_infinity false => Z.of_nat len
  | S754_finite s m e =>
      if (0 <=? e)%Z then mantissa s m * 2 ^ e
      else Z.quot (mantissa s m) (2 ^ (- e))
  end.

Module Vector2.

Record t : Type := mk { x : number; y : number }.

Definition plus (a b : t) : t := mk (add (x a) (x b)) (add (y a) (y b)).

Definition minus (a b : t) : t := mk (sub (x a) (x b)) (sub (y a) (y b)).

Definition zero : t := mk (ofZ 0) (ofZ 0).

End Vector2.

Definition DISTANCE_Y : number := ofZ 20.
Definition DISTANCE_INITIAL : number := ofZ 25.
Definition AMPLITUDE_MIN : number := ofZ 1.
Definition AMPLITUDE_EVAPORATE : number := ofZ 7.
Definition AMPLITUDE_MAX : number := ofZ 12.
Definition COOLING_RATE : number := decimal 2 1.
Definition HEATING_MULTIPLIER : number := decimal 75 4.
Definition EVAPORATION_AMPLITUDE_REDUCTION : number := decimal 1 2.
Definition MAX_X_DISPLACEMENT : number := ofZ 600.
Definition MIN_Y_POSITION : number := ofZ (-70).

Record FrictionModel : Type := mkModel {
  scheduledEvaporationAmount : number;
  toEvaporateSample : list (list Atom);
  toEvaporate : list (list Atom);
  temperatureProperty : number;
  positionProperty : Vector2.t;
  distanceProperty : number;
  bottomOffsetProperty : number;
  atomRowsToEvaporateProperty : nat;
  contactProperty : bool;
  hintProperty : bool;
  newStepProperty : bool;
  (* [undefined] until [init] runs *)
  minYPos : option number;
  isEvaporated : gset Atom
}.

Definition with_scheduled (v : number) (s : FrictionModel) : FrictionModel :=
  mkModel v (toEvaporateSample s) (toEvaporate s) (temperatureProperty s)
    (positionProperty s) (distanceProperty s) (bottomOffsetProperty s)
    (atomRowsToEvaporateProperty s) (contactProperty s) (hintProperty s)
    (newStepProperty s) (minYPos s) (isEvaporated s).

Definition with_sample (v : list (list Atom)) (s : FrictionModel) : FrictionModel :=
  mkModel (scheduledEvaporationAmount s) v (toEvaporate s) (temperatureProperty s)
    (positionProperty s) (distanceProperty s) (bottomOffsetProperty s)
    (atomRowsToEvaporateProperty s) (contactProperty s) (hintProperty s)
    (newStepProperty s) (minYPos s) (isEvaporated s).

Definition with_toEvaporate (v : list (list Atom)) (s : FrictionModel) : FrictionModel :=
  mkModel (scheduledEvaporationAmount s) (toEvaporateSample s) v (temperatureProperty s)
    (positionProperty s) (distanceProperty s) (bottomOffsetProperty s)
    (atomRowsToEvaporateProperty s) (contactProperty s) (hintProperty s)
    (newStepProperty s) (minYPos s) (isEvaporated s).

Definition with_temperature (v : number) (s : FrictionModel) : FrictionModel :=
  mkModel (scheduledEvaporationAmount s) (toEvaporateSample s) (toEvaporate s) v
    (positionProperty s) (distanceProperty s) (bottomOffsetProperty s)
    (atomRowsToEvaporateProperty s) (contactProperty s) (hintProperty s)
    (newStepProperty s) (minYPos s) (isEvaporated s).

Definition with_position (v : Vector2.t) (s : FrictionModel) : FrictionModel :=
  mkModel (scheduledEvaporationAmount s) (toEvaporateSample s) (toEvaporate s)
    (temperatureProperty s) v (distanceProperty s) (bottomOffsetProperty s)
    (atomRowsToEvaporateProperty s) (contactProperty s) (hintProperty s)
    (newStepProperty s) (minYPos s) (isEvaporated s).

Definition with_distance (v : number) (s : FrictionModel) : FrictionModel :=
  mkModel (scheduledEvaporationAmount s) (toEvaporateSample s) (toEvaporate s)
    (temperatureProperty s) (positionProperty s) v (bottomOffsetProperty s)
    (atomRowsToEvaporateProperty s) (contactProperty s) (hintProperty s)
    (newStepProperty s) (minYPos s) (isEvaporated s).

Definition with_bottomOffset (v : number) (s : FrictionModel) : FrictionModel :=
  mkModel (scheduledEvaporationAmount s) (toEvaporateSample s) (toEvaporate s)
    (temperatureProperty s) (positionProperty s) (distanceProperty s) v
    (atomRowsToEvaporateProperty s) (contactProperty s) (hintProperty s)
    (newStepProperty s) (minYPos s) (isEvaporated s).

Definition with_atomRows (v : nat) (s : FrictionModel) : FrictionModel :=
  mkModel (scheduledEvaporationAmount s) (toEvaporateSample s) (toEvaporate s)
    (temperatureProperty s) (positionProperty s) (distanceProperty s)
    (bottomOffsetProperty s) v (contactProperty s) (hintProperty s)
    (newStepProperty s) (minYPos s) (isEvaporated s).

Definition with_contact (v : bool) (s : FrictionModel) : FrictionModel :=
  mkModel (scheduledEvaporationAmount s) (toEvaporateSample s) (toEvaporate s)
    (temperatureProperty s) (positionProperty s) (distanceProperty s)
    (bottomOffsetProperty s) (atomRowsToEvaporateProperty s) v (hintProperty s)
    (newStepProperty s) (minYPos s) (isEvaporated s).

Definition with_hint (v : bool) (s : FrictionModel) : FrictionModel :=
  mkModel (scheduledEvaporationAmount s) (toEvaporateSample s) (toEvaporate s)
    (temperatureProperty s) (positionProperty s) (distanceProperty s)
    (bottomOffsetProperty s) (atomRowsToEvaporateProperty s) (contactProperty s) v
    (newStepProperty s) (minYPos s) (isEvaporated s).

Definition with_newStep (v : bool) (s : FrictionModel) : FrictionModel :=
  mkModel (scheduledEvaporationAmount s) (toEvaporateSample s) (toEvaporate s)
    (temperatureProperty s) (positionProperty s) (distanceProperty s)
    (bottomOffsetProperty s) (atomRowsToEvaporateProperty s) (contactProperty s)
    (hintProperty s) v (minYPos s) (isEvaporated s).

Definition with_minYPos (v : option number) (s : FrictionModel) : FrictionModel :=
  mkModel (scheduledEvaporationAmount s) (toEvaporateSample s) (toEvaporate s)
    (temperatureProperty s) (positionProperty s) (distanceProperty s)
    (bottomOffsetProperty s) (atomRowsToEvaporateProperty s) (contactProperty s)
    (hintProperty s) (newStepProperty s) v (isEvaporated s).

Definition with_isEvaporated (v : gset Atom) (s : FrictionModel) : FrictionModel :=
  mkModel (scheduledEvaporationAmount s) (toEvaporateSample s) (toEvaporate s)
    (temperatureProperty s) (positionProperty s) (distanceProperty s)
    (bottomOffsetProperty s) (atomRowsToEvaporateProperty s) (contactProperty s)
    (hintProperty s) (newStepProperty s) (minYPos s) v.

(** [distanceProperty.set( d )] with its listener
    [contactProperty.set( Math.floor( distance ) <= 0 )]. *)
Definition distanceProperty_set (d : number) (s : FrictionModel) : FrictionModel :=
  if eqb d (distanceProperty s) then s
  else with_contact (leb (floor d) (ofZ 0)) (with_distance d s).

Definition atom_evaporate (a : Atom) (s : FrictionModel) : FrictionModel :=
  with_isEvaporated ({[ a ]} ∪ isEvaporated s) s.

Definition atom_reset (a : Atom) (s : FrictionModel) : FrictionModel :=
  with_isEvaporated (isEvaporated s ∖ {[ a ]}) s.

Definition evaporate_advance (s : FrictionModel) : FrictionModel :=
  match last (toEvaporate s) with
  | Some [] =>
      let s := with_toEvaporate (removelast (toEvaporate s)) s in
      let s := distanceProperty_set (add (distanceProperty s) DISTANCE_Y) s in
      with_atomRows (length (toEvaporate s)) s
  | _ => s
  end.

(** [Math.floor( Math.random() * length )] with [r] the random draw, as
    [splice] reads it. *)
Definition randomIndex (r : number) (len : nat) : Z :=
  toInteger (floor (mul r (ofZ (Z.of_nat len)))) len.

Definition evaporate_atom (r : number) (s : FrictionModel) : FrictionModel :=
  match last (toEvaporate s) with
  | Some currentEvaporationRow =>
      let '(atom, rest) :=
        splice1 currentEvaporationRow
          (randomIndex r (length currentEvaporationRow)) in
      let s := with_toEvaporate
                 (<[ pred (length (toEvaporate s)) := rest ]> (toEvaporate s)) s in
      match atom with
      | Some a =>
          let s := atom_evaporate a s in
          with_scheduled
            (add (scheduledEvaporationAmount s) EVAPORATION_AMPLITUDE_REDUCTION) s
      | None => s
      end
  | None => s
  end.

Definition evaporate (r : number) (s : FrictionModel) : FrictionModel :=
  evaporate_atom r (evaporate_advance s).

(** [temperatureProperty.set( t )] with its listener, the evaporation
    check. *)
Definition temperatureProperty_set (t : number) (r : number) (s : FrictionModel)
    : FrictionModel :=
  if eqb t (temperatureProperty s) then s
  else
    let s := with_temperature t s in
    if ltb AMPLITUDE_EVAPORATE t then evaporate r s else s.

(** The listener of [positionProperty]. *)
Definition positionListener (newPosition oldPosition : Vector2.t) (r : number)
    (s : FrictionModel) : FrictionModel :=
  let s := distanceProperty_set
             (sub (distanceProperty s)
                  (Vector2.y (Vector2.minus newPosition oldPosition))) s in
  if contactProperty s then
    let dx := abs (sub (Vector2.x newPosition) (Vector2.x oldPosition)) in
    temperatureProperty_set
      (min (add (temperatureProperty s) (mul dx HEATING_MULTIPLIER)) AMPLITUDE_MAX)
      r s
  else s.

Definition positionProperty_set (p : Vector2.t) (r : number) (s : FrictionModel)
    : FrictionModel :=
  positionListener p (positionProperty s) r (with_position p s).

Definition construct : FrictionModel :=
  mkModel (ofZ 0) [] [] AMPLITUDE_MIN Vector2.zero DISTANCE_INITIAL (ofZ 0) 0%nat
    false true false None ∅.

(** [addAtoms]: the atoms are created as in the exact model; the layout
    enters the sample only through the number of atoms of each group. *)
Definition addAtoms (s : FrictionModel) : FrictionModel :=
  let acc := foldl addLayer (0%nat, toEvaporateSample s) topAtomsStructure in
  let acc := foldl addLayer acc bottomAtomsStructure in
  with_sample (snd acc) s.

Definition init (s : FrictionModel) : FrictionModel :=
  let s := with_toEvaporate (copyRows (toEvaporateSample s) (toEvaporate s)) s in
  let s := foldl (fun s a => atom_reset a s) s (concat (toEvaporate s)) in
  let s := with_atomRows (length (toEvaporate s)) s in
  with_minYPos (Some MIN_Y_POSITION) s.

Definition initial : FrictionModel := init (addAtoms construct).

Definition step (dt : number) (r : number) (s : FrictionModel) : FrictionModel :=
  if ltb (decimal 5 1) dt then s
  else
    let s := with_newStep (negb (newStepProperty s)) s in
    (* Cool the atoms. *)
    let temperature := sub (temperatureProperty s) (scheduledEvaporationAmount s) in
    let temperature :=
      max AMPLITUDE_MIN (mul temperature (sub (ofZ 1) (mul dt COOLING_RATE))) in
    let s := temperatureProperty_set temperature r s in
    with_scheduled (ofZ 0) s.

(** The part of [move] before the position is set.  A comparison with a
    [minYPos] that is still [undefined] is false. *)
Definition limitMotion (v : Vector2.t) (s : FrictionModel) : Vector2.t * FrictionModel :=
  let s := with_hint false s in
  (* check bottom offset *)
  let '(v, s) :=
    if ltb (ofZ 0) (bottomOffsetProperty s) && ltb (Vector2.y v) (ofZ 0) then
      (Vector2.mk (Vector2.x v) (ofZ 0),
       with_bottomOffset (add (bottomOffsetProperty s) (Vector2.y v)) s)
    else (v, s) in
  let pos := positionProperty s in
  let '(v, s) :=
    if ltb (distanceProperty s) (Vector2.y v) then
      (Vector2.mk (Vector2.x v) (distanceProperty s),
       with_bottomOffset
         (sub (add (bottomOffsetProperty s) (Vector2.y v)) (distanceProperty s)) s)
    else
      match minYPos s with
      | Some minYPos =>
          if ltb (add (Vector2.y pos) (Vector2.y v)) minYPos then
            (Vector2.mk (Vector2.x v) (sub minYPos (Vector2.y pos)), s)
          else (v, s)
      | None => (v, s)
      end in
  let v :=
    if ltb MAX_X_DISPLACEMENT (add (Vector2.x pos) (Vector2.x v)) then
      Vector2.mk (sub MAX_X_DISPLACEMENT (Vector2.x pos)) (Vector2.y v)
    else if ltb (add (Vector2.x pos) (Vector2.x v)) (SFopp MAX_X_DISPLACEMENT) then
      Vector2.mk (sub (SFopp MAX_X_DISPLACEMENT) (Vector2.x pos)) (Vector2.y v)
    else v in
  (v, s).

Definition move (v : Vector2.t) (r : number) (s : FrictionModel) : FrictionModel :=
  let '(v, s) := limitMotion v s in
  (* set the new position *)
  positionProperty_set (Vector2.plus (positionProperty s) v) r s.

Inductive op : Type :=
  | Step (dt r : number)
  | Move (v : Vector2.t) (r : number).

Definition apply (s : FrictionModel) (o : op) : FrictionModel :=
  match o with
  | Step dt r => step dt r s
  | Move v r => move v r s
  end.

Definition run (s : FrictionModel) (ops : list op) : FrictionModel :=
  foldl apply s ops.

(** A move by the vector [(x / 10, y / 10)], the random draw being 0. *)
Definition drag (x y : Z) : op :=
  Move (Vector2.mk (decimal x 1) (decimal y 1)) (ofZ 0).

(** Example runs.  The book dragged to the left by 444.4 and then to the
    right by 2000 ... *)
Definition to_the_right : list op := [drag (-4444) 0; drag 20000 0].

(** ... the book pushed down by 0.1, by 8.2 and by 30 ... *)
Definition pushed_down : list op := [drag 0 1; drag 0 82; drag 0 300].

(** ... and the book pushed down onto the other, rubbed to the left by
    500.1 and to the right by 2000, and left to cool for half a second. *)
Definition rubbed_and_cooled : list op :=
  [drag 0 250; drag (-5001) 0; drag 20000 0; Step (decimal 5 1) (ofZ 0)].

End Double.

(** * Properties *)

(** ** Numbers *)

Lemma Qlt_bool_iff a b : Qlt_bool a b = true <-> a < b.
Proof.
  unfold Qlt_bool. rewrite negb_true_iff, <- not_true_iff_false, Qle_bool_iff.
  split; [apply Qnot_le_lt | apply Qlt_not_le].
Qed.

Lemma Qlt_bool_false a b : Qlt_bool a b = false <-> b <= a.
Proof.
  unfold Qlt_bool. rewrite negb_false_iff. apply Qle_bool_iff.
Qed.

(** ** Bookkeeping *)

(** Unfold the field updates and project. *)
Ltac fields :=
  cbn [scheduledEvaporationAmount toEvaporateSample toEvaporate
       temperatureProperty positionProperty distanceProperty
       bottomOffsetProperty atomRowsToEvaporateProperty contactProperty
       hintProperty newStepProperty minYPos isEvaporated
       with_scheduled with_sample with_toEvaporate with_temperature
       with_position with_distance with_bottomOffset with_atomRows
       with_contact with_hint with_newStep with_minYPos with_isEvaporated
       atom_evaporate atom_reset
       Vector2.x Vector2.y Vector2.plus Vector2.minus Vector2.zero] in *.

Ltac constants :=
  unfold DISTANCE_X, DISTANCE_Y, DISTANCE_INITIAL, AMPLITUDE_MIN,
    AMPLITUDE_EVAPORATE, AMPLITUDE_MAX, COOLING_RATE, HEATING_MULTIPLIER,
    EVAPORATION_AMPLITUDE_REDUCTION, MAX_X_DISPLACEMENT, MIN_Y_POSITION in *.

(** Case analysis on a comparison of numbers, keeping the fact. *)
Ltac number_cases :=
  repeat match goal with
  | |- context [Qeq_bool ?a ?b] =>
      let E := fresh "E" in
      destruct (Qeq_bool a b) eqn:E;
      [apply Qeq_bool_iff in E | apply Qeq_bool_neq in E]
  | |- context [Qlt_bool ?a ?b] =>
      let E := fresh "E" in
      destruct (Qlt_bool a b) eqn:E;
      [apply Qlt_bool_iff in E | apply Qlt_bool_false in E]
  end.

Lemma evolve_refl s : evolve s s.
Proof. split; auto; apply Qle_refl. Qed.

Lemma evolve_trans s1 s2 s3 : evolve s1 s2 -> evolve s2 s3 -> evolve s1 s3.
Proof.
  intros [] []. split; try congruence; auto.
  all: try (eapply Qle_trans; eassumption).
  lia.
Qed.

Lemma Qfloor_eq a b : a == b -> Qfloor a = Qfloor b.
Proof. intros H. now rewrite H. Qed.

Lemma distanceProperty_set_distance d s :
  distanceProperty (distanceProperty_set d s) == d.
Proof.
  unfold distanceProperty_set. number_cases; fields; [now symmetry | reflexivity].
Qed.

Lemma distanceProperty_set_consistent d s :
  consistent s -> consistent (distanceProperty_set d s).
Proof.
  unfold distanceProperty_set, consistent. number_cases; fields; auto.
Qed.

Lemma length_removelast {A} (l : list A) :
  length (removelast l) = pred (length l).
Proof.
  rewrite removelast_firstn_len, length_take. lia.
Qed.

Lemma evaporate_advance_evolve s : evolve s (evaporate_advance s).
Proof.
  unfold evaporate_advance.
  destruct (last (toEvaporate s)) as [[|a row]|] eqn:L; try apply evolve_refl.
  unfold distanceProperty_set; fields. constants.
  number_cases; [exfalso; lra|].
  split; fields; try reflexivity; try lra.
  rewrite length_removelast. lia.
Qed.

Lemma evaporate_advance_temperature s :
  temperatureProperty (evaporate_advance s) = temperatureProperty s.
Proof.
  unfold evaporate_advance, distanceProperty_set.
  destruct (last (toEvaporate s)) as [[|a row]|]; try reflexivity.
  fields. number_cases; reflexivity.
Qed.

Lemma evaporate_atom_evolve r s :
  evolve s (evaporate_atom r s).
Proof.
  unfold evaporate_atom.
  destruct (last (toEvaporate s)) as [row|] eqn:L; try apply evolve_refl.
  unfold splice1.
  match goal with |- context [row !! ?i] => destruct (row !! i) end.
  - split; fields; try reflexivity; constants; try lra.
    + rewrite length_insert. lia.
    + unfold counted; fields. now rewrite length_insert.
    + auto.
  - split; fields; try reflexivity; try lra.
    + rewrite length_insert. lia.
    + unfold counted; fields. now rewrite length_insert.
    + auto.
Qed.

Lemma evaporate_atom_temperature r s :
  temperatureProperty (evaporate_atom r s) = temperatureProperty s.
Proof.
  unfold evaporate_atom, splice1.
  destruct (last (toEvaporate s)) as [row|]; try reflexivity.
  match goal with |- context [row !! ?i] => destruct (row !! i) end; reflexivity.
Qed.

Lemma evaporate_evolve r s : evolve s (evaporate r s).
Proof.
  unfold evaporate. eapply evolve_trans;
    [apply evaporate_advance_evolve | apply evaporate_atom_evolve].
Qed.

Lemma evaporate_temperature r s :
  temperatureProperty (evaporate r s) = temperatureProperty s.
Proof.
  unfold evaporate.
  now rewrite evaporate_atom_temperature, evaporate_advance_temperature.
Qed.

(** Setting the temperature: the new value is stored (up to the equality of
    numbers), everything else evolves by evaporation at most. *)
Lemma temperatureProperty_set_temperature t r s :
  temperatureProperty (temperatureProperty_set t r s) == t.
Proof.
  unfold temperatureProperty_set. number_cases.
  - now symmetry.
  - rewrite evaporate_temperature. reflexivity.
  - reflexivity.
Qed.

Lemma with_temperature_evolve t s : evolve s (with_temperature t s).
Proof. split; fields; auto; apply Qle_refl. Qed.

Lemma temperatureProperty_set_evolve t r s :
  evolve s (temperatureProperty_set t r s).
Proof.
  unfold temperatureProperty_set. number_cases.
  - apply evolve_refl.
  - eapply evolve_trans; [apply with_temperature_evolve | apply evaporate_evolve].
  - apply with_temperature_evolve.
Qed.

(** Setting the distance touches the distance and the contact flag only. *)
Lemma distanceProperty_set_frame d s :
  let s' := distanceProperty_set d s in
  scheduledEvaporationAmount s' = scheduledEvaporationAmount s /\
  toEvaporateSample s' = toEvaporateSample s /\
  toEvaporate s' = toEvaporate s /\
  temperatureProperty s' = temperatureProperty s /\
  positionProperty s' = positionProperty s /\
  bottomOffsetProperty s' = bottomOffsetProperty s /\
  atomRowsToEvaporateProperty s' = atomRowsToEvaporateProperty s /\
  minYPos s' = minYPos s.
Proof.
  unfold distanceProperty_set. number_cases; fields; repeat split.
Qed.

Lemma distanceProperty_set_contact d s :
  consistent s ->
  contactProperty (distanceProperty_set d s) = (Qfloor d <=? 0)%Z.
Proof.
  intros C. rewrite (distanceProperty_set_consistent d s C).
  now rewrite (Qfloor_eq _ _ (distanceProperty_set_distance d s)).
Qed.

Lemma positionListener_evolve newPosition oldPosition r s :
  evolve (distanceProperty_set (moved newPosition oldPosition s) s)
         (positionListener newPosition oldPosition r s).
Proof.
  unfold positionListener, moved.
  destruct (contactProperty _); [apply temperatureProperty_set_evolve | apply evolve_refl].
Qed.

Lemma positionListener_temperature newPosition oldPosition r s :
  let s1 := distanceProperty_set (moved newPosition oldPosition s) s in
  temperatureProperty (positionListener newPosition oldPosition r s) ==
    if contactProperty s1 then heated newPosition oldPosition s
    else temperatureProperty s.
Proof.
  cbn zeta. unfold positionListener, moved, heated.
  destruct (distanceProperty_set_frame
              (distanceProperty s - Vector2.y (Vector2.minus newPosition oldPosition)) s)
    as (_ & _ & _ & HT & _).
  cbn zeta in HT.
  destruct (contactProperty _).
  - rewrite temperatureProperty_set_temperature, HT. reflexivity.
  - rewrite HT. reflexivity.
Qed.

(** ** The invariant is kept *)

Lemma Inv_evolve s s' :
  Inv s -> evolve s s' ->
  AMPLITUDE_MIN <= temperatureProperty s' ->
  temperatureProperty s' <= AMPLITUDE_MAX ->
  Inv s'.
Proof.
  intros [] [] Hmin Hmax.
  split; auto; try congruence; rewrite ?ev_position0, ?ev_sample0;
    solve [assumption | lra | lia].
Qed.

Lemma Inv_evaporate r s : Inv s -> Inv (evaporate r s).
Proof.
  intros I. apply (Inv_evolve s); auto using evaporate_evolve.
  all: rewrite evaporate_temperature; apply I.
Qed.

Lemma Inv_dragEnd s : Inv s -> Inv (dragEnd s).
Proof. intros []. split; auto. Qed.

(** Cooling: the temperature a step asks for lies between the minimum and
    the temperature before the step. *)
Lemma cooling_bounds t sch dt :
  AMPLITUDE_MIN <= t -> 0 <= sch -> 0 <= dt -> dt <= 5 # 10 ->
  AMPLITUDE_MIN <= Qmax AMPLITUDE_MIN ((t - sch) * (1 - dt * COOLING_RATE)) /\
  Qmax AMPLITUDE_MIN ((t - sch) * (1 - dt * COOLING_RATE)) <= t.
Proof.
  intros Ht Hs H0 H1. constants. split.
  - apply Q.le_max_l.
  - apply Q.max_lub; [assumption|].
    destruct (Qlt_le_dec (t - sch) 0) as [N|P].
    + assert (0 <= (0 - (t - sch)) * (1 - dt * (2 # 10))) by
        (apply Qmult_le_0_compat; lra).
      lra.
    + assert (0 <= (t - sch) * (dt * (2 # 10))) by
        (apply Qmult_le_0_compat; lra).
      lra.
Qed.

Lemma Inv_step dt r s : 0 <= dt -> Inv s -> Inv (step dt r s).
Proof.
  intros Hdt I. unfold step. number_cases; [assumption|].
  set (s1 := with_newStep _ s).
  assert (I1 : Inv s1) by (destruct I; split; auto).
  destruct (cooling_bounds (temperatureProperty s1) (scheduledEvaporationAmount s1) dt)
    as [Hmin Hmax]; try apply I1; auto.
  set (t := Qmax _ _) in *.
  pose proof (temperatureProperty_set_temperature t r s1) as HT.
  pose proof (temperatureProperty_set_evolve t r s1) as Hev.
  set (s2 := temperatureProperty_set t r s1) in *.
  assert (I2 : Inv s2).
  { apply (Inv_evolve s1); auto; rewrite HT; auto.
    eapply Qle_trans; [apply Hmax | apply I1]. }
  destruct I2. split; auto. fields. apply Qle_refl.
Qed.

Lemma heated_bounds newPosition oldPosition s :
  AMPLITUDE_MIN <= temperatureProperty s ->
  AMPLITUDE_MIN <= heated newPosition oldPosition s /\
  heated newPosition oldPosition s <= AMPLITUDE_MAX.
Proof.
  intros Ht. unfold heated. split; [|apply Q.le_min_r].
  pose proof (Qabs_nonneg (Vector2.x newPosition - Vector2.x oldPosition)) as Ha.
  apply Q.min_glb; constants; [|lra].
  assert (0 <= Qabs (Vector2.x newPosition - Vector2.x oldPosition) * (75 # 10000))
    by (apply Qmult_le_0_compat; lra).
  lra.
Qed.

(** Setting a position that respects the limits keeps the invariant. *)
Lemma positionProperty_set_Inv p r s :
  Inv s ->
  Vector2.y p - Vector2.y (positionProperty s) <= distanceProperty s ->
  MIN_Y_POSITION <= Vector2.y p ->
  - MAX_X_DISPLACEMENT <= Vector2.x p ->
  Vector2.x p <= MAX_X_DISPLACEMENT ->
  Inv (positionProperty_set p r s).
Proof.
  intros I Hd Hy Hx1 Hx2. unfold positionProperty_set.
  set (old := positionProperty s).
  set (s0 := with_position p s).
  pose proof (positionListener_evolve p old r s0) as Hev.
  pose proof (positionListener_temperature p old r s0) as HT.
  cbn zeta in HT.
  set (d := moved p old s0) in *.
  destruct (distanceProperty_set_frame d s0)
    as (F1 & F2 & F3 & F4 & F5 & F6 & F7 & F8).
  pose proof (distanceProperty_set_distance d s0) as Fd.
  cbn zeta in *.
  assert (I1 : Inv (distanceProperty_set d s0)).
  { destruct I. split; rewrite ?F1, ?F2, ?F3, ?F4, ?F5, ?F8, ?Fd;
      subst s0 d old; unfold moved, counted in *; fields; auto; try lra.
    - congruence.
    - apply distanceProperty_set_consistent. assumption. }
  apply (Inv_evolve _ _ I1 Hev); rewrite HT.
  all: destruct (contactProperty _);
    [apply heated_bounds | subst s0; fields]; apply I.
Qed.

Lemma Inv_with_hint b s : Inv s -> Inv (with_hint b s).
Proof. intros []. split; auto. Qed.

Lemma Inv_with_bottomOffset b s : Inv s -> Inv (with_bottomOffset b s).
Proof. intros []. split; auto. Qed.

Lemma move_unfold v r s :
  move v r s =
    positionProperty_set
      (Vector2.plus (positionProperty (snd (limitMotion v s))) (fst (limitMotion v s)))
      r (snd (limitMotion v s)).
Proof. unfold move. now destruct (limitMotion v s). Qed.

(** The limited motion vector: the book goes down by the gap at most, stays
    above the minimum height and within the horizontal limits. *)
Lemma limitMotion_spec v s :
  Inv s ->
  let v' := fst (limitMotion v s) in
  let s' := snd (limitMotion v s) in
  Inv s' /\
  positionProperty s' = positionProperty s /\
  distanceProperty s' = distanceProperty s /\
  Vector2.y v' <= distanceProperty s /\
  MIN_Y_POSITION <= Vector2.y (positionProperty s) + Vector2.y v' /\
  - MAX_X_DISPLACEMENT <= Vector2.x (positionProperty s) + Vector2.x v' /\
  Vector2.x (positionProperty s) + Vector2.x v' <= MAX_X_DISPLACEMENT.
Proof.
  intros I. pose proof I as [].
  unfold limitMotion, belowMinY.
  destruct (andb (Qlt_bool 0 (bottomOffsetProperty (with_hint false s)))
                 (Qlt_bool (Vector2.y v) 0));
    fields; rewrite inv_minYPos0; constants;
    number_cases; cbn [fst snd]; fields;
    (split;
     [repeat first [apply Inv_with_bottomOffset | apply Inv_with_hint]; exact I
     | repeat split; lra]).
Qed.

Lemma Inv_move v r s : Inv s -> Inv (move v r s).
Proof.
  intros I. rewrite move_unfold.
  destruct (limitMotion_spec v s I) as (I' & Hp & Hd & H1 & H2 & H3 & H4).
  cbn zeta in *.
  apply positionProperty_set_Inv; auto; rewrite ?Hp, ?Hd; fields; lra.
Qed.

(** ** Initialisation and reset *)

Lemma copyRows_sample sample rows :
  (length rows <= length sample)%nat -> copyRows sample rows = sample.
Proof.
  revert rows. induction sample as [|row sample IH]; intros rows H; cbn in *.
  - destruct rows; [reflexivity | cbn in H; lia].
  - f_equal. apply IH. destruct rows; cbn in *; lia.
Qed.

(** Resetting atoms changes their flags only. *)
Lemma atoms_reset_frame atoms s :
  exists flags,
    foldl (fun s a => atom_reset a s) s atoms = with_isEvaporated flags s.
Proof.
  revert s. induction atoms as [|a atoms IH]; intros s; cbn [foldl].
  - exists (isEvaporated s). now destruct s.
  - destruct (IH (atom_reset a s)) as [flags ->]. now exists flags.
Qed.

Lemma init_spec s :
  (length (toEvaporate s) <= length (toEvaporateSample s))%nat ->
  let s' := init s in
  toEvaporate s' = toEvaporateSample s /\
  toEvaporateSample s' = toEvaporateSample s /\
  atomRowsToEvaporateProperty s' = length (toEvaporateSample s) /\
  minYPos s' = Some MIN_Y_POSITION /\
  temperatureProperty s' = temperatureProperty s /\
  positionProperty s' = positionProperty s /\
  distanceProperty s' = distanceProperty s /\
  contactProperty s' = contactProperty s /\
  scheduledEvaporationAmount s' = scheduledEvaporationAmount s /\
  bottomOffsetProperty s' = bottomOffsetProperty s.
Proof.
  intros H. unfold init.
  destruct (atoms_reset_frame
              (concat (toEvaporate
                 (with_toEvaporate (copyRows (toEvaporateSample s) (toEvaporate s)) s)))
              (with_toEvaporate (copyRows (toEvaporateSample s) (toEvaporate s)) s))
    as [flags ->].
  cbn zeta. fields. rewrite copyRows_sample by assumption. repeat split.
Qed.

(** A temperature at or below the evaporation limit is stored without
    evaporation. *)
Lemma temperatureProperty_set_cool t r s :
  t <= AMPLITUDE_EVAPORATE ->
  temperatureProperty_set t r s =
    if Qeq_bool t (temperatureProperty s) then s else with_temperature t s.
Proof.
  intros H. unfold temperatureProperty_set.
  destruct (Qeq_bool t (temperatureProperty s)); [reflexivity|].
  fields. now apply Qlt_bool_false in H as ->.
Qed.

Lemma floor_gap d : DISTANCE_INITIAL <= d -> (Qfloor d <=? 0)%Z = false.
Proof.
  intros H. apply Z.leb_gt.
  apply Qfloor_resp_le in H. change (Qfloor DISTANCE_INITIAL) with 25%Z in H. lia.
Qed.

(** What [reset] leaves behind, for a state that satisfies the invariant. *)
Lemma reset_spec r s :
  Inv s ->
  let s' := reset r s in
  temperatureProperty s' == AMPLITUDE_MIN /\
  positionProperty s' = Vector2.zero /\
  distanceProperty s' == DISTANCE_INITIAL /\
  toEvaporate s' = toEvaporateSample s /\
  toEvaporateSample s' = toEvaporateSample s /\
  atomRowsToEvaporateProperty s' = length (toEvaporateSample s) /\
  minYPos s' = Some MIN_Y_POSITION /\
  contactProperty s' = false /\
  scheduledEvaporationAmount s' = scheduledEvaporationAmount s /\
  bottomOffsetProperty s' = 0.
Proof.
  intros I. unfold reset.
  (* temperatureProperty.reset() *)
  rewrite temperatureProperty_set_cool by (constants; lra).
  set (s1 := if Qeq_bool _ _ then s else _).
  assert (T1 : temperatureProperty s1 == AMPLITUDE_MIN).
  { subst s1. number_cases; fields; [now symmetry | reflexivity]. }
  assert (F1 : s1 = s \/ s1 = with_temperature AMPLITUDE_MIN s).
  { subst s1. destruct (Qeq_bool _ _); auto. }
  assert (I1 : Inv s1).
  { destruct F1 as [-> | ->]; [assumption|].
    destruct I. split; fields; auto; constants; lra. }
  assert (S1 : scheduledEvaporationAmount s1 = scheduledEvaporationAmount s
               /\ toEvaporateSample s1 = toEvaporateSample s)
    by (destruct F1 as [-> | ->]; split; reflexivity).
  clearbody s1. clear F1 I.
  (* positionProperty.reset(): the books are apart, nothing heats *)
  unfold positionProperty_set, positionListener.
  set (s0 := with_position Vector2.zero s1).
  set (d := distanceProperty s0 - _).
  assert (C0 : consistent s0) by apply I1.
  assert (Hd : DISTANCE_INITIAL <= d).
  { subst d s0. fields. destruct I1. lra. }
  rewrite (distanceProperty_set_contact d s0 C0), (floor_gap d Hd).
  destruct (distanceProperty_set_frame d s0)
    as (A1 & A2 & A3 & A4 & A5 & A6 & A7 & A8).
  cbn zeta in *. set (s2 := distanceProperty_set d s0) in *.
  (* distanceProperty.reset() *)
  destruct (distanceProperty_set_frame DISTANCE_INITIAL s2)
    as (B1 & B2 & B3 & B4 & B5 & B6 & B7 & B8).
  pose proof (distanceProperty_set_distance DISTANCE_INITIAL s2) as Bd.
  cbn zeta in *. set (s3 := distanceProperty_set DISTANCE_INITIAL s2) in *.
  (* the remaining properties and init() *)
  set (s4 := with_newStep false _).
  assert (R : (length (toEvaporate s4) <= length (toEvaporateSample s4))%nat).
  { subst s4. fields. rewrite B3, A3, B2, A2. subst s0. fields. apply I1. }
  destruct (init_spec s4 R) as (N1 & N2 & N3 & N4 & N5 & N6 & N7 & N8 & N9 & N10).
  cbn zeta in *.
  rewrite N1, N2, N3, N4, N5, N6, N7, N8, N9, N10.
  subst s4. fields. rewrite B2, A2, B4, A4, B5, A5, B1, A1, Bd.
  subst s0. fields. destruct S1 as [-> ->].
  repeat split; auto.
Qed.

Lemma Inv_reset r s : Inv s -> Inv (reset r s).
Proof.
  intros I.
  destruct (reset_spec r s I) as (T & P & D & Q1 & Q2 & N & M & C & S & B).
  cbn zeta in *. destruct I.
  split; rewrite ?T, ?P, ?D, ?Q1, ?Q2, ?S; fields; constants;
    auto; try lra; try lia.
  - unfold counted. congruence.
  - unfold consistent. rewrite C, (Qfloor_eq _ _ D). reflexivity.
Qed.

Lemma Inv_initial : Inv initial.
Proof.
  split; try reflexivity; try (vm_compute; discriminate).
Qed.

Lemma Inv_apply s o :
  Inv s -> (forall dt r, o = Step dt r -> 0 <= dt) -> Inv (apply s o).
Proof.
  intros I H. destruct o; cbn [apply].
  - apply Inv_step; eauto.
  - now apply Inv_move.
  - now apply Inv_evaporate.
  - now apply Inv_reset.
  - now apply Inv_dragEnd.
Qed.

Lemma reachable_Inv s : reachable s -> Inv s.
Proof.
  induction 1 as [|s o _ IH V].
  - apply Inv_initial.
  - apply Inv_apply; [assumption|].
    intros dt r ->. apply V.
Qed.

(** ** Example runs *)

Lemma random_0 : random 0.
Proof. split; [apply Qle_refl | reflexivity]. Qed.

Lemma reachable_run s ops :
  reachable s -> Forall valid ops -> reachable (run s ops).
Proof.
  intros R V. revert s R. induction V as [|o ops Vo _ IH]; intros s R.
  - exact R.
  - cbn. apply IH. now apply reachable_apply.
Qed.

Lemma valid_rub_twice : Forall valid rub_twice.
Proof. repeat constructor; apply random_0. Qed.

Lemma reachable_pressed : reachable pressed.
Proof.
  unfold pressed. apply reachable_run; [apply reachable_initial|].
  repeat constructor; apply random_0.
Qed.

Lemma reachable_rubbed_twice : reachable rubbed_twice.
Proof.
  unfold rubbed_twice. apply reachable_run;
    [apply reachable_initial | apply valid_rub_twice].
Qed.

(** ** Cooling: [step] *)

(** C1.  For a step with [0 <= dt <= 0.5], the new temperature is the old
    temperature less the scheduled evaporation cooling, multiplied by
    [1 - dt * COOLING_RATE] and clamped below at [AMPLITUDE_MIN]; the
    scheduled amount is cleared. *)
Theorem step_cools s dt r :
  0 <= dt -> dt <= 5 # 10 ->
  temperatureProperty (step dt r s) ==
    Qmax AMPLITUDE_MIN
      ((temperatureProperty s - scheduledEvaporationAmount s)
       * (1 - dt * COOLING_RATE)) /\
  AMPLITUDE_MIN <= temperatureProperty (step dt r s) /\
  scheduledEvaporationAmount (step dt r s) = 0.
Proof.
  intros _ H. unfold step.
  apply Qlt_bool_false in H as ->. fields.
  rewrite temperatureProperty_set_temperature.
  split; [reflexivity | split; [apply Q.le_max_l | reflexivity]].
Qed.

Lemma step_cools_witness :
  0 <= 1 # 10 /\ 1 # 10 <= 5 # 10 /\
  temperatureProperty (step (1 # 10) 0 rubbed_twice) ==
    Qmax AMPLITUDE_MIN
      ((temperatureProperty rubbed_twice - scheduledEvaporationAmount rubbed_twice)
       * (1 - (1 # 10) * COOLING_RATE)) /\
  AMPLITUDE_MIN <= temperatureProperty (step (1 # 10) 0 rubbed_twice) /\
  scheduledEvaporationAmount (step (1 # 10) 0 rubbed_twice) = 0.
Proof.
  split; [lra | split; [lra | apply (step_cools rubbed_twice (1 # 10) 0); lra]].
Defined.

(** The run above cools from 11.5 to 11.2504: two atoms evaporated while
    rubbing. *)
Example cooling_example :
  temperatureProperty rubbed_twice == 115 # 10 /\
  scheduledEvaporationAmount rubbed_twice == 2 # 100 /\
  temperatureProperty (step (1 # 10) 0 rubbed_twice) == 112504 # 10000.
Proof. split; [|split]; vm_compute; reflexivity. Qed.

(** C2.  A step with [dt > 0.5] changes nothing: the state after the call is
    the state before it, and in particular the temperature, the position and
    the distance are. *)
Theorem step_stale s dt r :
  5 # 10 < dt ->
  step dt r s = s /\
  temperatureProperty (step dt r s) = temperatureProperty s /\
  positionProperty (step dt r s) = positionProperty s /\
  distanceProperty (step dt r s) = distanceProperty s.
Proof.
  intros H. unfold step. apply Qlt_bool_iff in H as ->. repeat split.
Qed.

Lemma step_stale_witness :
  5 # 10 < 1 /\
  step 1 0 rubbed_twice = rubbed_twice /\
  temperatureProperty (step 1 0 rubbed_twice) = temperatureProperty rubbed_twice /\
  positionProperty (step 1 0 rubbed_twice) = positionProperty rubbed_twice /\
  distanceProperty (step 1 0 rubbed_twice) = distanceProperty rubbed_twice.
Proof.
  split; [reflexivity | apply (step_stale rubbed_twice 1 0); reflexivity].
Defined.

(** ** Heating: [move] *)

(** Limiting the motion touches the hint and the bottom offset only. *)
Lemma limitMotion_frame v s :
  let s' := snd (limitMotion v s) in
  temperatureProperty s' = temperatureProperty s /\
  contactProperty s' = contactProperty s /\
  distanceProperty s' = distanceProperty s /\
  positionProperty s' = positionProperty s /\
  toEvaporate s' = toEvaporate s /\
  atomRowsToEvaporateProperty s' = atomRowsToEvaporateProperty s.
Proof.
  unfold limitMotion.
  repeat match goal with
         | |- context [if ?b then _ else _] => destruct b
         end; cbn [fst snd]; fields; repeat split.
Qed.

(** Setting the position stores it and leaves the bottom offset alone. *)
Lemma positionProperty_set_position p r s :
  positionProperty (positionProperty_set p r s) = p /\
  bottomOffsetProperty (positionProperty_set p r s) = bottomOffsetProperty s.
Proof.
  unfold positionProperty_set.
  destruct (positionListener_evolve p (positionProperty s) r (with_position p s))
    as [B _ _ P _ _ _ _ _].
  destruct (distanceProperty_set_frame
              (moved p (positionProperty s) (with_position p s)) (with_position p s))
    as (_ & _ & _ & _ & F5 & F6 & _).
  cbn zeta in *. rewrite B, P, F5, F6. split; reflexivity.
Qed.





(** The move of the example heats the books from 5.5 to 8.5. *)
Example move_heats_example :
  temperatureProperty pressed == 55 # 10 /\
  temperatureProperty (move (Vector2.mk (-400) 3) 0 pressed) == 85 # 10.
Proof. split; vm_compute; reflexivity. Qed.


(** It also fails where the move itself lifts the book out of contact: the
    listener looks at the contact flag after it has updated the distance. *)
Lemma move_lifting_does_not_heat :
  contactProperty pressed = true /\
  ~ Vector2.x (Vector2.mk (-5) (-10)) == 0 /\
  contactProperty (move (Vector2.mk (-5) (-10)) 0 pressed) = false /\
  temperatureProperty (move (Vector2.mk (-5) (-10)) 0 pressed)
    == temperatureProperty pressed.
Proof.
  split; [vm_compute; reflexivity|].
  split; [vm_compute; discriminate|].
  split; vm_compute; reflexivity.
Qed.

(** The literals of the binary64 model are the doubles of the source:
    [0.1] is [0x1.999999999999ap-4], [0.0075] is [0x1.eb851eb851eb8p-8] and
    [444.4] is [0x1.bc66666666666p+8]. *)
Example double_literals :
  Double.decimal 1 1 = S754_finite false 7205759403792794 (-56) /\
  Double.HEATING_MULTIPLIER = S754_finite false 8646911284551352 (-60) /\
  Double.decimal 4444 1 = S754_finite false 7817967478138470 (-44).
Proof. vm_compute. repeat split. Qed.

(** In binary64 a displacement that is not zero can still leave the
    temperature where it is.  After the run [Double.rubbed_and_cooled] the
    book is at [x = 599.9999999999999] in contact, at [T = 10.791]; a move
    by 5 is limited to [1.1368683772161603e-13], and
    [T + dx * HEATING_MULTIPLIER] rounds to [T]: nothing is stored, and
    nothing evaporates. *)
Lemma heating_lost_to_rounding :
  let s := Double.run Double.initial Double.rubbed_and_cooled in
  let s' := Double.apply s (Double.drag 50 0) in
  Double.contactProperty s = true /\
  Double.contactProperty s' = true /\
  Double.ltb (Double.temperatureProperty s) Double.AMPLITUDE_MAX = true /\
  Double.ltb (Double.ofZ 0)
    (Double.abs (Double.sub (Double.Vector2.x (Double.positionProperty s'))
                            (Double.Vector2.x (Double.positionProperty s)))) = true /\
  Double.eqb (Double.temperatureProperty s') (Double.temperatureProperty s) = true /\
  Double.toEvaporate s' = Double.toEvaporate s.
Proof. vm_compute. repeat split. Qed.

(** ** Invariants along runs *)

(** C4.  After initialisation and after every sequence of step, move,
    evaporate and reset operations (and drag ends), with elapsed times
    [dt >= 0], the temperature lies in [[AMPLITUDE_MIN, AMPLITUDE_MAX]]. *)
Theorem temperature_bounded ops :
  Forall valid ops ->
  AMPLITUDE_MIN <= temperatureProperty (run initial ops) /\
  temperatureProperty (run initial ops) <= AMPLITUDE_MAX.
Proof.
  intros V.
  pose proof (reachable_Inv _ (reachable_run _ _ reachable_initial V)) as I.
  split; apply I.
Qed.

Lemma temperature_bounded_witness :
  Forall valid rub_twice /\
  AMPLITUDE_MIN <= temperatureProperty (run initial rub_twice) /\
  temperatureProperty (run initial rub_twice) <= AMPLITUDE_MAX.
Proof.
  split; [apply valid_rub_twice | apply (temperature_bounded rub_twice)].
  apply valid_rub_twice.
Defined.

(** C8.  The horizontal limit of [move] does not keep [position.x] within
    [[-600, 600]].  A move that would cross the limit is cut to
    [MAX_X_DISPLACEMENT - position.x] and added to [position.x], and in
    binary64 that sum is not always the limit: after a move by -444.4 and a
    move by 2000 from the initial state, [position.x] is
    [600 + 2 ^ -43 = 600.0000000000001].  The distance is not negative at
    either call, and the vertical position is not touched. *)
Theorem move_overshoots_limit :
  let s := Double.run Double.initial Double.to_the_right in
  Double.ltb Double.MAX_X_DISPLACEMENT
    (Double.Vector2.x (Double.positionProperty s)) = true /\
  Double.Vector2.x (Double.positionProperty s)
  = S754_finite false (600 * 2 ^ 43 + 1) (-43) /\
  Double.MAX_X_DISPLACEMENT = S754_finite false (600 * 2 ^ 43) (-43) /\
  Double.leb (Double.ofZ 0) (Double.distanceProperty Double.initial) = true /\
  Double.leb (Double.ofZ 0)
    (Double.distanceProperty
       (Double.apply Double.initial (Double.drag (-4444) 0))) = true /\
  Double.Vector2.y (Double.positionProperty s) = Double.ofZ 0.
Proof. vm_compute. repeat split. Qed.

Lemma Inv_steps l s :
  Forall (fun p => 0 <= fst p) l -> Inv s -> Inv (run s (steps l)).
Proof.
  intros H. revert s. induction H as [|p l Hp _ IH]; intros s I; cbn.
  - exact I.
  - apply IH. now apply Inv_step.
Qed.

Lemma step_not_warmer dt r s :
  Inv s -> 0 <= dt -> temperatureProperty (step dt r s) <= temperatureProperty s.
Proof.
  intros I Hdt. unfold step. number_cases; [apply Qle_refl|]. fields.
  rewrite temperatureProperty_set_temperature.
  apply cooling_bounds; auto; apply I.
Qed.

Lemma steps_not_warmer l s :
  Forall (fun p => 0 <= fst p) l -> Inv s ->
  temperatureProperty (run s (steps l)) <= temperatureProperty s.
Proof.
  intros H. revert s. induction H as [|p l Hp _ IH]; intros s I; cbn.
  - apply Qle_refl.
  - eapply Qle_trans; [apply IH; now apply Inv_step|].
    now apply step_not_warmer.
Qed.

(** C9.  Along any sequence of steps (elapsed times [dt >= 0]) from a
    reachable state, with no move in between, the temperature does not
    increase: each step leaves it at or below its value before the step,
    and so the whole sequence leaves it at or below the value it started
    from. *)
Theorem cooling_monotone s (l : list (Q * Q)) dt r :
  reachable s ->
  Forall (fun p => 0 <= fst p) l ->
  0 <= dt ->
  temperatureProperty (step dt r (run s (steps l)))
    <= temperatureProperty (run s (steps l)) /\
  temperatureProperty (run s (steps l)) <= temperatureProperty s.
Proof.
  intros R H Hdt. apply reachable_Inv in R. split.
  - apply step_not_warmer; [now apply Inv_steps | assumption].
  - now apply steps_not_warmer.
Qed.

Lemma cooling_monotone_witness :
  reachable rubbed_twice /\
  Forall (fun p => 0 <= fst p) [(1 # 10, 0); (5 # 10, 0)] /\
  0 <= 2 # 10 /\
  temperatureProperty
      (step (2 # 10) 0 (run rubbed_twice (steps [(1 # 10, 0); (5 # 10, 0)])))
    <= temperatureProperty (run rubbed_twice (steps [(1 # 10, 0); (5 # 10, 0)])) /\
  temperatureProperty (run rubbed_twice (steps [(1 # 10, 0); (5 # 10, 0)]))
    <= temperatureProperty rubbed_twice.
Proof.
  assert (H : Forall (fun p : Q * Q => 0 <= fst p) [(1 # 10, 0); (5 # 10, 0)])
    by (repeat constructor; cbn; discriminate).
  assert (H0 : 0 <= 2 # 10) by discriminate.
  split; [apply reachable_rubbed_twice|].
  split; [exact H|].
  split; [exact H0|].
  exact (cooling_monotone rubbed_twice [(1 # 10, 0); (5 # 10, 0)] (2 # 10) 0
           reachable_rubbed_twice H H0).
Defined.

(** ** Evaporation *)









(** The second half of [evaporate] leaves the number of rows, the published
    count, the distance and the contact flag alone. *)
Lemma evaporate_atom_frame r s :
  let s' := evaporate_atom r s in
  length (toEvaporate s') = length (toEvaporate s) /\
  atomRowsToEvaporateProperty s' = atomRowsToEvaporateProperty s /\
  distanceProperty s' = distanceProperty s /\
  contactProperty s' = contactProperty s.
Proof.
  unfold evaporate_atom, splice1.
  destruct (last (toEvaporate s)) as [row|]; [|repeat split].
  match goal with |- context [row !! ?i] => destruct (row !! i) end;
    fields; rewrite length_insert; repeat split.
Qed.

(** Operations other than [reset] do not add rows, and keep the published
    count equal to the length of the queue. *)
Lemma rows_evolve s s' :
  evolve s s' ->
  (length (toEvaporate s') <= length (toEvaporate s))%nat /\
  (counted s -> counted s').
Proof. intros []. split; assumption. Qed.

Lemma rows_apply s o :
  is_reset o = false ->
  (length (toEvaporate (apply s o)) <= length (toEvaporate s))%nat /\
  (counted s -> counted (apply s o)).
Proof.
  intros H. destruct o as [dt r|v r|r|r|]; try discriminate; cbn [apply].
  - unfold step. destruct (Qlt_bool _ _); [split; [lia | auto]|].
    cbn zeta.
    destruct (rows_evolve _ _
                (temperatureProperty_set_evolve
                   (Qmax AMPLITUDE_MIN
                      ((temperatureProperty (with_newStep (negb (newStepProperty s)) s)
                        - scheduledEvaporationAmount
                            (with_newStep (negb (newStepProperty s)) s))
                       * (1 - dt * COOLING_RATE)))
                   r (with_newStep (negb (newStepProperty s)) s))) as [L C].
    split; [exact L | exact C].
  - rewrite move_unfold. unfold positionProperty_set.
    destruct (limitMotion_frame v s) as (_ & _ & _ & _ & F1 & F2).
    cbn zeta in *.
    set (s0 := snd (limitMotion v s)) in *.
    set (p := Vector2.plus (positionProperty s0) (fst (limitMotion v s))).
    set (s1 := with_position p s0).
    destruct (rows_evolve _ _ (positionListener_evolve p (positionProperty s0) r s1))
      as [L C].
    destruct (distanceProperty_set_frame (moved p (positionProperty s0) s1) s1)
      as (_ & _ & G1 & _ & _ & _ & G2 & _).
    cbn zeta in *. unfold counted in *. rewrite G1, G2 in *.
    subst s1. fields. rewrite F1, F2 in *. split; assumption.
  - apply rows_evolve, evaporate_evolve.
  - split; [cbn; lia | auto].
Qed.

Lemma rows_run ops s :
  no_reset ops = true ->
  (length (toEvaporate (run s ops)) <= length (toEvaporate s))%nat /\
  (counted s -> counted (run s ops)).
Proof.
  revert s. induction ops as [|o ops IH]; intros s H.
  - split; [cbn; lia | auto].
  - change (run s (o :: ops)) with (run (apply s o) ops).
    change (no_reset (o :: ops))
      with (negb (is_reset o) && no_reset ops) in H.
    apply andb_true_iff in H as [Ho H]. apply negb_true_iff in Ho.
    destruct (rows_apply s o Ho) as [L C].
    destruct (IH (apply s o) H) as [L' C'].
    split; [lia | auto].
Qed.

(** C6.  When [evaporate] finds the last row of the queue empty, it pops
    that row, the distance grows by [DISTANCE_Y = 20] and the published
    number of rows becomes the new length of the queue.  Along any sequence
    of operations without [reset], the queue never gets longer, and from a
    reachable state the published number of rows never increases. *)
Theorem empty_row_is_popped s r rows ops :
  (toEvaporate s = rows ++ [[]] ->
   toEvaporate (evaporate_advance s) = rows /\
   length (toEvaporate (evaporate r s)) = length rows /\
   distanceProperty (evaporate r s) = distanceProperty s + DISTANCE_Y /\
   atomRowsToEvaporateProperty (evaporate r s)
     = length (toEvaporate (evaporate r s))) /\
  (no_reset ops = true ->
   (length (toEvaporate (run s ops)) <= length (toEvaporate s))%nat /\
   (reachable s ->
    (atomRowsToEvaporateProperty (run s ops)
     <= atomRowsToEvaporateProperty s)%nat)).
Proof.
  split.
  - intros E.
    assert (A : evaporate_advance s =
                with_atomRows (length rows)
                  (with_contact (Qfloor (distanceProperty s + DISTANCE_Y) <=? 0)%Z
                     (with_distance (distanceProperty s + DISTANCE_Y)
                        (with_toEvaporate rows s)))).
    { unfold evaporate_advance. rewrite E, last_snoc, removelast_last.
      unfold distanceProperty_set. fields.
      destruct (Qeq_bool _ _) eqn:Q; [|reflexivity].
      apply Qeq_bool_iff in Q. constants. exfalso. lra. }
    unfold evaporate.
    destruct (evaporate_atom_frame r (evaporate_advance s)) as (F1 & F2 & F3 & _).
    cbn zeta in *. rewrite F1, F2, F3, A. fields. repeat split.
  - intros H. destruct (rows_run ops s H) as [L C]. split; [exact L|].
    intros R. apply reachable_Inv in R. destruct R.
    specialize (C inv_counted0). unfold counted in *. lia.
Qed.

Lemma reachable_emptied : reachable emptied.
Proof.
  unfold emptied. apply reachable_run; [apply reachable_initial|].
  repeat constructor; apply random_0.
Qed.

Lemma empty_row_is_popped_witness :
  (toEvaporate emptied = [seq 30 29; seq 59 29; seq 88 24] ++ [[]] /\
   no_reset [Evaporate 0; Step (1 # 10) 0] = true /\
   reachable emptied) /\
  distanceProperty (evaporate 0 emptied) = distanceProperty emptied + DISTANCE_Y /\
  atomRowsToEvaporateProperty (evaporate 0 emptied)
    = length (toEvaporate (evaporate 0 emptied)) /\
  (atomRowsToEvaporateProperty (run emptied [Evaporate 0; Step (1 # 10) 0])
   <= atomRowsToEvaporateProperty emptied)%nat.
Proof.
  assert (H1 : toEvaporate emptied = [seq 30 29; seq 59 29; seq 88 24] ++ [[]])
    by (vm_compute; reflexivity).
  assert (H2 : no_reset [Evaporate 0; Step (1 # 10) 0] = true) by reflexivity.
  destruct (empty_row_is_popped emptied 0 [seq 30 29; seq 59 29; seq 88 24]
              [Evaporate 0; Step (1 # 10) 0]) as [A B].
  destruct (A H1) as (_ & _ & A1 & A2).
  destruct (B H2) as [_ B1].
  split; [exact (conj H1 (conj H2 reachable_emptied))|].
  split; [exact A1 | split; [exact A2 | exact (B1 reachable_emptied)]].
Defined.

(** ** Reset *)

(** C7.  From every reachable state, [reset] restores the temperature to
    [AMPLITUDE_MIN], the position to [(0, 0)] and the distance to
    [DISTANCE_INITIAL], and rebuilds the evaporation queue from the sample:
    the queue is the sample again, the sample is the one the view built from
    the static layout, and its rows hold 29, 29, 24 and 9 atoms. *)
Theorem reset_restores s r :
  reachable s ->
  let s' := reset r s in
  temperatureProperty s' == AMPLITUDE_MIN /\
  positionProperty s' = Vector2.zero /\
  distanceProperty s' == DISTANCE_INITIAL /\
  toEvaporate s' = toEvaporateSample s' /\
  toEvaporateSample s' = toEvaporateSample initial /\
  length (toEvaporate s') = length (toEvaporateSample initial) /\
  map length (toEvaporate s') = map length (toEvaporateSample initial) /\
  map length (toEvaporate s') = [29; 29; 24; 9]%nat /\
  atomRowsToEvaporateProperty s' = 4%nat.
Proof.
  intros R. apply reachable_Inv in R.
  destruct (reset_spec r s R) as (T & P & D & Q1 & Q2 & N & _).
  cbn zeta in *. destruct R.
  rewrite Q1, Q2, N, inv_sample0.
  repeat split; assumption.
Qed.

Lemma reset_restores_witness :
  reachable rubbed_twice /\
  temperatureProperty (reset 0 rubbed_twice) == AMPLITUDE_MIN /\
  positionProperty (reset 0 rubbed_twice) = Vector2.zero /\
  distanceProperty (reset 0 rubbed_twice) == DISTANCE_INITIAL /\
  map length (toEvaporate (reset 0 rubbed_twice)) = [29; 29; 24; 9]%nat.
Proof.
  destruct (reset_restores rubbed_twice 0 reachable_rubbed_twice)
    as (A & B & C & _ & _ & _ & _ & D & _).
  split; [apply reachable_rubbed_twice|].
  split; [exact A | split; [exact B | split; [exact C | exact D]]].
Defined.

(** The sample is what [addLayer] makes of the static layout: one row per
    layer of the top book whose last group evaporates. *)
Example sample_rows :
  map length (toEvaporateSample initial) = [29; 29; 24; 9]%nat /\
  concat (toEvaporateSample initial) = seq 30 91.
Proof. split; vm_compute; reflexivity. Qed.

(** ** The bottom offset *)

(** With a positive bottom offset, an upward motion is taken off the offset
    and its vertical part dropped, provided the distance is not negative and
    the book is not below its minimum height. *)
Lemma limitMotion_lift v s :
  0 < bottomOffsetProperty s ->
  Vector2.y v < 0 ->
  0 <= distanceProperty s ->
  belowMinY (Vector2.y (positionProperty s)) s = false ->
  Vector2.y (fst (limitMotion v s)) = 0 /\
  bottomOffsetProperty (snd (limitMotion v s))
    = bottomOffsetProperty s + Vector2.y v.
Proof.
  intros Hb Hv Hd Hm.
  unfold limitMotion, belowMinY in *. fields.
  apply Qlt_bool_iff in Hb as ->. apply Qlt_bool_iff in Hv as ->.
  cbn [andb]. fields.
  assert (D : Qlt_bool (distanceProperty s) 0 = false)
    by now apply Qlt_bool_false.
  rewrite D.
  destruct (minYPos s) as [m|].
  - apply Qlt_bool_false in Hm.
    assert (M : Qlt_bool (Vector2.y (positionProperty s) + 0) m = false)
      by (apply Qlt_bool_false; lra).
    rewrite M. number_cases; cbn [fst snd]; fields; split; reflexivity.
  - number_cases; cbn [fst snd]; fields; split; reflexivity.
Qed.

(** C10, as amended.  In a state with a positive bottom offset whose
    distance is not negative and whose book is not below its minimum height,
    a move with [v.y < 0] leaves [position.y] as it is, however large
    [|v.y|] is, and lowers the bottom offset by the whole of [|v.y|]; the
    offset is negative afterwards when [|v.y|] exceeds it. *)
Theorem bottom_offset_absorbs_lift s v r :
  0 < bottomOffsetProperty s ->
  Vector2.y v < 0 ->
  0 <= distanceProperty s ->
  belowMinY (Vector2.y (positionProperty s)) s = false ->
  let s' := move v r s in
  Vector2.y (positionProperty s') == Vector2.y (positionProperty s) /\
  bottomOffsetProperty s' = bottomOffsetProperty s + Vector2.y v /\
  (bottomOffsetProperty s < - Vector2.y v -> bottomOffsetProperty s' < 0).
Proof.
  intros Hb Hv Hd Hm. cbn zeta.
  destruct (limitMotion_lift v s Hb Hv Hd Hm) as [Hy Ho].
  destruct (limitMotion_frame v s) as (_ & _ & _ & HP & _). cbn zeta in HP.
  rewrite move_unfold.
  destruct (positionProperty_set_position
              (Vector2.plus (positionProperty (snd (limitMotion v s)))
                 (fst (limitMotion v s)))
              r (snd (limitMotion v s))) as [-> ->].
  rewrite Ho, HP. fields. rewrite Hy.
  split; [ring | split; [reflexivity | intros; lra]].
Qed.

Lemma bottom_offset_absorbs_lift_witness :
  (0 < bottomOffsetProperty rubbed /\
   Vector2.y (Vector2.mk (-400) (-5)) < 0 /\
   0 <= distanceProperty rubbed /\
   belowMinY (Vector2.y (positionProperty rubbed)) rubbed = false) /\
  Vector2.y (positionProperty (move (Vector2.mk (-400) (-5)) 0 rubbed))
    == Vector2.y (positionProperty rubbed) /\
  bottomOffsetProperty (move (Vector2.mk (-400) (-5)) 0 rubbed)
    = bottomOffsetProperty rubbed + Vector2.y (Vector2.mk (-400) (-5)) /\
  bottomOffsetProperty (move (Vector2.mk (-400) (-5)) 0 rubbed) < 0.
Proof.
  assert (H1 : 0 < bottomOffsetProperty rubbed) by (vm_compute; reflexivity).
  assert (H2 : Vector2.y (Vector2.mk (-400) (-5)) < 0) by reflexivity.
  assert (H3 : 0 <= distanceProperty rubbed) by (vm_compute; discriminate).
  assert (H4 : belowMinY (Vector2.y (positionProperty rubbed)) rubbed = false)
    by (vm_compute; reflexivity).
  assert (H5 : bottomOffsetProperty rubbed < - Vector2.y (Vector2.mk (-400) (-5)))
    by (vm_compute; reflexivity).
  destruct (bottom_offset_absorbs_lift rubbed (Vector2.mk (-400) (-5)) 0
              H1 H2 H3 H4) as (A & B & C).
  split; [exact (conj H1 (conj H2 (conj H3 H4)))|].
  split; [exact A | split; [exact B | exact (C H5)]].
Defined.

(** The offset of the example: 3 before the move, -2 after it. *)
Example bottom_offset_negative :
  bottomOffsetProperty rubbed == 3 /\
  bottomOffsetProperty (move (Vector2.mk (-400) (-5)) 0 rubbed) == - (2).
Proof. split; vm_compute; reflexivity. Qed.

(** The claim as stated, for every state with a positive offset, fails in
    binary64 where rounding has left a negative distance.  After the run
    [Double.pushed_down] the book rests on the other one with an offset of
    13.3 and a distance of [- 2 ^ -48]; a move by [v.y = -0.1] takes 0.1 off
    the offset and sets [v.y] to 0, which is then above the distance: the
    vertical limit of [move] sets [v.y] to the distance, and the book moves
    up from 25 to [24.999999999999996], while the offset gets the
    difference back. *)
Lemma lift_moves_book_below_zero_distance :
  let s := Double.run Double.initial Double.pushed_down in
  let s' := Double.apply s (Double.drag 0 (-1)) in
  Double.ltb (Double.ofZ 0) (Double.bottomOffsetProperty s) = true /\
  Double.ltb (Double.decimal (-1) 1) (Double.ofZ 0) = true /\
  Double.ltb (Double.distanceProperty s) (Double.ofZ 0) = true /\
  Double.Vector2.y (Double.positionProperty s) = Double.ofZ 25 /\
  Double.ltb (Double.Vector2.y (Double.positionProperty s'))
             (Double.Vector2.y (Double.positionProperty s)) = true /\
  Double.eqb (Double.bottomOffsetProperty s')
             (Double.add (Double.bottomOffsetProperty s) (Double.decimal (-1) 1))
  = false.
Proof. vm_compute. repeat split. Qed.

(** The exception announced at [positionProperty_set]: when the property
    still holds its initial vector and the temperature is within its range,
    running the listener on a reset to that vector changes nothing, so it
    makes no difference that the source skips the notification there. *)
Lemma positionProperty_set_untouched r s :
  positionProperty s = Vector2.zero ->
  temperatureProperty s <= AMPLITUDE_MAX ->
  positionProperty_set Vector2.zero r s = s.
Proof.
  intros P T. unfold positionProperty_set, positionListener, moved.
  assert (E : with_position Vector2.zero s = s)
    by (rewrite <- P; now destruct s).
  rewrite E, P. fields.
  assert (D : distanceProperty_set (distanceProperty s - (0 - 0)) s = s).
  { unfold distanceProperty_set.
    destruct (Qeq_bool _ _) eqn:Q; [reflexivity|].
    apply Qeq_bool_neq in Q. exfalso. apply Q. ring. }
  rewrite D. destruct (contactProperty s); [|reflexivity].
  unfold temperatureProperty_set.
  destruct (Qeq_bool _ _) eqn:Q; [reflexivity|].
  apply Qeq_bool_neq in Q. exfalso. apply Q.
  rewrite Q.min_l; [change (Qabs (0 - 0)) with 0; ring|].
  change (Qabs (0 - 0)) with 0. constants. lra.
Qed.

(** * Further properties of the model *)

(** ** Contact *)

Lemma floor_nonpositive d : (Qfloor d <= 0)%Z <-> d < 1.
Proof.
  split; intros H.
  - eapply Qlt_le_trans; [apply Qlt_floor|].
    change 1 with (inject_Z 1). rewrite <- Zle_Qle. lia.
  - assert (L : inject_Z (Qfloor d) < inject_Z 1)
      by (eapply Qle_lt_trans; [apply Qfloor_le | exact H]).
    rewrite <- Zlt_Qlt in L. lia.
Qed.

(** X3.  In every reachable state the contact flag is the derived signal it
    is meant to be: it is set exactly when [Math.floor( distance ) <= 0],
    that is when the distance is below 1, whichever of move, step,
    evaporation or reset changed the distance last. *)
Theorem contact_follows_distance s :
  reachable s ->
  contactProperty s = (Qfloor (distanceProperty s) <=? 0)%Z /\
  (contactProperty s = true <-> distanceProperty s < 1).
Proof.
  intros R. pose proof (inv_consistent s (reachable_Inv s R)) as C.
  unfold consistent in C. split; [exact C|].
  rewrite C, Z.leb_le. apply floor_nonpositive.
Qed.

Lemma contact_follows_distance_witness :
  reachable pressed /\
  (contactProperty pressed = true <-> distanceProperty pressed < 1).
Proof.
  split; [apply reachable_pressed|].
  exact (proj2 (contact_follows_distance pressed reachable_pressed)).
Defined.

(** ** Where a move puts the book *)

(** Inside the horizontal limits the motion vector keeps its [x]. *)
Lemma limitMotion_x v s :
  - MAX_X_DISPLACEMENT <= Vector2.x (positionProperty s) + Vector2.x v ->
  Vector2.x (positionProperty s) + Vector2.x v <= MAX_X_DISPLACEMENT ->
  Vector2.x (fst (limitMotion v s)) = Vector2.x v.
Proof.
  intros L U. apply Qlt_bool_false in L, U.
  unfold limitMotion.
  repeat match goal with
         | |- context [let '(_, _) := (if ?b then _ else _) in _] => destruct b
         end; fields; rewrite L, U; reflexivity.
Qed.

(** Inside the vertical limits, and when no positive bottom offset absorbs
    an upward motion, the motion vector keeps its [y] and the bottom offset
    its value. *)
Lemma limitMotion_y v s :
  bottomOffsetProperty s <= 0 \/ 0 <= Vector2.y v ->
  Vector2.y v <= distanceProperty s ->
  belowMinY (Vector2.y (positionProperty s) + Vector2.y v) s = false ->
  Vector2.y (fst (limitMotion v s)) = Vector2.y v /\
  bottomOffsetProperty (snd (limitMotion v s)) = bottomOffsetProperty s.
Proof.
  intros H D M. apply Qlt_bool_false in D.
  unfold limitMotion. fields.
  assert (B : Qlt_bool 0 (bottomOffsetProperty s) && Qlt_bool (Vector2.y v) 0 = false).
  { apply andb_false_iff. destruct H as [H|H]; [left|right];
      now apply Qlt_bool_false. }
  rewrite B. fields. rewrite D.
  assert (M' : belowMinY (Vector2.y (positionProperty s) + Vector2.y v)
                 (with_hint false s) = false) by exact M.
  rewrite M'.
  destruct (Qlt_bool MAX_X_DISPLACEMENT _); [split; reflexivity|].
  destruct (Qlt_bool _ (- MAX_X_DISPLACEMENT)); split; reflexivity.
Qed.

(** X4.  Inside its limits a move puts the book where the vector asks.  In
    any state, when [x + v.x] lies within [[-600, 600]], [position.x]
    becomes [x + v.x]; and when no positive bottom offset absorbs an upward
    motion, [v.y] does not exceed the distance and [y + v.y] is not below
    the minimum height, [position.y] becomes [y + v.y] and the bottom offset
    stays as it is.  The limits change a move only when it crosses them. *)
Theorem move_goes_where_asked s v r :
  (- MAX_X_DISPLACEMENT <= Vector2.x (positionProperty s) + Vector2.x v ->
   Vector2.x (positionProperty s) + Vector2.x v <= MAX_X_DISPLACEMENT ->
   Vector2.x (positionProperty (move v r s))
   = Vector2.x (positionProperty s) + Vector2.x v) /\
  (bottomOffsetProperty s <= 0 \/ 0 <= Vector2.y v ->
   Vector2.y v <= distanceProperty s ->
   belowMinY (Vector2.y (positionProperty s) + Vector2.y v) s = false ->
   Vector2.y (positionProperty (move v r s))
   = Vector2.y (positionProperty s) + Vector2.y v /\
   bottomOffsetProperty (move v r s) = bottomOffsetProperty s).
Proof.
  destruct (limitMotion_frame v s) as (_ & _ & _ & FP & _). cbn zeta in FP.
  rewrite move_unfold.
  destruct (positionProperty_set_position
              (Vector2.plus (positionProperty (snd (limitMotion v s)))
                 (fst (limitMotion v s)))
              r (snd (limitMotion v s))) as [-> ->].
  rewrite FP. fields. split.
  - intros L U. now rewrite (limitMotion_x v s L U).
  - intros H D M. destruct (limitMotion_y v s H D M) as [-> ->].
    split; reflexivity.
Qed.

Lemma move_goes_where_asked_witness :
  (- MAX_X_DISPLACEMENT <= Vector2.x (positionProperty pressed) + -400 /\
   Vector2.x (positionProperty pressed) + -400 <= MAX_X_DISPLACEMENT /\
   (bottomOffsetProperty pressed <= 0 \/ 0 <= - (1)) /\
   - (1) <= distanceProperty pressed /\
   belowMinY (Vector2.y (positionProperty pressed) + - (1)) pressed = false) /\
  Vector2.x (positionProperty (move (Vector2.mk (-400) (- (1))) 0 pressed))
  = Vector2.x (positionProperty pressed) + -400 /\
  Vector2.y (positionProperty (move (Vector2.mk (-400) (- (1))) 0 pressed))
  = Vector2.y (positionProperty pressed) + - (1).
Proof.
  assert (H1 : - MAX_X_DISPLACEMENT <= Vector2.x (positionProperty pressed) + -400)
    by (vm_compute; discriminate).
  assert (H2 : Vector2.x (positionProperty pressed) + -400 <= MAX_X_DISPLACEMENT)
    by (vm_compute; discriminate).
  assert (H3 : bottomOffsetProperty pressed <= 0 \/ 0 <= - (1))
    by (left; vm_compute; discriminate).
  assert (H4 : - (1) <= distanceProperty pressed) by (vm_compute; discriminate).
  assert (H5 : belowMinY (Vector2.y (positionProperty pressed) + - (1)) pressed
               = false) by (vm_compute; reflexivity).
  destruct (move_goes_where_asked pressed (Vector2.mk (-400) (- (1))) 0) as [A B].
  split; [exact (conj H1 (conj H2 (conj H3 (conj H4 H5))))|].
  split; [exact (A H1 H2) | exact (proj1 (B H3 H4 H5))].
Defined.

(** ** When nothing evaporates and nothing heats *)

(** A temperature that ends at or below the limit was stored without
    evaporation. *)
Lemma temperatureProperty_set_calm t r s :
  temperatureProperty (temperatureProperty_set t r s) <= AMPLITUDE_EVAPORATE ->
  temperatureProperty_set t r s = s \/
  temperatureProperty_set t r s = with_temperature t s.
Proof.
  unfold temperatureProperty_set.
  destruct (Qeq_bool _ _); [now left|]. cbn zeta.
  destruct (Qlt_bool AMPLITUDE_EVAPORATE t) eqn:L; [|now right].
  rewrite evaporate_temperature. fields. intros H.
  apply Qlt_bool_iff in L. exfalso. lra.
Qed.

Lemma positionListener_calm newPosition oldPosition r s :
  temperatureProperty (positionListener newPosition oldPosition r s)
    <= AMPLITUDE_EVAPORATE ->
  toEvaporate (positionListener newPosition oldPosition r s) = toEvaporate s /\
  isEvaporated (positionListener newPosition oldPosition r s) = isEvaporated s /\
  scheduledEvaporationAmount (positionListener newPosition oldPosition r s)
    = scheduledEvaporationAmount s.
Proof.
  unfold positionListener.
  set (s1 := distanceProperty_set _ s).
  assert (F : toEvaporate s1 = toEvaporate s /\ isEvaporated s1 = isEvaporated s
              /\ scheduledEvaporationAmount s1 = scheduledEvaporationAmount s).
  { subst s1. unfold distanceProperty_set.
    destruct (Qeq_bool _ _); repeat split. }
  destruct F as (F1 & F2 & F3).
  destruct (contactProperty s1); [|intros _; repeat split; assumption].
  intros H. destruct (temperatureProperty_set_calm _ _ _ H) as [-> | ->];
    fields; repeat split; assumption.
Qed.

(** X5.  Atoms evaporate only from a temperature above the limit: a step or
    a move after which the temperature is at most [AMPLITUDE_EVAPORATE = 7]
    has left the queue and the flags of the atoms as they were, and a move
    has scheduled no cooling. *)
Theorem no_evaporation_below_limit s dt v r :
  (temperatureProperty (step dt r s) <= AMPLITUDE_EVAPORATE ->
   toEvaporate (step dt r s) = toEvaporate s /\
   isEvaporated (step dt r s) = isEvaporated s /\
   distanceProperty (step dt r s) = distanceProperty s) /\
  (temperatureProperty (move v r s) <= AMPLITUDE_EVAPORATE ->
   toEvaporate (move v r s) = toEvaporate s /\
   isEvaporated (move v r s) = isEvaporated s /\
   scheduledEvaporationAmount (move v r s) = scheduledEvaporationAmount s).
Proof.
  split.
  - unfold step. destruct (Qlt_bool _ _); [intros _; repeat split|].
    cbn zeta. fields. intros H.
    destruct (temperatureProperty_set_calm _ _ _ H) as [-> | ->];
      fields; repeat split.
  - rewrite move_unfold. unfold positionProperty_set. intros H.
    destruct (positionListener_calm _ _ _ _ H) as (-> & -> & ->). fields.
    unfold limitMotion.
    repeat match goal with
           | |- context [if ?b then _ else _] => destruct b
           end; cbn [fst snd]; fields; repeat split.
Qed.

Lemma no_evaporation_below_limit_witness :
  temperatureProperty (move (Vector2.mk 700 25) 0 initial) <= AMPLITUDE_EVAPORATE /\
  toEvaporate (move (Vector2.mk 700 25) 0 initial) = toEvaporate initial /\
  scheduledEvaporationAmount (move (Vector2.mk 700 25) 0 initial)
    = scheduledEvaporationAmount initial.
Proof.
  assert (H : temperatureProperty (move (Vector2.mk 700 25) 0 initial)
              <= AMPLITUDE_EVAPORATE) by (vm_compute; discriminate).
  destruct (no_evaporation_below_limit initial 0 (Vector2.mk 700 25) 0) as [_ B].
  destruct (B H) as (B1 & _ & B3).
  split; [exact H | split; [exact B1 | exact B3]].
Defined.

(** ** Cooling over several steps *)

Lemma step_temperature dt r s :
  dt <= 5 # 10 ->
  temperatureProperty (step dt r s) ==
    Qmax AMPLITUDE_MIN
      ((temperatureProperty s - scheduledEvaporationAmount s) * coolingFactor dt) /\
  scheduledEvaporationAmount (step dt r s) = 0.
Proof.
  intros H. unfold step, coolingFactor.
  apply Qlt_bool_false in H as ->. fields.
  rewrite temperatureProperty_set_temperature. split; reflexivity.
Qed.

Lemma coolingFactor_range dt :
  0 <= dt -> dt <= 5 # 10 -> 0 <= coolingFactor dt /\ coolingFactor dt <= 1.
Proof. intros. unfold coolingFactor. constants. split; lra. Qed.

Lemma decay_range l : Forall timely l -> 0 <= decay l /\ decay l <= 1.
Proof.
  induction 1 as [|p l [H0 H1] _ [IH0 IH1]]; cbn [decay foldr].
  - split; discriminate.
  - fold (decay l). destruct (coolingFactor_range _ H0 H1) as [F0 F1].
    split.
    + now apply Qmult_le_0_compat.
    + assert (0 <= (1 - coolingFactor (fst p)) * decay l)
        by (apply Qmult_le_0_compat; lra).
      lra.
Qed.

(** Clamping at the minimum after each factor or once at the end is the
    same. *)
Lemma clamp_once a c :
  0 <= c -> c <= 1 ->
  Qmax AMPLITUDE_MIN (Qmax AMPLITUDE_MIN a * c) == Qmax AMPLITUDE_MIN (a * c).
Proof.
  intros H0 H1. constants.
  destruct (Q.max_spec 1 a) as [[L E] | [L E]].
  - apply Q.max_compat; [reflexivity|]. now rewrite E.
  - assert (0 <= (1 - a) * c) by (apply Qmult_le_0_compat; lra).
    rewrite (Q.max_l 1 (a * c)) by lra.
    apply Q.max_l. rewrite E. lra.
Qed.

Lemma steps_from_cleared l s :
  Forall timely l ->
  scheduledEvaporationAmount s == 0 ->
  AMPLITUDE_MIN <= temperatureProperty s ->
  temperatureProperty (run s (steps l))
  == Qmax AMPLITUDE_MIN (temperatureProperty s * decay l).
Proof.
  intros H. revert s. induction H as [|p l [H0 H1] Hl IH]; intros s Hs Ht.
  - cbn. rewrite Qmult_1_r. symmetry. now apply Q.max_r.
  - change (run s (steps (p :: l)))
      with (run (step (fst p) (snd p) s) (steps l)).
    destruct (step_temperature (fst p) (snd p) s H1) as [T1 S1].
    assert (T1' : temperatureProperty (step (fst p) (snd p) s)
                  == Qmax AMPLITUDE_MIN (temperatureProperty s * coolingFactor (fst p))).
    { rewrite T1. apply Q.max_compat; [reflexivity|]. rewrite Hs. ring. }
    rewrite IH.
    + cbn [decay foldr]. fold (decay l).
      destruct (decay_range l) as [D0 D1]; [assumption|].
      transitivity
        (Qmax AMPLITUDE_MIN
           (Qmax AMPLITUDE_MIN (temperatureProperty s * coolingFactor (fst p))
            * decay l)).
      { apply Q.max_compat; [reflexivity|]. rewrite T1'. reflexivity. }
      rewrite (clamp_once _ _ D0 D1).
      apply Q.max_compat; [reflexivity | ring].
    + rewrite S1. reflexivity.
    + rewrite T1'. apply Q.le_max_l.
Qed.

Lemma decay_replicate n dt r :
  decay (replicate n (dt, r)) == coolingFactor dt ^ Z.of_nat n.
Proof.
  induction n as [|n IH].
  - reflexivity.
  - cbn [replicate decay foldr fst]. fold (decay (replicate n (dt, r))).
    rewrite IH, Nat2Z.inj_succ, <- Z.add_1_l.
    rewrite Qpower_plus' by lia. rewrite Qpower_1_r. reflexivity.
Qed.

(** X7.  Steps compose into a geometric decay: after one or more steps of
    at most 0.5 seconds each, the temperature is the temperature before the
    first step, less the cooling scheduled then, times the product of the
    factors [1 - dt * COOLING_RATE] of the steps, clamped below at
    [AMPLITUDE_MIN]; for [n + 1] equal steps the product is the power
    [(1 - dt * COOLING_RATE) ^ (n + 1)].  The clamp and the evaporations that
    the steps trigger do not disturb the product. *)
Theorem cooling_is_geometric s p l :
  timely p ->
  Forall timely l ->
  temperatureProperty (run s (steps (p :: l)))
  == Qmax AMPLITUDE_MIN
       ((temperatureProperty s - scheduledEvaporationAmount s) * decay (p :: l)) /\
  (forall n, l = replicate n p ->
     temperatureProperty (run s (steps (p :: l)))
     == Qmax AMPLITUDE_MIN
          ((temperatureProperty s - scheduledEvaporationAmount s)
           * (1 - fst p * COOLING_RATE) ^ Z.of_nat (S n))).
Proof.
  intros [H0 H1] Hl.
  assert (G : temperatureProperty (run s (steps (p :: l)))
              == Qmax AMPLITUDE_MIN
                   ((temperatureProperty s - scheduledEvaporationAmount s)
                    * decay (p :: l))).
  { change (run s (steps (p :: l)))
      with (run (step (fst p) (snd p) s) (steps l)).
    destruct (step_temperature (fst p) (snd p) s H1) as [T1 S1].
    destruct (decay_range l Hl) as [D0 D1].
    rewrite steps_from_cleared; auto.
    - cbn [decay foldr]. fold (decay l).
      transitivity
        (Qmax AMPLITUDE_MIN
           (Qmax AMPLITUDE_MIN
              ((temperatureProperty s - scheduledEvaporationAmount s)
               * coolingFactor (fst p))
            * decay l)).
      { apply Q.max_compat; [reflexivity|]. rewrite T1. reflexivity. }
      rewrite (clamp_once _ _ D0 D1).
      apply Q.max_compat; [reflexivity | ring].
    - rewrite S1. reflexivity.
    - rewrite T1. apply Q.le_max_l. }
  split; [exact G|].
  intros n ->. rewrite G.
  apply Q.max_compat; [reflexivity|].
  apply Qmult_comp; [reflexivity|].
  change (p :: replicate n p) with (replicate (S n) p).
  destruct p as [dt r]. apply decay_replicate.
Qed.

Lemma cooling_is_geometric_witness :
  timely (1 # 10, 0) /\
  Forall timely [(1 # 10, 0); (1 # 10, 0)] /\
  temperatureProperty
    (run rubbed_twice (steps [(1 # 10, 0); (1 # 10, 0); (1 # 10, 0)]))
  == Qmax AMPLITUDE_MIN
       ((temperatureProperty rubbed_twice
         - scheduledEvaporationAmount rubbed_twice)
        * (1 - (1 # 10) * COOLING_RATE) ^ 3).
Proof.
  assert (H1 : timely (1 # 10, 0)) by (split; discriminate).
  assert (H2 : Forall timely [(1 # 10, 0); (1 # 10, 0)])
    by (repeat constructor; discriminate).
  split; [exact H1 | split; [exact H2|]].
  exact (proj2 (cooling_is_geometric rubbed_twice (1 # 10, 0)
                  [(1 # 10, 0); (1 # 10, 0)] H1 H2) 2%nat eq_refl).
Defined.

(** Three steps of a tenth of a second take the example from 11.5 to
    [11.48 * 0.98 ^ 3]. *)
Example cooling_three_steps :
  temperatureProperty
    (run rubbed_twice (steps [(1 # 10, 0); (1 # 10, 0); (1 # 10, 0)]))
  == (1148 # 100) * ((98 # 100) * (98 # 100) * (98 # 100)).
Proof. vm_compute. reflexivity. Qed.

(** ** The atoms of the queue *)

Lemma same_atoms_refl s : same_atoms s s.
Proof. repeat split. Qed.

Lemma same_atoms_trans s1 s2 s3 :
  same_atoms s1 s2 -> same_atoms s2 s3 -> same_atoms s1 s3.
Proof. intros (? & ? & ?) (? & ? & ?). repeat split; congruence. Qed.

Lemma distanceProperty_set_atoms d s : same_atoms s (distanceProperty_set d s).
Proof.
  unfold distanceProperty_set. destruct (Qeq_bool _ _); repeat split.
Qed.

Lemma limitMotion_atoms v s : same_atoms s (snd (limitMotion v s)).
Proof.
  unfold limitMotion.
  repeat match goal with
         | |- context [if ?b then _ else _] => destruct b
         end; repeat split.
Qed.

Lemma delete_outside {A} (l : list A) i : l !! i = None -> delete i l = l.
Proof.
  intros H. apply lookup_ge_None_1 in H.
  rewrite delete_take_drop, take_ge, drop_ge, app_nil_r by lia. reflexivity.
Qed.

(** The first half of [evaporate] either does nothing or pops an empty last
    row. *)
Lemma evaporate_advance_spec s :
  isEvaporated (evaporate_advance s) = isEvaporated s /\
  toEvaporateSample (evaporate_advance s) = toEvaporateSample s /\
  (toEvaporate (evaporate_advance s) = toEvaporate s \/
   toEvaporate s = toEvaporate (evaporate_advance s) ++ [[]]).
Proof.
  unfold evaporate_advance.
  destruct (last (toEvaporate s)) as [[|a row]|] eqn:L; try (repeat split; now left).
  apply last_Some in L as [rows E].
  unfold distanceProperty_set. fields.
  destruct (Qeq_bool _ _); fields; (split; [reflexivity|]);
    (split; [reflexivity|]); right; now rewrite E, removelast_last.
Qed.

(** The second half takes at most one atom, out of the last row, and flags
    it. *)
Lemma evaporate_atom_spec r s rows row :
  toEvaporate s = rows ++ [row] ->
  exists i,
    toEvaporate (evaporate_atom r s) = rows ++ [delete i row] /\
    isEvaporated (evaporate_atom r s)
    = match row !! i with
      | Some a => {[ a ]} ∪ isEvaporated s
      | None => isEvaporated s
      end /\
    toEvaporateSample (evaporate_atom r s) = toEvaporateSample s.
Proof.
  intros E. unfold evaporate_atom, splice1. rewrite E, last_snoc.
  match goal with |- context [row !! ?i] => exists i; destruct (row !! i) end;
    fields; rewrite length_app, Nat.add_1_r, Nat.pred_succ;
    replace (length rows) with (length rows + 0)%nat by lia;
    rewrite insert_app_r; repeat split.
Qed.

Lemma evaporate_atom_empty r s : toEvaporate s = [] -> evaporate_atom r s = s.
Proof. intros E. unfold evaporate_atom. now rewrite E. Qed.

(** Row-major order is kept. *)
Lemma rowMajor_pop rows sample : rowMajor (rows ++ [[]]) sample -> rowMajor rows sample.
Proof.
  intros [H | (rows' & row & whole & E & T & L & S)].
  - now destruct rows.
  - apply app_inj_tail in E as [<- <-].
    destruct rows as [|r0 rows0] using rev_ind; [now left|]. clear IHrows0.
    right. exists rows0, r0.
    rewrite length_app in T, L. cbn [length] in T, L.
    assert (T0 : take (length rows0) sample = rows0).
    { assert (M : take (length rows0) (take (length rows0 + 1) sample)
                  = take (length rows0) sample)
        by (rewrite take_take; f_equal; lia).
      rewrite <- M, T. apply take_app_length. }
    assert (L0 : sample !! length rows0 = Some r0).
    { rewrite <- (lookup_take_lt sample (length rows0 + 1) (length rows0)) by lia.
      rewrite T. apply list_lookup_middle. reflexivity. }
    exists r0. repeat split; auto.
Qed.

Lemma rowMajor_delete rows row i sample :
  rowMajor (rows ++ [row]) sample -> rowMajor (rows ++ [delete i row]) sample.
Proof.
  intros [H | (rows' & row' & whole & E & T & L & S)].
  - now destruct rows.
  - apply app_inj_tail in E as [<- <-].
    right. exists rows, (delete i row), whole. repeat split; auto.
    etransitivity; [apply sublist_delete | exact S].
Qed.

Lemma rowMajor_sample sample : rowMajor sample sample.
Proof.
  destruct sample as [|whole rows] using rev_ind; [now left|]. clear IHrows.
  right. exists rows, whole, whole.
  split; [reflexivity|]. split; [apply take_app_length|].
  split; [now apply list_lookup_middle | reflexivity].
Qed.

Lemma rowMajor_evaporate r s :
  rowMajor (toEvaporate s) (toEvaporateSample s) ->
  rowMajor (toEvaporate (evaporate r s)) (toEvaporateSample (evaporate r s)).
Proof.
  intros H. unfold evaporate.
  destruct (evaporate_advance_spec s) as (_ & A2 & A3).
  assert (H1 : rowMajor (toEvaporate (evaporate_advance s))
                 (toEvaporateSample (evaporate_advance s))).
  { rewrite A2. destruct A3 as [-> | E]; [exact H|].
    rewrite E in H. now apply rowMajor_pop. }
  set (s1 := evaporate_advance s) in *.
  destruct (toEvaporate s1) as [|r0 rows] eqn:E using rev_ind.
  - rewrite (evaporate_atom_empty r s1 E), E. now left.
  - clear IHrows.
    destruct (evaporate_atom_spec r s1 rows r0 E) as (i & -> & _ & ->).
    now apply rowMajor_delete.
Qed.

(** The account of the atoms is kept. *)
Lemma accounted_evaporate r s :
  NoDup (concat (toEvaporateSample s)) ->
  accounted s -> accounted (evaporate r s).
Proof.
  intros N H. unfold evaporate.
  destruct (evaporate_advance_spec s) as (A1 & A2 & A3).
  assert (H1 : accounted (evaporate_advance s)).
  { unfold accounted, remaining in *. rewrite A1, A2.
    destruct A3 as [-> | E]; [exact H|].
    rewrite E, concat_app in H. cbn in H. now rewrite app_nil_r in H. }
  assert (N1 : NoDup (concat (toEvaporateSample (evaporate_advance s))))
    by now rewrite A2.
  set (s1 := evaporate_advance s) in *. clearbody s1. clear H A1 A2 A3 N.
  destruct (toEvaporate s1) as [|row rows] eqn:E using rev_ind.
  - now rewrite (evaporate_atom_empty r s1 E).
  - clear IHrows.
    destruct (evaporate_atom_spec r s1 rows row E) as (i & T & F & S).
    unfold accounted, remaining in *. rewrite T, F, S. rewrite E in H1.
    destruct (row !! i) as [a|] eqn:L.
    + assert (Na : a ∉ isEvaporated s1).
      { rewrite <- H1 in N1. apply NoDup_app in N1 as (_ & D & _).
        rewrite <- elem_of_elements. apply D.
        rewrite concat_app. apply elem_of_app. right. cbn.
        rewrite app_nil_r. eapply list_elem_of_lookup_2; eassumption. }
      rewrite <- H1, !concat_app. cbn. rewrite !app_nil_r.
      rewrite (elements_union_singleton _ _ Na).
      rewrite (delete_Permutation row i a L) at 2.
      rewrite <- !app_assoc. apply Permutation_app_head.
      symmetry. apply Permutation_middle.
    + now rewrite (delete_outside row i L).
Qed.

Lemma temperatureProperty_set_cases t r s :
  temperatureProperty_set t r s = s \/
  temperatureProperty_set t r s = with_temperature t s \/
  temperatureProperty_set t r s = evaporate r (with_temperature t s).
Proof.
  unfold temperatureProperty_set.
  destruct (Qeq_bool _ _); [now left|]. cbn zeta.
  destruct (Qlt_bool _ _); [right; now right | right; now left].
Qed.

(** What holds of the atoms before an operation other than [reset] holds
    after it, provided [evaporate] keeps it. *)
Lemma atoms_apply (P : FrictionModel -> Prop) s o :
  (forall s s', same_atoms s s' -> P s -> P s') ->
  (forall r s, P s -> P (evaporate r s)) ->
  is_reset o = false ->
  P s -> P (apply s o).
Proof.
  intros Hsame Hevap Ho H.
  assert (Hset : forall t r s, P s -> P (temperatureProperty_set t r s)).
  { intros t r0 s0 H0.
    destruct (temperatureProperty_set_cases t r0 s0) as [-> | [-> | ->]].
    - exact H0.
    - apply (Hsame s0); [repeat split | exact H0].
    - apply Hevap. apply (Hsame s0); [repeat split | exact H0]. }
  destruct o as [dt r|v r|r|r|]; try discriminate; cbn [apply].
  - unfold step. destruct (Qlt_bool _ _); [exact H|]. cbn zeta.
    set (s2 := temperatureProperty_set _ _ _).
    apply (Hsame s2); [repeat split|]. subst s2.
    apply Hset. apply (Hsame s); [repeat split | exact H].
  - rewrite move_unfold. unfold positionProperty_set, positionListener.
    set (s0 := snd (limitMotion v s)).
    set (s1 := with_position _ s0).
    set (s2 := distanceProperty_set _ s1).
    assert (H2 : P s2).
    { apply (Hsame s); [|exact H].
      eapply same_atoms_trans; [apply limitMotion_atoms|].
      eapply (same_atoms_trans _ s1); [repeat split|].
      apply distanceProperty_set_atoms. }
    destruct (contactProperty s2); [now apply Hset | exact H2].
  - now apply Hevap.
  - apply (Hsame s); [repeat split | exact H].
Qed.

Lemma atoms_reset_flags atoms s :
  isEvaporated (foldl (fun s a => atom_reset a s) s atoms)
  = isEvaporated s ∖ list_to_set atoms.
Proof.
  revert s. induction atoms as [|a atoms IH]; intros s; cbn [foldl].
  - cbn. apply set_eq. intros x.
    rewrite elem_of_difference, elem_of_empty. tauto.
  - rewrite IH. fields. cbn [list_to_set foldr].
    apply set_eq. intros x.
    rewrite !elem_of_difference, elem_of_union, elem_of_singleton. tauto.
Qed.

Lemma init_rest s :
  hintProperty (init s) = hintProperty s /\
  newStepProperty (init s) = newStepProperty s /\
  isEvaporated (init s)
  = isEvaporated s
    ∖ list_to_set (concat (copyRows (toEvaporateSample s) (toEvaporate s))).
Proof.
  unfold init. cbn zeta. fields.
  rewrite atoms_reset_flags. fields.
  destruct (atoms_reset_frame
              (concat (copyRows (toEvaporateSample s) (toEvaporate s)))
              (with_toEvaporate (copyRows (toEvaporateSample s) (toEvaporate s)) s))
    as [flags ->].
  repeat split.
Qed.

(** From a state that satisfies the invariant, [reset] comes down to [init]
    on a state with the same atoms, the hint shown and the step flag
    cleared. *)
Lemma reset_unfold r s :
  Inv s ->
  exists s4,
    reset r s = init s4 /\ same_atoms s s4 /\
    hintProperty s4 = true /\ newStepProperty s4 = false.
Proof.
  intros I. unfold reset.
  rewrite temperatureProperty_set_cool by (constants; lra).
  set (s1 := if Qeq_bool _ _ then s else _).
  assert (F1 : s1 = s \/ s1 = with_temperature AMPLITUDE_MIN s).
  { subst s1. destruct (Qeq_bool _ _); auto. }
  assert (I1 : Inv s1).
  { destruct F1 as [-> | ->]; [assumption|].
    destruct I. split; fields; auto; constants; lra. }
  assert (A1 : same_atoms s s1)
    by (destruct F1 as [-> | ->]; repeat split).
  clearbody s1. clear F1.
  unfold positionProperty_set, positionListener.
  set (s0 := with_position Vector2.zero s1).
  set (d := distanceProperty s0 - _).
  assert (C0 : consistent s0) by apply I1.
  assert (Hd : DISTANCE_INITIAL <= d).
  { subst d s0. fields. destruct I1. lra. }
  rewrite (distanceProperty_set_contact d s0 C0), (floor_gap d Hd).
  eexists. split; [reflexivity|]. fields. split; [|split; reflexivity].
  eapply same_atoms_trans; [exact A1|].
  eapply (same_atoms_trans _ s0); [repeat split|].
  eapply same_atoms_trans; [apply distanceProperty_set_atoms|].
  eapply same_atoms_trans; [apply distanceProperty_set_atoms|].
  repeat split.
Qed.

Lemma NoDup_sample : NoDup (concat (toEvaporateSample initial)).
Proof.
  replace (concat (toEvaporateSample initial)) with (seq 30 91)
    by (vm_compute; reflexivity).
  apply NoDup_seq.
Qed.

Lemma accounted_same s s' : same_atoms s s' -> accounted s -> accounted s'.
Proof.
  intros (E1 & E2 & E3). unfold accounted, remaining. now rewrite E1, E2, E3.
Qed.

Lemma rowMajor_same s s' :
  same_atoms s s' ->
  rowMajor (toEvaporate s) (toEvaporateSample s) ->
  rowMajor (toEvaporate s') (toEvaporateSample s').
Proof. intros (E1 & E2 & _). now rewrite E1, E2. Qed.

(** After [reset] from a reachable state the queue is the sample and no
    atom is flagged. *)
Lemma reset_atoms r s :
  Inv s -> accounted s ->
  toEvaporate (reset r s) = toEvaporateSample s /\
  toEvaporateSample (reset r s) = toEvaporateSample s /\
  isEvaporated (reset r s) = ∅ /\
  hintProperty (reset r s) = true /\
  newStepProperty (reset r s) = false.
Proof.
  intros I A.
  destruct (reset_spec r s I) as (_ & _ & _ & Q1 & Q2 & _). cbn zeta in *.
  destruct (reset_unfold r s I) as (s4 & E & (S1 & S2 & S3) & Hh & Hn).
  destruct (init_rest s4) as (R1 & R2 & R3).
  rewrite E in *. rewrite R1, R2, R3.
  repeat split; auto.
  rewrite S1, S2, S3.
  rewrite copyRows_sample by apply I.
  apply set_eq. intros a. rewrite elem_of_difference, elem_of_list_to_set.
  rewrite elem_of_empty. split; [|tauto]. intros [Ha Hn'].
  apply Hn'.
  unfold accounted in A. rewrite <- A.
  apply elem_of_app. right. now apply elem_of_elements.
Qed.

Lemma atoms_reachable s :
  reachable s ->
  rowMajor (toEvaporate s) (toEvaporateSample s) /\ accounted s.
Proof.
  induction 1 as [|s o R [IH1 IH2] V].
  - split.
    + replace (toEvaporate initial) with (toEvaporateSample initial)
        by (vm_compute; reflexivity).
      apply rowMajor_sample.
    + unfold accounted, remaining.
      replace (elements (isEvaporated initial)) with (@nil Atom)
        by (vm_compute; reflexivity).
      rewrite app_nil_r.
      replace (toEvaporate initial) with (toEvaporateSample initial)
        by (vm_compute; reflexivity).
      reflexivity.
  - pose proof (reachable_Inv s R) as I.
    destruct (is_reset o) eqn:Ho.
    + destruct o as [| | |r|]; try discriminate. cbn [apply].
      destruct (reset_atoms r s I IH2) as (T & S & F & _).
      unfold accounted, remaining. rewrite T, S, F.
      split; [apply rowMajor_sample|].
      rewrite elements_empty, app_nil_r. reflexivity.
    + split.
      * apply (atoms_apply
                 (fun s => rowMajor (toEvaporate s) (toEvaporateSample s)));
          [ intros s1 s2; apply rowMajor_same
          | intros r s1; apply rowMajor_evaporate
          | exact Ho | exact IH1 ].
      * refine (proj2 (atoms_apply
                 (fun s => toEvaporateSample s = toEvaporateSample initial
                           /\ accounted s) s o _ _ Ho _)).
        -- intros s1 s2 Hs [E A]. split; [|eapply accounted_same; eassumption].
           destruct Hs as (_ & -> & _). exact E.
        -- intros r s1 [E A]. split.
           ++ destruct (evaporate_evolve r s1) as [_ _ -> _ _ _ _ _ _]. exact E.
           ++ apply accounted_evaporate; [|exact A].
              rewrite E. apply NoDup_sample.
        -- split; [apply I | exact IH2].
Qed.

(** X8.  Evaporation is row-major.  In every reachable state the rows of
    the queue above its last row are the rows of the sample, complete, and
    the last row is what is left of its row of the sample, with the atoms in
    the order of the sample: no atom leaves a row before the rows below it
    are gone. *)
Theorem evaporation_is_row_major s :
  reachable s ->
  (forall i, (S i < length (toEvaporate s))%nat ->
     toEvaporate s !! i = toEvaporateSample s !! i) /\
  (forall row, last (toEvaporate s) = Some row ->
     exists whole,
       toEvaporateSample s !! pred (length (toEvaporate s)) = Some whole /\
       sublist row whole).
Proof.
  intros R. destruct (atoms_reachable s R) as [[E | (rows & row & whole & E & T & L & S)] _].
  - rewrite E. split; [cbn; intros; lia | intros row; discriminate].
  - rewrite E, length_app. cbn [length]. split.
    + intros i Hi. rewrite lookup_app_l by lia.
      rewrite <- T at 1. apply lookup_take_lt. lia.
    + intros row'. rewrite last_snoc. intros [= <-].
      exists whole. rewrite Nat.add_1_r, Nat.pred_succ. split; assumption.
Qed.

Lemma evaporation_is_row_major_witness :
  reachable rubbed_twice /\
  toEvaporate rubbed_twice !! 2%nat = toEvaporateSample rubbed_twice !! 2%nat.
Proof.
  split; [apply reachable_rubbed_twice|].
  apply (proj1 (evaporation_is_row_major rubbed_twice reachable_rubbed_twice)).
  vm_compute. lia.
Defined.

(** X9.  Every atom is accounted for.  In every reachable state each of the
    91 atoms of the sample is either still in the queue or flagged as
    evaporated, never both and never twice: an evaporated atom does not
    come back to the queue before a reset, and the atoms left plus the atoms
    flagged are 91. *)
Theorem atoms_are_accounted s :
  reachable s ->
  (forall a, a ∈ isEvaporated s -> a ∉ remaining s) /\
  (forall a, a ∈ concat (toEvaporateSample s)
             <-> a ∈ remaining s \/ a ∈ isEvaporated s) /\
  NoDup (remaining s) /\
  (length (remaining s) + size (isEvaporated s) = 91)%nat.
Proof.
  intros R. destruct (atoms_reachable s R) as [_ A].
  pose proof (inv_sample s (reachable_Inv s R)) as Es.
  pose proof NoDup_sample as N. rewrite <- Es in N.
  unfold accounted in A. rewrite <- A in N.
  apply NoDup_app in N as (N1 & D & _).
  split; [|split; [|split]].
  - intros a Ha Hr. apply (D a Hr). now apply elem_of_elements.
  - intros a. rewrite <- A, elem_of_app, elem_of_elements. reflexivity.
  - exact N1.
  - apply Permutation_length in A. rewrite length_app in A.
    rewrite Es in A. unfold size, set_size. cbn. rewrite A.
    vm_compute. reflexivity.
Qed.

Lemma atoms_are_accounted_witness :
  reachable rubbed_twice /\
  (length (remaining rubbed_twice) + size (isEvaporated rubbed_twice) = 91)%nat.
Proof.
  split; [apply reachable_rubbed_twice|].
  apply (atoms_are_accounted rubbed_twice reachable_rubbed_twice).
Defined.

(** ** Reset, in full *)

(** X10.  From every reachable state [reset] brings back the initial state
    in everything the model publishes and in every atom: temperature,
    position, distance, bottom offset, number of rows, contact, hint, step
    flag, minimum height, queue, sample and flags are those of the initial
    state.  The one thing [reset] does not touch is the scheduled
    evaporation amount. *)
Theorem reset_is_initial s r :
  reachable s ->
  published_equal (reset r s) initial /\
  scheduledEvaporationAmount (reset r s) = scheduledEvaporationAmount s.
Proof.
  intros R. pose proof (reachable_Inv s R) as I.
  destruct (atoms_reachable s R) as [_ A].
  destruct (reset_spec r s I) as (T & P & D & Q1 & Q2 & N & M & C & S & B).
  destruct (reset_atoms r s I A) as (_ & _ & F & Hh & Hn).
  cbn zeta in *. pose proof (inv_sample s I) as Es.
  split; [|exact S].
  split; rewrite ?T, ?P, ?D, ?Q1, ?Q2, ?N, ?M, ?C, ?B, ?F, ?Hh, ?Hn, ?Es;
    try reflexivity; vm_compute; reflexivity.
Qed.

Lemma reset_is_initial_witness :
  reachable rubbed_twice /\
  published_equal (reset 0 rubbed_twice) initial /\
  scheduledEvaporationAmount (reset 0 rubbed_twice)
    = scheduledEvaporationAmount rubbed_twice.
Proof.
  split; [apply reachable_rubbed_twice|].
  apply (reset_is_initial rubbed_twice 0 reachable_rubbed_twice).
Defined.

(** ** One atom at a time *)

Lemma once_temperatureProperty_set t r s :
  once s (temperatureProperty_set t r s).
Proof.
  destruct (temperatureProperty_set_cases t r s) as [-> | [-> | ->]].
  - left. apply same_atoms_refl.
  - left. repeat split.
  - right. exists r, (with_temperature t s). split; repeat split.
Qed.

Lemma once_same s1 s2 s3 s4 :
  same_atoms s1 s2 -> once s2 s3 -> same_atoms s3 s4 -> once s1 s4.
Proof.
  intros H12 [H23 | (r & s & Ha & Hb)] H34.
  - left. eauto using same_atoms_trans.
  - right. exists r, s. split; eauto using same_atoms_trans.
Qed.

Lemma apply_once s o : is_reset o = false -> once s (apply s o).
Proof.
  intros Ho. destruct o as [dt r|v r|r|r|]; try discriminate; cbn [apply].
  - unfold step. destruct (Qlt_bool _ _); [left; apply same_atoms_refl|].
    cbn zeta.
    set (s1 := with_newStep _ s). set (t := Qmax _ _).
    apply (once_same s s1 (temperatureProperty_set t r s1));
      [repeat split | apply once_temperatureProperty_set | repeat split].
  - rewrite move_unfold. unfold positionProperty_set, positionListener.
    set (s0 := snd (limitMotion v s)).
    set (s1 := with_position _ s0).
    set (s2 := distanceProperty_set _ s1).
    assert (H2 : same_atoms s s2).
    { eapply same_atoms_trans; [apply limitMotion_atoms|].
      eapply (same_atoms_trans _ s1); [repeat split|].
      apply distanceProperty_set_atoms. }
    destruct (contactProperty s2); [|now left].
    eapply once_same;
      [exact H2 | apply once_temperatureProperty_set | apply same_atoms_refl].
  - right. exists r, s. split; apply same_atoms_refl.
  - left. repeat split.
Qed.

Lemma evaporate_length r s :
  (length (remaining (evaporate r s)) <= length (remaining s))%nat /\
  (length (remaining s) <= S (length (remaining (evaporate r s))))%nat.
Proof.
  unfold evaporate, remaining.
  destruct (evaporate_advance_spec s) as (_ & _ & A3).
  assert (E : concat (toEvaporate (evaporate_advance s)) = concat (toEvaporate s)).
  { destruct A3 as [-> | ->]; [reflexivity|].
    rewrite concat_app. cbn. now rewrite app_nil_r. }
  rewrite <- E. set (s1 := evaporate_advance s). clearbody s1.
  destruct (toEvaporate s1) as [|row rows] eqn:L using rev_ind.
  - rewrite (evaporate_atom_empty r s1 L), L. cbn. lia.
  - clear IHrows.
    destruct (evaporate_atom_spec r s1 rows row L) as (i & -> & _).
    rewrite !concat_app, !length_app. cbn. rewrite !app_nil_r.
    pose proof (sublist_length _ _ (sublist_delete row i)).
    destruct (row !! i) as [a|] eqn:La.
    + rewrite length_delete by eauto. apply lookup_lt_Some in La. lia.
    + rewrite (delete_outside row i La). lia.
Qed.

(** X11.  No operation other than [reset] evaporates more than one atom:
    the number of atoms left in the queue after a step, a move, an
    evaporation or a drag end is the number before it, or one less. *)
Theorem one_atom_at_a_time s o :
  is_reset o = false ->
  (length (remaining (apply s o)) <= length (remaining s))%nat /\
  (length (remaining s) <= S (length (remaining (apply s o))))%nat.
Proof.
  intros Ho. unfold remaining.
  destruct (apply_once s o Ho) as [(-> & _) | (r & s1 & (E1 & _) & (-> & _))].
  - lia.
  - rewrite <- E1. apply evaporate_length.
Qed.

Lemma one_atom_at_a_time_witness :
  is_reset (Move (Vector2.mk (-400) 3) 0) = false /\
  (length (remaining pressed)
   <= S (length (remaining (apply pressed (Move (Vector2.mk (-400) 3) 0)))))%nat.
Proof.
  split; [reflexivity|].
  apply (one_atom_at_a_time pressed (Move (Vector2.mk (-400) 3) 0)).
  reflexivity.
Defined.

(** * The flight of an evaporated atom *)

Lemma round_low r : 0 <= r -> r < 1 # 2 -> AtomNode.round r = 0%Z.
Proof.
  intros H0 H1. unfold AtomNode.round.
  assert (L : (Qfloor 0 <= Qfloor (r + (1 # 2)))%Z) by (apply Qfloor_resp_le; lra).
  assert (U : (Qfloor (r + (1 # 2)) <= 0)%Z) by (apply floor_nonpositive; lra).
  change (Qfloor 0) with 0%Z in L. lia.
Qed.

Lemma round_high r : 1 # 2 <= r -> r < 1 -> AtomNode.round r = 1%Z.
Proof.
  intros H0 H1. unfold AtomNode.round.
  assert (L : (Qfloor 1 <= Qfloor (r + (1 # 2)))%Z) by (apply Qfloor_resp_le; lra).
  assert (U : inject_Z (Qfloor (r + (1 # 2))) < inject_Z 2).
  { eapply Qle_lt_trans; [apply Qfloor_le|]. change (inject_Z 2) with 2. lra. }
  rewrite <- Zlt_Qlt in U. change (Qfloor 1) with 1%Z in L. lia.
Qed.

Lemma inject_S n : inject_Z (Z.of_nat (S n)) == inject_Z (Z.of_nat n) + 1.
Proof.
  rewrite Nat2Z.inj_succ, <- Z.add_1_r, inject_Z_plus. reflexivity.
Qed.

(** The handler, called [n] more times on a linked atom that moves by
    [dx >= 0] at a time from [X]: it is linked for as long as it has not
    passed four widths, and hidden from then on. *)
Lemma flight_right width dx dy X V a n :
  0 <= dx ->
  AtomNode.handler a = Some (dx, dy) ->
  (X + dx <= 4 * width /\ AtomNode.linked a = true /\ AtomNode.visible a = V
     /\ AtomNode.x0 a == X + dx) \/
  (4 * width < X + dx /\ AtomNode.linked a = false /\ AtomNode.visible a = false) ->
  let a' := Nat.iter n (AtomNode.handlerCall width) a in
  AtomNode.handler a' = Some (dx, dy) /\
  ((X + inject_Z (Z.of_nat (S n)) * dx <= 4 * width /\ AtomNode.linked a' = true
      /\ AtomNode.visible a' = V
      /\ AtomNode.x0 a' == X + inject_Z (Z.of_nat (S n)) * dx) \/
   (4 * width < X + inject_Z (Z.of_nat (S n)) * dx /\ AtomNode.linked a' = false
      /\ AtomNode.visible a' = false)).
Proof.
  intros Hdx Hh H0. cbn zeta. induction n as [|n [IHh IH]].
  - cbn [Nat.iter]. split; [exact Hh|].
    change (inject_Z (Z.of_nat 1)) with 1.
    destruct H0 as [(A & B & C & D) | (A & B & C)]; [left | right];
      repeat split; auto; try lra. rewrite D. ring.
  - rewrite Nat.iter_succ. set (a' := Nat.iter n (AtomNode.handlerCall width) a) in *.
    pose proof (inject_S (S n)) as E.
    assert (M : 0 <= inject_Z (Z.of_nat (S n)) * dx).
    { apply Qmult_le_0_compat; [|exact Hdx].
      change 0 with (inject_Z 0). rewrite <- Zle_Qle. lia. }
    unfold AtomNode.handlerCall. rewrite IHh.
    destruct IH as [(A & B & C & D) | (A & B & C)].
    + rewrite B.
      destruct (Qlt_bool (4 * width) (AtomNode.x0 a' + dx)) eqn:L;
        [apply Qlt_bool_iff in L | apply Qlt_bool_false in L];
        cbn; (split; [reflexivity|]); [right | left];
        rewrite E; repeat split; auto; lra.
    + rewrite B. split; [exact IHh|]. right. rewrite E. repeat split; auto. lra.
Qed.

(** The same for an atom that moves by [dx <= 0] at a time and starts no
    further right than four widths: it stays linked. *)
Lemma flight_left width dx dy a n :
  dx <= 0 ->
  AtomNode.handler a = Some (dx, dy) ->
  AtomNode.linked a = true ->
  AtomNode.x0 a <= 4 * width ->
  let a' := Nat.iter n (AtomNode.handlerCall width) a in
  AtomNode.handler a' = Some (dx, dy) /\
  AtomNode.linked a' = true /\
  AtomNode.visible a' = AtomNode.visible a /\
  AtomNode.x0 a' == AtomNode.x0 a + inject_Z (Z.of_nat n) * dx.
Proof.
  intros Hdx Hh Hl Hx. cbn zeta. induction n as [|n (IHh & IHl & IHv & IHx)].
  - cbv [Nat.iter nat_rect]. repeat split; auto.
    change (inject_Z (Z.of_nat 0)) with 0. ring.
  - rewrite Nat.iter_succ. set (a' := Nat.iter n (AtomNode.handlerCall width) a) in *.
    assert (M : inject_Z (Z.of_nat n) * dx <= 0).
    { assert (0 <= inject_Z (Z.of_nat n) * (- dx)).
      { apply Qmult_le_0_compat; [|lra].
        change 0 with (inject_Z 0). rewrite <- Zle_Qle. lia. }
      lra. }
    unfold AtomNode.handlerCall. rewrite IHh, IHl.
    assert (L : Qlt_bool (4 * width) (AtomNode.x0 a' + dx) = false)
      by (apply Qlt_bool_false; lra).
    rewrite L. cbn. repeat split; auto.
    rewrite IHx, inject_S. ring.
Qed.

(** X12.  An atom that evaporates to the left is never hidden.  When the
    first random draw is below 1/2 the atom flies to the left; if it starts
    no further right than four widths of the model, then after any number of
    steps its handler is still linked to [newStepProperty], the atom is as
    visible as it was, and it has moved [2 * width / 250] to the left at
    every call.  Only [reset] ends such a flight. *)
Theorem atom_flying_left_is_never_hidden width yrange r1 r2 a n :
  0 <= width ->
  AtomNode.x0 a <= 4 * width ->
  0 <= r1 -> r1 < 1 # 2 ->
  let a' := Nat.iter n (AtomNode.handlerCall width)
              (AtomNode.evaporate width yrange r1 r2 a) in
  AtomNode.linked a' = true /\
  AtomNode.visible a' = AtomNode.visible a /\
  AtomNode.isEvaporated a' = true /\
  AtomNode.x0 a' == AtomNode.x0 a - inject_Z (Z.of_nat (S n)) * (2 * width / 250).
Proof.
  intros Hw Hx H0 H1. cbn zeta. unfold AtomNode.evaporate.
  rewrite (round_low r1 H0 H1). cbn zeta.
  set (dx := (AtomNode.x0 a + 4 * width * (inject_Z 0 - (5 # 10)) - AtomNode.x0 a) / 250).
  set (dy := (AtomNode.y0 a + r2 * (15 # 10) * yrange - AtomNode.y0 a) / 250).
  assert (Edx : dx == - (2 * width / 250)).
  { subst dx. change (inject_Z 0) with 0. field. }
  assert (Hdx : dx <= 0).
  { rewrite Edx. assert (0 <= 2 * width / 250) by (apply Qle_shift_div_l; lra). lra. }
  set (a0 := AtomNode.mk _ _ _ _ _ _ _ _).
  change (Nat.iter n (AtomNode.handlerCall width) (AtomNode.handlerCall width a0))
    with (Nat.iter n (AtomNode.handlerCall width)
            (Nat.iter 1 (AtomNode.handlerCall width) a0)).
  rewrite <- Nat.iter_add.
  destruct (flight_left width dx dy a0 (n + 1) Hdx eq_refl eq_refl Hx)
    as (_ & Fl & Fv & Fx).
  cbn zeta in *. split; [exact Fl|]. split; [exact Fv|]. split.
  - clear. induction (n + 1)%nat as [|k IH]; [reflexivity|].
    rewrite Nat.iter_succ. unfold AtomNode.handlerCall.
    destruct (AtomNode.handler _) as [[? ?]|]; [|exact IH].
    destruct (AtomNode.linked _); [|exact IH].
    destruct (Qlt_bool _ _); cbn; exact IH.
  - rewrite Fx. subst a0. cbn [AtomNode.x0].
    rewrite Nat.add_1_r, Edx. ring.
Qed.

Lemma atom_flying_left_is_never_hidden_witness :
  (0 <= 800 /\ 100 <= 4 * 800 /\ 0 <= 1 # 4 /\ 1 # 4 < 1 # 2) /\
  AtomNode.linked
    (Nat.iter 1000 (AtomNode.handlerCall 800)
       (AtomNode.evaporate 800 105 (1 # 4) (1 # 2)
          (AtomNode.mk 100 50 false true None false (Vector2.mk 100 50) true)))
  = true.
Proof.
  assert (H1 : 0 <= 800) by discriminate.
  assert (H2 : AtomNode.x0
                 (AtomNode.mk 100 50 false true None false (Vector2.mk 100 50) true)
               <= 4 * 800) by discriminate.
  assert (H3 : 0 <= 1 # 4) by discriminate.
  assert (H4 : 1 # 4 < 1 # 2) by reflexivity.
  split; [repeat split; discriminate|].
  exact (proj1 (atom_flying_left_is_never_hidden 800 105 (1 # 4) (1 # 2)
                  (AtomNode.mk 100 50 false true None false (Vector2.mk 100 50) true)
                  1000 H1 H2 H3 H4)).
Defined.

(** X13.  An atom that evaporates to the right from inside the frame is
    hidden within 502 calls of its handler, and for good.  With a draw of
    1/2 or more the atom moves [2 * width / 250] to the right at every call.
    After the call made by [link] and [n] further calls, the handler is
    still linked and the atom as visible as it was when one more such move
    would still end within four widths of the model; the handler is unlinked
    and the atom invisible when [n] such moves already end beyond four
    widths, and so, for an atom that starts at [x0 >= 0], whenever [n] is
    501 or more. *)
Theorem atom_flying_right_is_hidden width yrange r1 r2 a n :
  0 < width ->
  1 # 2 <= r1 -> r1 < 1 ->
  0 <= AtomNode.x0 a ->
  let a' := Nat.iter n (AtomNode.handlerCall width)
              (AtomNode.evaporate width yrange r1 r2 a) in
  (AtomNode.x0 a + inject_Z (Z.of_nat (n + 2)) * (2 * width / 250) <= 4 * width ->
   AtomNode.linked a' = true /\ AtomNode.visible a' = AtomNode.visible a) /\
  (4 * width < AtomNode.x0 a + inject_Z (Z.of_nat n) * (2 * width / 250) ->
   AtomNode.linked a' = false /\ AtomNode.visible a' = false) /\
  ((501 <= n)%nat ->
   AtomNode.linked a' = false /\ AtomNode.visible a' = false).
Proof.
  intros Hw H0 H1 Hx. cbn zeta. unfold AtomNode.evaporate.
  rewrite (round_high r1 H0 H1). cbn zeta.
  set (dx := (AtomNode.x0 a + 4 * width * (inject_Z 1 - (5 # 10)) - AtomNode.x0 a) / 250).
  set (dy := (AtomNode.y0 a + r2 * (15 # 10) * yrange - AtomNode.y0 a) / 250).
  assert (Edx : dx == 2 * width / 250).
  { subst dx. change (inject_Z 1) with 1. field. }
  assert (Hdx : 0 < dx).
  { rewrite Edx. apply Qlt_shift_div_l; lra. }
  set (a0 := AtomNode.mk _ _ _ _ _ _ _ _).
  assert (S0 : (AtomNode.x0 a + dx <= 4 * width
                /\ AtomNode.linked (AtomNode.handlerCall width a0) = true
                /\ AtomNode.visible (AtomNode.handlerCall width a0) = AtomNode.visible a
                /\ AtomNode.x0 (AtomNode.handlerCall width a0) == AtomNode.x0 a + dx)
               \/ (4 * width < AtomNode.x0 a + dx
                   /\ AtomNode.linked (AtomNode.handlerCall width a0) = false
                   /\ AtomNode.visible (AtomNode.handlerCall width a0) = false)).
  { unfold AtomNode.handlerCall. subst a0. cbn [AtomNode.handler AtomNode.linked AtomNode.x0].
    destruct (Qlt_bool (4 * width) (AtomNode.x0 a + dx)) eqn:L;
      [apply Qlt_bool_iff in L; right | apply Qlt_bool_false in L; left];
      cbn; repeat split; auto. }
  assert (Sh : AtomNode.handler (AtomNode.handlerCall width a0) = Some (dx, dy)).
  { unfold AtomNode.handlerCall. subst a0. cbn [AtomNode.handler AtomNode.linked].
    destruct (Qlt_bool _ _); reflexivity. }
  destruct (flight_right width dx dy (AtomNode.x0 a) (AtomNode.visible a)
              (AtomNode.handlerCall width a0) n (Qlt_le_weak _ _ Hdx) Sh S0) as [_ F].
  cbn zeta in F. rewrite <- Edx.
  assert (E1 : inject_Z (Z.of_nat (S n)) == inject_Z (Z.of_nat n) + 1)
    by apply inject_S.
  assert (E2 : inject_Z (Z.of_nat (n + 2)) == inject_Z (Z.of_nat n) + 2).
  { rewrite Nat2Z.inj_add, inject_Z_plus. reflexivity. }
  assert (Far : 4 * width < AtomNode.x0 a + inject_Z (Z.of_nat n) * dx ->
                AtomNode.linked
                  (Nat.iter n (AtomNode.handlerCall width)
                     (AtomNode.handlerCall width a0)) = false /\
                AtomNode.visible
                  (Nat.iter n (AtomNode.handlerCall width)
                     (AtomNode.handlerCall width a0)) = false).
  { intros G. destruct F as [(A & _) | (_ & B & C)]; [|split; assumption].
    exfalso. rewrite E1 in A. nra. }
  split; [|split].
  - intros G. destruct F as [(_ & B & C & _) | (A & _)]; [split; assumption|].
    exfalso. rewrite E1 in A. rewrite E2 in G. nra.
  - exact Far.
  - intros Hn. apply Far.
    assert (N : 501 <= inject_Z (Z.of_nat n)).
    { change 501 with (inject_Z 501). rewrite <- Zle_Qle. lia. }
    assert (Edx' : dx == width * (2 # 250)) by (rewrite Edx; field).
    assert (W : 4 * width < 501 * dx) by (rewrite Edx'; lra).
    nra.
Qed.

Lemma atom_flying_right_is_hidden_witness :
  (0 < 800 /\ 1 # 2 <= 3 # 4 /\ 3 # 4 < 1 /\ 0 <= 100 /\ (501 <= 501)%nat) /\
  AtomNode.visible
    (Nat.iter 501 (AtomNode.handlerCall 800)
       (AtomNode.evaporate 800 105 (3 # 4) (1 # 2)
          (AtomNode.mk 100 50 false true None false (Vector2.mk 100 50) true)))
  = false.
Proof.
  assert (H1 : 0 < 800) by reflexivity.
  assert (H2 : 1 # 2 <= 3 # 4) by discriminate.
  assert (H3 : 3 # 4 < 1) by reflexivity.
  assert (H4 : 0 <= AtomNode.x0
                      (AtomNode.mk 100 50 false true None false (Vector2.mk 100 50) true))
    by discriminate.
  assert (H5 : (501 <= 501)%nat) by lia.
  split; [repeat split; try assumption; discriminate|].
  exact (proj2 (proj2 (proj2 (atom_flying_right_is_hidden 800 105 (3 # 4) (1 # 2)
                  (AtomNode.mk 100 50 false true None false (Vector2.mk 100 50) true)
                  501 H1 H2 H3 H4)) H5)).
Defined.

(** * The describer of rising temperature *)

Lemma describer_alertIncrease d :
  (-1 <= TemperatureIncreasingDescriber.alertIndex d)%Z ->
  exists o,
    TemperatureIncreasingDescriber.index TemperatureIncreasingDescriber.INCREASING (Z.min (TemperatureIncreasingDescriber.alertIndex d + 1) 2) = Some o /\
    TemperatureIncreasingDescriber.alertIncrease d
    = Some (TemperatureIncreasingDescriber.mk (TemperatureIncreasingDescriber.timeOfLastDrag d) (TemperatureIncreasingDescriber.amplitude d) (TemperatureIncreasingDescriber.alertIndex d + 1)
              true (TemperatureIncreasingDescriber.amplitude d) (TemperatureIncreasingDescriber.utteranceQueue d ++ [TemperatureIncreasingDescriber.Jiggle o])).
Proof.
  intros H. unfold TemperatureIncreasingDescriber.alertIncrease. cbn [TemperatureIncreasingDescriber.alertIndex].
  change (Z.of_nat (length TemperatureIncreasingDescriber.INCREASING) - 1)%Z with 2%Z.
  assert (C : Z.min (TemperatureIncreasingDescriber.alertIndex d + 1) 2 = 0%Z
              \/ Z.min (TemperatureIncreasingDescriber.alertIndex d + 1) 2 = 1%Z
              \/ Z.min (TemperatureIncreasingDescriber.alertIndex d + 1) 2 = 2%Z) by lia.
  destruct C as [-> | [-> | ->]]; eexists; split; reflexivity.
Qed.

Lemma describer_handle limit threshold d e :
  (-1 <= TemperatureIncreasingDescriber.alertIndex d)%Z ->
  exists d',
    TemperatureIncreasingDescriber.handle limit threshold d e = Some d' /\
    (-1 <= TemperatureIncreasingDescriber.alertIndex d')%Z.
Proof.
  intros H. destruct e as [a|t|t| |]; cbn [TemperatureIncreasingDescriber.handle].
  - unfold TemperatureIncreasingDescriber.amplitudeListener. cbn zeta.
    set (d1 := TemperatureIncreasingDescriber.mk _ _ _ _ a _).
    destruct (_ && _); [|exists d1; split; [reflexivity | exact H]].
    destruct (Qlt_bool a limit).
    + destruct (describer_alertIncrease d1 H) as (o & _ & ->).
      eexists. split; [reflexivity|]. cbn. lia.
    + eexists. split; [reflexivity|]. exact H.
  - unfold TemperatureIncreasingDescriber.startDrag.
    destruct (Qlt_bool _ _); eexists; (split; [reflexivity|]); [cbn; lia | exact H].
  - eexists. split; [reflexivity | exact H].
  - eexists. split; [reflexivity | exact H].
  - eexists. split; [reflexivity | exact H].
Qed.

(** X14.  The describer never reads past its table of alerts.  Whatever the
    temperatures, drags, timeouts and resets that follow its construction,
    every event is handled without the [TypeError] of an [undefined] alert
    object, and the alert index never drops below -1. *)
Theorem describer_never_fails limit threshold amplitude0 events :
  exists d,
    TemperatureIncreasingDescriber.run limit threshold
      (TemperatureIncreasingDescriber.construct amplitude0) events = Some d /\
    (-1 <= TemperatureIncreasingDescriber.alertIndex d)%Z.
Proof.
  assert (G : forall d0,
             (-1 <= TemperatureIncreasingDescriber.alertIndex d0)%Z ->
             exists d,
               TemperatureIncreasingDescriber.run limit threshold d0 events = Some d /\
               (-1 <= TemperatureIncreasingDescriber.alertIndex d)%Z).
  { induction events as [|e events IH]; intros d0 H.
    - exists d0. split; [reflexivity | exact H].
    - cbn [TemperatureIncreasingDescriber.run].
      destruct (describer_handle limit threshold d0 e H) as (d1 & -> & H1).
      now apply IH. }
  apply G. cbn. lia.
Qed.

(** X15.  The describer does not speak twice without a timeout in between.
    Once an alert has set [tooSoonForNextAlert], no temperature, drag or
    reset adds an utterance or clears the flag: only the timer callback
    does. *)
Theorem describer_waits_for_timeout limit threshold d events :
  TemperatureIncreasingDescriber.tooSoonForNextAlert d = true ->
  forallb (fun e => negb (TemperatureIncreasingDescriber.is_timeout e)) events = true ->
  exists d',
    TemperatureIncreasingDescriber.run limit threshold d events = Some d' /\
    TemperatureIncreasingDescriber.utteranceQueue d'
    = TemperatureIncreasingDescriber.utteranceQueue d /\
    TemperatureIncreasingDescriber.tooSoonForNextAlert d' = true.
Proof.
  revert d. induction events as [|e events IH]; intros d H E.
  - exists d. repeat split; assumption.
  - cbn [forallb] in E. apply andb_true_iff in E as [E0 E].
    cbn [TemperatureIncreasingDescriber.run].
    assert (S : exists d1,
               TemperatureIncreasingDescriber.handle limit threshold d e = Some d1 /\
               TemperatureIncreasingDescriber.utteranceQueue d1
               = TemperatureIncreasingDescriber.utteranceQueue d /\
               TemperatureIncreasingDescriber.tooSoonForNextAlert d1 = true).
    { destruct e as [a|t|t| |]; try discriminate;
        cbn [TemperatureIncreasingDescriber.handle].
      - unfold TemperatureIncreasingDescriber.amplitudeListener. cbn zeta.
        cbn [TemperatureIncreasingDescriber.tooSoonForNextAlert]. rewrite H.
        cbn [negb andb]. eexists. split; [reflexivity|]. split; [reflexivity | cbn; first [exact H | reflexivity]].
      - unfold TemperatureIncreasingDescriber.startDrag.
        destruct (Qlt_bool _ _); eexists; (split; [reflexivity|]);
          split; try reflexivity; cbn; first [exact H | reflexivity].
      - eexists. split; [reflexivity|]. split; [reflexivity | cbn; first [exact H | reflexivity]].
      - eexists. split; [reflexivity|]. split; [reflexivity | cbn; first [exact H | reflexivity]]. }
    destruct S as (d1 & -> & Q1 & T1).
    destruct (IH d1 T1 E) as (d' & R & Q' & T').
    exists d'. repeat split; congruence.
Qed.

Lemma describer_waits_for_timeout_witness :
  (TemperatureIncreasingDescriber.tooSoonForNextAlert
     (TemperatureIncreasingDescriber.alertMaxTemp
        (TemperatureIncreasingDescriber.construct 1)) = true /\
   forallb (fun e => negb (TemperatureIncreasingDescriber.is_timeout e))
     [TemperatureIncreasingDescriber.Amplitude 5;
      TemperatureIncreasingDescriber.EndDrag 10;
      TemperatureIncreasingDescriber.Amplitude 9] = true) /\
  exists d',
    TemperatureIncreasingDescriber.run 7 1000
      (TemperatureIncreasingDescriber.alertMaxTemp
         (TemperatureIncreasingDescriber.construct 1))
      [TemperatureIncreasingDescriber.Amplitude 5;
       TemperatureIncreasingDescriber.EndDrag 10;
       TemperatureIncreasingDescriber.Amplitude 9] = Some d' /\
    TemperatureIncreasingDescriber.utteranceQueue d'
    = [TemperatureIncreasingDescriber.MaxTemp] /\
    TemperatureIncreasingDescriber.tooSoonForNextAlert d' = true.
Proof.
  split; [split; reflexivity|].
  apply (describer_waits_for_timeout 7 1000
           (TemperatureIncreasingDescriber.alertMaxTemp
              (TemperatureIncreasingDescriber.construct 1))
           [TemperatureIncreasingDescriber.Amplitude 5;
            TemperatureIncreasingDescriber.EndDrag 10;
            TemperatureIncreasingDescriber.Amplitude 9]); reflexivity.
Defined.

Lemma describer_jiggles_app q u :
  TemperatureIncreasingDescriber.jiggles (q ++ [u])
  = TemperatureIncreasingDescriber.jiggles q
    ++ match u with
       | TemperatureIncreasingDescriber.Jiggle o => [o]
       | TemperatureIncreasingDescriber.MaxTemp => []
       end.
Proof.
  unfold TemperatureIncreasingDescriber.jiggles. rewrite omap_app.
  destruct u; reflexivity.
Qed.

(** X16.  Within a drag session the wording gets hotter and then stays.
    Along any run without a [startDrag], from a state whose alert index is
    [i >= -1], the alerts of rising temperature that the run adds use, in
    order, the entries [min (i + 1) 2], [min (i + 2) 2], ... of the table:
    after a fresh start "more, warmer", then "faster, now hotter", then
    "even faster, even hotter" for every alert that follows. *)
Theorem describer_wording_escalates limit threshold d0 events d :
  (-1 <= TemperatureIncreasingDescriber.alertIndex d0)%Z ->
  forallb (fun e => negb (TemperatureIncreasingDescriber.is_startDrag e)) events = true ->
  TemperatureIncreasingDescriber.run limit threshold d0 events = Some d ->
  exists new,
    TemperatureIncreasingDescriber.jiggles (TemperatureIncreasingDescriber.utteranceQueue d)
    = TemperatureIncreasingDescriber.jiggles
        (TemperatureIncreasingDescriber.utteranceQueue d0) ++ new /\
    TemperatureIncreasingDescriber.alertIndex d
    = (TemperatureIncreasingDescriber.alertIndex d0 + Z.of_nat (length new))%Z /\
    forall j o, new !! j = Some o ->
      TemperatureIncreasingDescriber.index TemperatureIncreasingDescriber.INCREASING
        (Z.min (TemperatureIncreasingDescriber.alertIndex d0 + 1 + Z.of_nat j) 2)
      = Some o.
Proof.
  revert d0. induction events as [|e events IH]; intros d0 H E R.
  - cbn in R. injection R as <-. exists []. rewrite app_nil_r.
    split; [reflexivity|]. split; [cbn; lia | intros j o; discriminate].
  - cbn [forallb] in E. apply andb_true_iff in E as [E0 E].
    cbn [TemperatureIncreasingDescriber.run] in R.
    assert (S : exists d1 first,
               TemperatureIncreasingDescriber.handle limit threshold d0 e = Some d1 /\
               TemperatureIncreasingDescriber.jiggles
                 (TemperatureIncreasingDescriber.utteranceQueue d1)
               = TemperatureIncreasingDescriber.jiggles
                   (TemperatureIncreasingDescriber.utteranceQueue d0) ++ first /\
               TemperatureIncreasingDescriber.alertIndex d1
               = (TemperatureIncreasingDescriber.alertIndex d0
                  + Z.of_nat (length first))%Z /\
               (first = [] \/
                exists o, first = [o] /\
                  TemperatureIncreasingDescriber.index
                    TemperatureIncreasingDescriber.INCREASING
                    (Z.min (TemperatureIncreasingDescriber.alertIndex d0 + 1) 2)
                  = Some o)).
    { destruct e as [a|t|t| |]; try discriminate;
        cbn [TemperatureIncreasingDescriber.handle];
        unfold TemperatureIncreasingDescriber.reset.
      - unfold TemperatureIncreasingDescriber.amplitudeListener. cbn zeta.
        set (d1 := TemperatureIncreasingDescriber.mk _ _ _ _ a _).
        destruct (_ && _).
        + destruct (Qlt_bool a limit).
          * destruct (describer_alertIncrease d1 H) as (o & Ho & ->).
            eexists. exists [o]. split; [reflexivity|].
            cbn [TemperatureIncreasingDescriber.utteranceQueue
                   TemperatureIncreasingDescriber.alertIndex].
            rewrite describer_jiggles_app.
            split; [reflexivity|]. split; [reflexivity|]. right. now exists o.
          * eexists. exists []. split; [reflexivity|].
            unfold TemperatureIncreasingDescriber.alertMaxTemp,
              TemperatureIncreasingDescriber.alert.
            cbn [TemperatureIncreasingDescriber.utteranceQueue
                   TemperatureIncreasingDescriber.alertIndex].
            rewrite describer_jiggles_app.
            split; [reflexivity|]. split; [cbn; lia | now left].
        + exists d1, []. rewrite app_nil_r.
          split; [reflexivity|]. split; [reflexivity|]. split; [cbn; lia | now left].
      - eexists. exists []. rewrite app_nil_r.
        split; [reflexivity|]. split; [reflexivity|]. split; [cbn; lia | now left].
      - eexists. exists []. rewrite app_nil_r.
        split; [reflexivity|]. split; [reflexivity|]. split; [cbn; lia | now left].
      - eexists. exists []. rewrite app_nil_r.
        split; [reflexivity|]. split; [reflexivity|]. split; [cbn; lia | now left]. }
    destruct S as (d1 & first & Hh & J1 & I1 & F).
    rewrite Hh in R.
    destruct (IH d1 ltac:(lia) E R) as (new & J & I & W).
    exists (first ++ new). rewrite J, J1, app_assoc, length_app.
    split; [reflexivity|]. split; [lia|].
    intros j o L. destruct F as [-> | (o1 & -> & Ho1)].
    + cbn in L, I1. specialize (W j o L).
      replace (TemperatureIncreasingDescriber.alertIndex d0 + 1 + Z.of_nat j)%Z
        with (TemperatureIncreasingDescriber.alertIndex d1 + 1 + Z.of_nat j)%Z by lia.
      exact W.
    + destruct j as [|j].
      * cbn in L. injection L as <-. rewrite Z.add_0_r. exact Ho1.
      * cbn in L, I1. specialize (W j o L).
        replace (TemperatureIncreasingDescriber.alertIndex d0 + 1 + Z.of_nat (S j))%Z
          with (TemperatureIncreasingDescriber.alertIndex d1 + 1 + Z.of_nat j)%Z by lia.
        exact W.
Qed.

Lemma describer_wording_escalates_witness :
  exists new,
    TemperatureIncreasingDescriber.jiggles
      [TemperatureIncreasingDescriber.Jiggle
         (TemperatureIncreasingDescriber.mkAlert
            TemperatureIncreasingDescriber.moreString
            TemperatureIncreasingDescriber.warmerString);
       TemperatureIncreasingDescriber.Jiggle
         (TemperatureIncreasingDescriber.mkAlert
            TemperatureIncreasingDescriber.fasterString
            TemperatureIncreasingDescriber.nowHotterString)]
    = TemperatureIncreasingDescriber.jiggles [] ++ new /\
    (1 = -1 + Z.of_nat (length new))%Z /\
    forall j o, new !! j = Some o ->
      TemperatureIncreasingDescriber.index TemperatureIncreasingDescriber.INCREASING
        (Z.min (-1 + 1 + Z.of_nat j) 2)
      = Some o.
Proof.
  apply (describer_wording_escalates 7 1000
           (TemperatureIncreasingDescriber.construct 1)
           [TemperatureIncreasingDescriber.Amplitude 3;
            TemperatureIncreasingDescriber.Timeout;
            TemperatureIncreasingDescriber.Amplitude 5]
           (TemperatureIncreasingDescriber.mk 0 5 1 true 5
              [TemperatureIncreasingDescriber.Jiggle
                 (TemperatureIncreasingDescriber.mkAlert
                    TemperatureIncreasingDescriber.moreString
                    TemperatureIncreasingDescriber.warmerString);
               TemperatureIncreasingDescriber.Jiggle
                 (TemperatureIncreasingDescriber.mkAlert
                    TemperatureIncreasingDescriber.fasterString
                    TemperatureIncreasingDescriber.nowHotterString)])).
  - cbn. lia.
  - reflexivity.
  - reflexivity.
Defined.

(** * The sound of rubbing *)

Ltac rub_fields :=
  cbn [BookRubSoundGenerator.topBookXVelocityProperty
       BookRubSoundGenerator.timeOfLastXVelocityUpdate
       BookRubSoundGenerator.rubSoundLockedOutProperty
       BookRubSoundGenerator.rubSoundLockoutCounter
       BookRubSoundGenerator.centerFrequency
       BookRubSoundGenerator.outputLevel
       BookRubSoundGenerator.contactProperty
       BookRubSoundGenerator.multilink
       BookRubSoundGenerator.with_time] in *.

Lemma rub_ok_construct contact :
  BookRubSoundGenerator.ok (BookRubSoundGenerator.construct contact).
Proof.
  split; try (destruct contact; reflexivity); cbn; intros H; discriminate H.
Qed.

Lemma rub_lockedOut_set b g :
  let g' := BookRubSoundGenerator.rubSoundLockedOutProperty_set b g in
  BookRubSoundGenerator.rubSoundLockedOutProperty g' = b /\
  BookRubSoundGenerator.topBookXVelocityProperty g'
  = BookRubSoundGenerator.topBookXVelocityProperty g /\
  BookRubSoundGenerator.centerFrequency g' = BookRubSoundGenerator.centerFrequency g /\
  BookRubSoundGenerator.rubSoundLockoutCounter g'
  = BookRubSoundGenerator.rubSoundLockoutCounter g /\
  BookRubSoundGenerator.contactProperty g' = BookRubSoundGenerator.contactProperty g /\
  (BookRubSoundGenerator.outputLevel g = BookRubSoundGenerator.expectedLevel g ->
   BookRubSoundGenerator.outputLevel g' = BookRubSoundGenerator.expectedLevel g').
Proof.
  cbn zeta. unfold BookRubSoundGenerator.rubSoundLockedOutProperty_set.
  destruct (Bool.eqb b _) eqn:E.
  - apply Bool.eqb_prop in E. repeat split; auto.
  - repeat split.
Qed.

Lemma rub_changeDirection frequency g :
  let g' := BookRubSoundGenerator.changeDirection frequency g in
  BookRubSoundGenerator.rubSoundLockedOutProperty g' = true /\
  BookRubSoundGenerator.rubSoundLockoutCounter g'
  = BookRubSoundGenerator.DIRECTION_SWITCH_LOCKOUT_TIME /\
  BookRubSoundGenerator.centerFrequency g' = frequency /\
  BookRubSoundGenerator.topBookXVelocityProperty g'
  = BookRubSoundGenerator.topBookXVelocityProperty g /\
  BookRubSoundGenerator.contactProperty g' = BookRubSoundGenerator.contactProperty g.
Proof.
  cbn zeta. unfold BookRubSoundGenerator.changeDirection.
  match goal with
  | |- context [BookRubSoundGenerator.rubSoundLockedOutProperty_set true ?g0] =>
      destruct (rub_lockedOut_set true g0) as (A1 & A2 & A3 & A4 & A5 & _)
  end.
  cbn zeta in *. rub_fields. repeat split; assumption.
Qed.

(** What the velocity listener does to the lockout: it starts one, or leaves
    the flag and the counter alone. *)
Lemma rub_velocityListener velocity previousVelocity g :
  let g' := BookRubSoundGenerator.velocityListener velocity previousVelocity g in
  BookRubSoundGenerator.topBookXVelocityProperty g'
  = BookRubSoundGenerator.topBookXVelocityProperty g /\
  BookRubSoundGenerator.contactProperty g' = BookRubSoundGenerator.contactProperty g /\
  ((BookRubSoundGenerator.rubSoundLockedOutProperty g' = true /\
    BookRubSoundGenerator.rubSoundLockoutCounter g'
    = BookRubSoundGenerator.DIRECTION_SWITCH_LOCKOUT_TIME) \/
   (BookRubSoundGenerator.rubSoundLockedOutProperty g'
    = BookRubSoundGenerator.rubSoundLockedOutProperty g /\
    BookRubSoundGenerator.rubSoundLockoutCounter g'
    = BookRubSoundGenerator.rubSoundLockoutCounter g)).
Proof.
  cbn zeta. unfold BookRubSoundGenerator.velocityListener.
  destruct (_ && _);
    [|destruct (_ && _)];
    try (match goal with
         | |- context [BookRubSoundGenerator.changeDirection ?f ?g0] =>
             destruct (rub_changeDirection f g0) as (A1 & A2 & A3 & A4 & A5)
         end; cbn zeta in *; repeat split; auto).
  repeat split; auto.
Qed.

(** Setting the velocity keeps what the generator keeps true. *)
Lemma rub_ok_velocity_set v g :
  BookRubSoundGenerator.ok g ->
  BookRubSoundGenerator.ok (BookRubSoundGenerator.topBookXVelocityProperty_set v g).
Proof.
  intros [L K C].
  unfold BookRubSoundGenerator.topBookXVelocityProperty_set.
  destruct (BookRubSoundGenerator.same v _); [split; assumption|].
  cbn zeta.
  match goal with
  | |- context [BookRubSoundGenerator.velocityListener ?a ?b ?g0] =>
      destruct (rub_velocityListener a b g0) as (_ & _ & [[A1 A2] | [A1 A2]])
  end; cbn zeta in *; rub_fields; split; rub_fields; try reflexivity.
  - rewrite A1, A2. reflexivity.
  - rewrite A2. discriminate.
  - rewrite A1, A2. exact K.
  - rewrite A2. exact C.
Qed.

Lemma rub_ok_with_time now g :
  BookRubSoundGenerator.ok g ->
  BookRubSoundGenerator.ok (BookRubSoundGenerator.with_time now g).
Proof. intros []. split; assumption. Qed.

(** Setting the velocity to 0 leaves the lockout and the filter alone. *)
Lemma rub_settle g :
  let g1 := BookRubSoundGenerator.topBookXVelocityProperty_set
              (BookRubSoundGenerator.Finite 0) g in
  BookRubSoundGenerator.rubSoundLockedOutProperty g1
  = BookRubSoundGenerator.rubSoundLockedOutProperty g /\
  BookRubSoundGenerator.rubSoundLockoutCounter g1
  = BookRubSoundGenerator.rubSoundLockoutCounter g /\
  BookRubSoundGenerator.centerFrequency g1 = BookRubSoundGenerator.centerFrequency g /\
  (g1 = g \/
   BookRubSoundGenerator.topBookXVelocityProperty g1 = BookRubSoundGenerator.Finite 0).
Proof.
  cbn zeta. unfold BookRubSoundGenerator.topBookXVelocityProperty_set.
  destruct (BookRubSoundGenerator.same _ _); [repeat split; now left|].
  cbn zeta. unfold BookRubSoundGenerator.velocityListener.
  change (BookRubSoundGenerator.positive (BookRubSoundGenerator.Finite 0)) with false.
  change (BookRubSoundGenerator.negative (BookRubSoundGenerator.Finite 0)) with false.
  cbn [andb]. rub_fields. repeat split; now right.
Qed.

(** The second half of [step], the countdown. *)
Lemma rub_countdown dt g :
  BookRubSoundGenerator.ok g ->
  let g' :=
    if Qlt_bool 0 (BookRubSoundGenerator.rubSoundLockoutCounter g) then
      let counter := Qmax (BookRubSoundGenerator.rubSoundLockoutCounter g - dt) 0 in
      let g := BookRubSoundGenerator.mk
                 (BookRubSoundGenerator.topBookXVelocityProperty g)
                 (BookRubSoundGenerator.timeOfLastXVelocityUpdate g)
                 (BookRubSoundGenerator.rubSoundLockedOutProperty g) counter
                 (BookRubSoundGenerator.centerFrequency g)
                 (BookRubSoundGenerator.outputLevel g)
                 (BookRubSoundGenerator.contactProperty g) in
      if Qeq_bool counter 0
      then BookRubSoundGenerator.rubSoundLockedOutProperty_set false g else g
    else g in
  BookRubSoundGenerator.ok g' /\
  BookRubSoundGenerator.topBookXVelocityProperty g'
  = BookRubSoundGenerator.topBookXVelocityProperty g /\
  BookRubSoundGenerator.centerFrequency g' = BookRubSoundGenerator.centerFrequency g /\
  (BookRubSoundGenerator.rubSoundLockedOutProperty g' = true <->
   BookRubSoundGenerator.rubSoundLockedOutProperty g = true /\
   dt < BookRubSoundGenerator.rubSoundLockoutCounter g) /\
  (0 <= dt ->
   BookRubSoundGenerator.rubSoundLockoutCounter g'
   <= BookRubSoundGenerator.rubSoundLockoutCounter g).
Proof.
  intros [L K C]. cbn zeta.
  destruct (Qlt_bool 0 (BookRubSoundGenerator.rubSoundLockoutCounter g)) eqn:P.
  - set (c := Qmax (BookRubSoundGenerator.rubSoundLockoutCounter g - dt) 0).
    set (g2 := BookRubSoundGenerator.mk _ _ _ c _ _ _).
    assert (L2 : BookRubSoundGenerator.outputLevel g2
                 = BookRubSoundGenerator.expectedLevel g2) by exact L.
    assert (Hc : 0 <= c) by apply Q.le_max_r.
    assert (Mc : 0 <= dt -> c <= BookRubSoundGenerator.rubSoundLockoutCounter g).
    { intros Hdt. subst c. apply Q.max_lub; lra. }
    apply Qlt_bool_iff in P.
    destruct (Qeq_bool c 0) eqn:Z.
    + apply Qeq_bool_iff in Z.
      destruct (rub_lockedOut_set false g2) as (B1 & B2 & B3 & B4 & B5 & B6).
      cbn zeta in *. rewrite B1, B2, B3, B4. subst g2. rub_fields.
      split; [|split; [reflexivity | split; [reflexivity | split; [|exact Mc]]]].
      * split; rub_fields; [now apply B6 | | ].
        -- rewrite B1, B4. rub_fields. symmetry. apply Qlt_bool_false. lra.
        -- rewrite B4. exact Hc.
      * split; [discriminate|]. intros [_ D]. exfalso.
        assert (0 < BookRubSoundGenerator.rubSoundLockoutCounter g - dt) by lra.
        pose proof (Q.le_max_l (BookRubSoundGenerator.rubSoundLockoutCounter g - dt) 0).
        fold c in H0. lra.
    + apply Qeq_bool_neq in Z. subst g2. rub_fields.
      assert (Pc : 0 < c).
      { destruct (Qle_lt_or_eq _ _ Hc) as [G | G]; [exact G|].
        exfalso. apply Z. now symmetry. }
      split; [|split; [reflexivity | split; [reflexivity | split; [|exact Mc]]]].
      * split; rub_fields; auto.
        rewrite K. symmetry. now apply Qlt_bool_iff.
      * rewrite K. split.
        -- intros _. split; [reflexivity|].
           destruct (Qlt_le_dec dt (BookRubSoundGenerator.rubSoundLockoutCounter g))
             as [G | G]; [exact G|]. exfalso.
           assert (c == 0) by (subst c; apply Q.max_r; lra). lra.
        -- intros _. reflexivity.
  - split; [split; [assumption | now rewrite P | assumption]|].
    split; [reflexivity|]. split; [reflexivity|]. split; [|intros; apply Qle_refl].
    rewrite K. split; [discriminate | intros [H _]; discriminate H].
Qed.

Lemma rub_ok_step dt now g :
  BookRubSoundGenerator.ok g ->
  BookRubSoundGenerator.ok (BookRubSoundGenerator.step dt now g).
Proof.
  intros H. unfold BookRubSoundGenerator.step.
  set (g1 := if _ && _ then _ else g).
  assert (H1 : BookRubSoundGenerator.ok g1).
  { subst g1. destruct (_ && _); [|exact H].
    now apply rub_ok_with_time, rub_ok_velocity_set. }
  exact (proj1 (rub_countdown dt g1 H1)).
Qed.

Lemma rub_ok_contact_set b g :
  BookRubSoundGenerator.ok g ->
  BookRubSoundGenerator.ok (BookRubSoundGenerator.contactProperty_set b g).
Proof.
  intros [L K C]. unfold BookRubSoundGenerator.contactProperty_set.
  destruct (Bool.eqb b _); split; rub_fields; auto.
Qed.

Lemma rub_ok_handle g e :
  BookRubSoundGenerator.ok g ->
  BookRubSoundGenerator.ok (BookRubSoundGenerator.handle g e).
Proof.
  intros H. destruct e as [p q now|b|dt now]; cbn.
  - now apply rub_ok_with_time, rub_ok_velocity_set.
  - now apply rub_ok_contact_set.
  - now apply rub_ok_step.
Qed.

Lemma rub_ok_run g events :
  BookRubSoundGenerator.ok g ->
  BookRubSoundGenerator.ok (BookRubSoundGenerator.run g events).
Proof.
  revert g. induction events as [|e events IH]; intros g H; [exact H|].
  cbn. apply IH. now apply rub_ok_handle.
Qed.

(** X17.  The rubbing sound never outlives its cause.  After any sequence
    of position changes, contact changes and steps, the level last passed to
    [setOutputLevel] is the one the current velocity, contact and lockout
    ask for: it is silent whenever the books are apart, whenever the sound
    is locked out, whenever the book is still and whenever the velocity is
    not a number. *)
Theorem rub_sound_follows_state contact events :
  let g := BookRubSoundGenerator.run (BookRubSoundGenerator.construct contact) events in
  BookRubSoundGenerator.outputLevel g = BookRubSoundGenerator.expectedLevel g /\
  (BookRubSoundGenerator.contactProperty g = false ->
   BookRubSoundGenerator.outputLevel g = BookRubSoundGenerator.silent) /\
  (BookRubSoundGenerator.rubSoundLockedOutProperty g = true ->
   BookRubSoundGenerator.outputLevel g = BookRubSoundGenerator.silent) /\
  (BookRubSoundGenerator.isZero (BookRubSoundGenerator.topBookXVelocityProperty g)
   = true ->
   BookRubSoundGenerator.outputLevel g = BookRubSoundGenerator.silent) /\
  (BookRubSoundGenerator.isNaN (BookRubSoundGenerator.topBookXVelocityProperty g)
   = true ->
   BookRubSoundGenerator.outputLevel g = BookRubSoundGenerator.silent).
Proof.
  cbn zeta.
  destruct (rub_ok_run _ events (rub_ok_construct contact)) as [L _ _].
  split; [exact L|]. rewrite L. unfold BookRubSoundGenerator.expectedLevel.
  split; [intros ->; reflexivity|]. split; [|split].
  - intros ->. now rewrite andb_false_r.
  - destruct (BookRubSoundGenerator.topBookXVelocityProperty _) as [|n|q];
      try discriminate.
    cbn. intros Z. apply Qeq_bool_iff in Z.
    assert (F : Qlt_bool 0 (Qabs q) = false).
    { apply Qlt_bool_false. rewrite (Qabs_wd _ _ Z). discriminate. }
    rewrite F. now rewrite andb_false_r.
  - destruct (BookRubSoundGenerator.topBookXVelocityProperty _) as [|n|q];
      try discriminate.
    intros _. cbn. now rewrite andb_false_r.
Qed.

(** ** The filter *)

Lemma rub_direction a :
  BookRubSoundGenerator.isNaN a = false ->
  (BookRubSoundGenerator.positive a = true ->
   BookRubSoundGenerator.negative a = false /\ BookRubSoundGenerator.isZero a = false) /\
  (BookRubSoundGenerator.negative a = true ->
   BookRubSoundGenerator.positive a = false /\ BookRubSoundGenerator.isZero a = false) /\
  (BookRubSoundGenerator.isZero a = false ->
   BookRubSoundGenerator.negative a = false ->
   BookRubSoundGenerator.positive a = true).
Proof.
  destruct a as [|[|]|q]; cbn; try discriminate; intros _;
    repeat split; try discriminate; try reflexivity.
  - apply Qlt_bool_false. apply Qlt_bool_iff in H. lra.
  - apply Qlt_bool_iff in H.
    destruct (Qeq_bool q 0) eqn:E; [|reflexivity].
    apply Qeq_bool_iff in E. exfalso. lra.
  - apply Qlt_bool_false. apply Qlt_bool_iff in H. lra.
  - apply Qlt_bool_iff in H.
    destruct (Qeq_bool q 0) eqn:E; [|reflexivity].
    apply Qeq_bool_iff in E. exfalso. lra.
  - intros Z N. apply Qeq_bool_neq in Z. apply Qlt_bool_false in N.
    apply Qlt_bool_iff. destruct (Qle_lt_or_eq _ _ N) as [G | G]; [exact G|].
    exfalso. apply Z. now symmetry.
Qed.

Lemma rub_tuned_velocity_set v g :
  BookRubSoundGenerator.isNaN v = false ->
  BookRubSoundGenerator.tuned g ->
  BookRubSoundGenerator.tuned (BookRubSoundGenerator.topBookXVelocityProperty_set v g).
Proof.
  intros Nv [Ng R Lf].
  destruct (rub_direction v Nv) as (Dp & Dn & _).
  destruct (rub_direction (BookRubSoundGenerator.topBookXVelocityProperty g) Ng)
    as (Gp & Gn & Gz).
  unfold BookRubSoundGenerator.topBookXVelocityProperty_set.
  destruct (BookRubSoundGenerator.same v _); [split; assumption|].
  cbn zeta. unfold BookRubSoundGenerator.velocityListener.
  set (prev := BookRubSoundGenerator.topBookXVelocityProperty g) in *.
  set (g1 := BookRubSoundGenerator.mk v _ _ _ _ _ _).
  destruct (BookRubSoundGenerator.positive v) eqn:P;
    destruct (BookRubSoundGenerator.negative v) eqn:N;
    destruct (BookRubSoundGenerator.isZero prev) eqn:Zp;
    destruct (BookRubSoundGenerator.negative prev) eqn:Np;
    destruct (BookRubSoundGenerator.positive prev) eqn:Pp;
    cbn [andb orb];
    try (destruct (Dp eq_refl) as [X _]; discriminate X);
    try match goal with
        | |- context [BookRubSoundGenerator.changeDirection ?f ?g0] =>
            destruct (rub_changeDirection f g0) as (_ & _ & A3 & A4 & _);
            cbn zeta in A3, A4
        end;
    split; rub_fields;
    try (rewrite A4; subst g1; rub_fields);
    try (subst g1; rub_fields);
    try exact Nv; rewrite ?P, ?N; try discriminate;
    try (intros _; rewrite A3; reflexivity);
    try (intros _; now apply R); try (intros _; now apply Lf).
  all: try (exfalso; pose proof (Gz eq_refl eq_refl) as X; discriminate X).
Qed.

Lemma rub_quotient dx now last :
  BookRubSoundGenerator.isNaN (BookRubSoundGenerator.quotient dx now last) = true <->
  dx == 0 /\ exists l, last = Some l /\ now == l.
Proof.
  unfold BookRubSoundGenerator.quotient.
  destruct last as [l|]; [|split; [discriminate | intros (_ & l & X & _); discriminate X]].
  destruct (Qeq_bool (now - l) 0) eqn:E;
    [apply Qeq_bool_iff in E | apply Qeq_bool_neq in E].
  - destruct (Qlt_bool 0 dx) eqn:P;
      [apply Qlt_bool_iff in P | apply Qlt_bool_false in P].
    { split; [discriminate | intros [D _]; exfalso; lra]. }
    destruct (Qlt_bool dx 0) eqn:N;
      [apply Qlt_bool_iff in N | apply Qlt_bool_false in N].
    { split; [discriminate | intros [D _]; exfalso; lra]. }
    split; [intros _ | reflexivity].
    split; [lra|]. exists l. split; [reflexivity | lra].
  - split; [discriminate|]. intros (_ & l' & X & Y). injection X as <-.
    exfalso. apply E. lra.
Qed.

Lemma rub_tuned_handle g e :
  BookRubSoundGenerator.ok g ->
  BookRubSoundGenerator.numeric g e = true ->
  BookRubSoundGenerator.tuned g ->
  BookRubSoundGenerator.tuned (BookRubSoundGenerator.handle g e).
Proof.
  intros H N T. destruct e as [p q now|b|dt now]; cbn in *.
  - apply negb_true_iff in N.
    destruct (rub_tuned_velocity_set _ g N T) as [A B C].
    split; assumption.
  - unfold BookRubSoundGenerator.contactProperty_set.
    destruct (Bool.eqb b _); [exact T|]. destruct T. split; assumption.
  - unfold BookRubSoundGenerator.step.
    set (g1 := if _ && _ then _ else g).
    assert (H1 : BookRubSoundGenerator.ok g1).
    { subst g1. destruct (_ && _); [|exact H].
      now apply rub_ok_with_time, rub_ok_velocity_set. }
    assert (T1 : BookRubSoundGenerator.tuned g1).
    { subst g1. destruct (_ && _); [|exact T].
      destruct (rub_tuned_velocity_set (BookRubSoundGenerator.Finite 0) g eq_refl T)
        as [A B C].
      split; assumption. }
    destruct (rub_countdown dt g1 H1) as (_ & V & F & _). cbn zeta in V, F.
    destruct T1 as [A B C]. split; rewrite ?V, ?F; assumption.
Qed.

Lemma rub_tuned_run events g :
  BookRubSoundGenerator.ok g ->
  BookRubSoundGenerator.regular g events = true ->
  BookRubSoundGenerator.tuned g ->
  BookRubSoundGenerator.tuned (BookRubSoundGenerator.run g events).
Proof.
  revert g. induction events as [|e events IH]; intros g H R T; [exact T|].
  cbn in R. apply andb_true_iff in R as [N R].
  cbn. apply IH; [now apply rub_ok_handle | exact R | now apply rub_tuned_handle].
Qed.

(** X18.  The filter follows the direction, as long as every velocity is a
    number.  After any sequence of events none of which stores the [NaN] of
    a change of position that keeps [x] at the clock reading of the last
    update, the centre frequency of the filter is 1150 Hz while the book
    moves to the right, and 850 Hz while it moves to the left: 15 percent
    above and below the centre of 1000 Hz. *)
Theorem rub_filter_follows_direction contact events :
  BookRubSoundGenerator.regular (BookRubSoundGenerator.construct contact) events
  = true ->
  let g := BookRubSoundGenerator.run (BookRubSoundGenerator.construct contact) events in
  (BookRubSoundGenerator.positive (BookRubSoundGenerator.topBookXVelocityProperty g)
   = true ->
   BookRubSoundGenerator.centerFrequency g == 1150) /\
  (BookRubSoundGenerator.negative (BookRubSoundGenerator.topBookXVelocityProperty g)
   = true ->
   BookRubSoundGenerator.centerFrequency g == 850).
Proof.
  intros R. cbn zeta.
  assert (T : BookRubSoundGenerator.tuned (BookRubSoundGenerator.construct contact))
    by (split; [reflexivity | discriminate | discriminate]).
  destruct (rub_tuned_run events _ (rub_ok_construct contact) R T) as [_ A B].
  split; assumption.
Qed.

Lemma rub_filter_follows_direction_witness :
  BookRubSoundGenerator.regular (BookRubSoundGenerator.construct true)
    [BookRubSoundGenerator.Position (Vector2.mk 1 0) (Vector2.mk 0 0) 10;
     BookRubSoundGenerator.Position (Vector2.mk 3 0) (Vector2.mk 1 0) 11] = true /\
  BookRubSoundGenerator.centerFrequency
    (BookRubSoundGenerator.run (BookRubSoundGenerator.construct true)
       [BookRubSoundGenerator.Position (Vector2.mk 1 0) (Vector2.mk 0 0) 10;
        BookRubSoundGenerator.Position (Vector2.mk 3 0) (Vector2.mk 1 0) 11])
  == 1150.
Proof.
  assert (R : BookRubSoundGenerator.regular (BookRubSoundGenerator.construct true)
                [BookRubSoundGenerator.Position (Vector2.mk 1 0) (Vector2.mk 0 0) 10;
                 BookRubSoundGenerator.Position (Vector2.mk 3 0) (Vector2.mk 1 0) 11]
              = true) by (vm_compute; reflexivity).
  split; [exact R|].
  apply (rub_filter_follows_direction true
           [BookRubSoundGenerator.Position (Vector2.mk 1 0) (Vector2.mk 0 0) 10;
            BookRubSoundGenerator.Position (Vector2.mk 3 0) (Vector2.mk 1 0) 11] R).
  vm_compute. reflexivity.
Defined.

(** The first change of position of a run gives the velocity 0, whatever the
    displacement: the time of the last update is [Number.NEGATIVE_INFINITY].
    And a [NaN] breaks the tie of the filter to the direction: the book
    moves to the left (850 Hz), then down without a tick of the clock
    ([0 / 0]), then to the right, and the filter stays at 850 Hz. *)
Example rub_filter_after_NaN :
  BookRubSoundGenerator.topBookXVelocityProperty
    (BookRubSoundGenerator.run (BookRubSoundGenerator.construct true)
       [BookRubSoundGenerator.Position (Vector2.mk 5 0) (Vector2.mk 0 0) 10])
  = BookRubSoundGenerator.Finite 0 /\
  let g := BookRubSoundGenerator.run (BookRubSoundGenerator.construct true)
             [BookRubSoundGenerator.Position (Vector2.mk 5 0) (Vector2.mk 0 0) 10;
              BookRubSoundGenerator.Position (Vector2.mk 4 0) (Vector2.mk 5 0) 11;
              BookRubSoundGenerator.Position (Vector2.mk 4 1) (Vector2.mk 4 0) 11;
              BookRubSoundGenerator.Position (Vector2.mk 6 1) (Vector2.mk 4 1) 12] in
  BookRubSoundGenerator.positive (BookRubSoundGenerator.topBookXVelocityProperty g)
  = true /\
  BookRubSoundGenerator.centerFrequency g == 850.
Proof. vm_compute. repeat split. Qed.

(** ** The lockout *)

Lemma rub_counter_handle g e :
  BookRubSoundGenerator.ok g ->
  BookRubSoundGenerator.timed e ->
  BookRubSoundGenerator.rubSoundLockoutCounter g
  <= BookRubSoundGenerator.DIRECTION_SWITCH_LOCKOUT_TIME ->
  BookRubSoundGenerator.rubSoundLockoutCounter (BookRubSoundGenerator.handle g e)
  <= BookRubSoundGenerator.DIRECTION_SWITCH_LOCKOUT_TIME.
Proof.
  intros H Te B. destruct e as [p q now|b|dt now]; cbn in *.
  - unfold BookRubSoundGenerator.topBookXVelocityProperty_set.
    destruct (BookRubSoundGenerator.same _ _); [exact B|]. cbn zeta. rub_fields.
    match goal with
    | |- context [BookRubSoundGenerator.velocityListener ?a ?b ?g0] =>
        destruct (rub_velocityListener a b g0) as (_ & _ & [[_ A] | [_ A]])
    end; cbn zeta in A; rewrite A; [apply Qle_refl | exact B].
  - unfold BookRubSoundGenerator.contactProperty_set.
    destruct (Bool.eqb b _); exact B.
  - unfold BookRubSoundGenerator.step.
    set (g1 := if _ && _ then _ else g).
    assert (H1 : BookRubSoundGenerator.ok g1).
    { subst g1. destruct (_ && _); [|exact H].
      now apply rub_ok_with_time, rub_ok_velocity_set. }
    assert (B1 : BookRubSoundGenerator.rubSoundLockoutCounter g1
                 <= BookRubSoundGenerator.DIRECTION_SWITCH_LOCKOUT_TIME).
    { subst g1. destruct (_ && _); [|exact B]. rub_fields.
      destruct (rub_settle g) as (_ & -> & _). exact B. }
    destruct (rub_countdown dt g1 H1) as (_ & _ & _ & _ & M). cbn zeta in M.
    eapply Qle_trans; [apply (M Te) | exact B1].
Qed.

Lemma rub_counter_run events g :
  BookRubSoundGenerator.ok g ->
  Forall BookRubSoundGenerator.timed events ->
  BookRubSoundGenerator.rubSoundLockoutCounter g
  <= BookRubSoundGenerator.DIRECTION_SWITCH_LOCKOUT_TIME ->
  BookRubSoundGenerator.rubSoundLockoutCounter (BookRubSoundGenerator.run g events)
  <= BookRubSoundGenerator.DIRECTION_SWITCH_LOCKOUT_TIME.
Proof.
  intros H F. revert g H. induction F as [|e events Te _ IH]; intros g H B; [exact B|].
  cbn. apply IH; [now apply rub_ok_handle | now apply rub_counter_handle].
Qed.

(** X19.  A change of direction locks the sound out, and only steps release
    it.  After any sequence of events whose steps take no negative time, the
    sound is locked out exactly when the lockout counter is above 0, and the
    counter is 30 ms at most.  A change of position whose velocity is
    positive while the velocity before is zero or negative locks the sound
    out and sets the counter to 30 ms.  A step leaves the sound locked out
    exactly when it was and the step is shorter than what is left of the
    counter; a change of position or of contact never releases it. *)
Theorem rub_lockout_lasts contact events p q b dt now :
  Forall BookRubSoundGenerator.timed events ->
  let g := BookRubSoundGenerator.run (BookRubSoundGenerator.construct contact) events in
  (BookRubSoundGenerator.rubSoundLockedOutProperty g = true <->
   0 < BookRubSoundGenerator.rubSoundLockoutCounter g) /\
  BookRubSoundGenerator.rubSoundLockoutCounter g
  <= BookRubSoundGenerator.DIRECTION_SWITCH_LOCKOUT_TIME /\
  (BookRubSoundGenerator.positive
     (BookRubSoundGenerator.quotient (Vector2.x p - Vector2.x q) now
        (BookRubSoundGenerator.timeOfLastXVelocityUpdate g)) = true ->
   BookRubSoundGenerator.isZero (BookRubSoundGenerator.topBookXVelocityProperty g)
   || BookRubSoundGenerator.negative (BookRubSoundGenerator.topBookXVelocityProperty g)
   = true ->
   BookRubSoundGenerator.rubSoundLockedOutProperty
     (BookRubSoundGenerator.positionListener p q now g) = true /\
   BookRubSoundGenerator.rubSoundLockoutCounter
     (BookRubSoundGenerator.positionListener p q now g)
   = BookRubSoundGenerator.DIRECTION_SWITCH_LOCKOUT_TIME) /\
  (BookRubSoundGenerator.rubSoundLockedOutProperty
     (BookRubSoundGenerator.step dt now g) = true <->
   BookRubSoundGenerator.rubSoundLockedOutProperty g = true /\
   dt < BookRubSoundGenerator.rubSoundLockoutCounter g) /\
  (BookRubSoundGenerator.rubSoundLockedOutProperty g = true ->
   BookRubSoundGenerator.rubSoundLockedOutProperty
     (BookRubSoundGenerator.positionListener p q now g) = true /\
   BookRubSoundGenerator.rubSoundLockedOutProperty
     (BookRubSoundGenerator.contactProperty_set b g) = true).
Proof.
  intros F. cbn zeta.
  pose proof (rub_ok_run _ events (rub_ok_construct contact)) as H.
  assert (B : BookRubSoundGenerator.rubSoundLockoutCounter
                (BookRubSoundGenerator.run
                   (BookRubSoundGenerator.construct contact) events)
              <= BookRubSoundGenerator.DIRECTION_SWITCH_LOCKOUT_TIME).
  { apply rub_counter_run; [apply rub_ok_construct | exact F | discriminate]. }
  set (g := BookRubSoundGenerator.run _ events) in *. clearbody g.
  split; [|split; [exact B|split; [|split]]].
  - destruct H as [_ K _]. rewrite K. apply Qlt_bool_iff.
  - intros P Z. unfold BookRubSoundGenerator.positionListener. rub_fields.
    set (v := BookRubSoundGenerator.quotient _ _ _) in *.
    unfold BookRubSoundGenerator.topBookXVelocityProperty_set.
    destruct (BookRubSoundGenerator.same v _) eqn:E.
    { exfalso. destruct v as [|m|x];
        destruct (BookRubSoundGenerator.topBookXVelocityProperty g) as [|n|y];
        cbn in *; try discriminate; try (destruct m, n; discriminate).
      apply Qeq_bool_iff in E. apply Qlt_bool_iff in P.
      apply orb_true_iff in Z as [Z | Z];
        [apply Qeq_bool_iff in Z | apply Qlt_bool_iff in Z]; lra. }
    cbn zeta. unfold BookRubSoundGenerator.velocityListener. rub_fields.
    rewrite P, Z. cbn [andb].
    match goal with
    | |- context [BookRubSoundGenerator.changeDirection ?f ?g0] =>
        destruct (rub_changeDirection f g0) as (A1 & A2 & _)
    end.
    cbn zeta in *. split; assumption.
  - unfold BookRubSoundGenerator.step.
    set (g1 := if _ && _ then _ else g).
    assert (H1 : BookRubSoundGenerator.ok g1).
    { subst g1. destruct (_ && _); [|exact H].
      now apply rub_ok_with_time, rub_ok_velocity_set. }
    assert (E : BookRubSoundGenerator.rubSoundLockedOutProperty g1
                = BookRubSoundGenerator.rubSoundLockedOutProperty g /\
                BookRubSoundGenerator.rubSoundLockoutCounter g1
                = BookRubSoundGenerator.rubSoundLockoutCounter g).
    { subst g1. destruct (_ && _); [|split; reflexivity]. rub_fields.
      destruct (rub_settle g) as (-> & -> & _). split; reflexivity. }
    destruct E as [E1 E2].
    destruct (rub_countdown dt g1 H1) as (_ & _ & _ & D & _). cbn zeta in D.
    split; intros X.
    + apply D in X. now rewrite <- E1, <- E2.
    + apply D. now rewrite E1, E2.
  - intros L. split.
    + unfold BookRubSoundGenerator.positionListener. rub_fields.
      unfold BookRubSoundGenerator.topBookXVelocityProperty_set.
      destruct (BookRubSoundGenerator.same _ _); [exact L|]. cbn zeta. rub_fields.
      match goal with
      | |- context [BookRubSoundGenerator.velocityListener ?a ?b ?g0] =>
          destruct (rub_velocityListener a b g0) as (_ & _ & [[A _] | [A _]])
      end; cbn zeta in A; rewrite A; [reflexivity | exact L].
    + unfold BookRubSoundGenerator.contactProperty_set.
      destruct (Bool.eqb b _); exact L.
Qed.

Lemma rub_lockout_lasts_witness :
  Forall BookRubSoundGenerator.timed
    [BookRubSoundGenerator.Position (Vector2.mk 1 0) (Vector2.mk 0 0) 10;
     BookRubSoundGenerator.Position (Vector2.mk 3 0) (Vector2.mk 1 0) 11;
     BookRubSoundGenerator.Step (1 # 100) (1101 # 100)] /\
  (BookRubSoundGenerator.rubSoundLockedOutProperty
     (BookRubSoundGenerator.run (BookRubSoundGenerator.construct true)
        [BookRubSoundGenerator.Position (Vector2.mk 1 0) (Vector2.mk 0 0) 10;
         BookRubSoundGenerator.Position (Vector2.mk 3 0) (Vector2.mk 1 0) 11;
         BookRubSoundGenerator.Step (1 # 100) (1101 # 100)]) = true <->
   0 < BookRubSoundGenerator.rubSoundLockoutCounter
         (BookRubSoundGenerator.run (BookRubSoundGenerator.construct true)
            [BookRubSoundGenerator.Position (Vector2.mk 1 0) (Vector2.mk 0 0) 10;
             BookRubSoundGenerator.Position (Vector2.mk 3 0) (Vector2.mk 1 0) 11;
             BookRubSoundGenerator.Step (1 # 100) (1101 # 100)])).
Proof.
  assert (F : Forall BookRubSoundGenerator.timed
                [BookRubSoundGenerator.Position (Vector2.mk 1 0) (Vector2.mk 0 0) 10;
                 BookRubSoundGenerator.Position (Vector2.mk 3 0) (Vector2.mk 1 0) 11;
                 BookRubSoundGenerator.Step (1 # 100) (1101 # 100)])
    by (repeat constructor; discriminate).
  split; [exact F|].
  exact (proj1 (rub_lockout_lasts true _ Vector2.zero Vector2.zero true 0 0 F)).
Defined.

(** A direction change, then two steps of 10 ms leave the sound locked out;
    a third one releases it. *)
Example rub_lockout_example :
  BookRubSoundGenerator.rubSoundLockedOutProperty
    (BookRubSoundGenerator.run (BookRubSoundGenerator.construct true)
       [BookRubSoundGenerator.Position (Vector2.mk 1 0) (Vector2.mk 0 0) 10;
        BookRubSoundGenerator.Position (Vector2.mk 3 0) (Vector2.mk 1 0) 11;
        BookRubSoundGenerator.Step (1 # 100) (1101 # 100);
        BookRubSoundGenerator.Step (1 # 100) (1102 # 100)]) = true /\
  BookRubSoundGenerator.outputLevel
    (BookRubSoundGenerator.run (BookRubSoundGenerator.construct true)
       [BookRubSoundGenerator.Position (Vector2.mk 1 0) (Vector2.mk 0 0) 10;
        BookRubSoundGenerator.Position (Vector2.mk 3 0) (Vector2.mk 1 0) 11;
        BookRubSoundGenerator.Step (1 # 100) (1101 # 100);
        BookRubSoundGenerator.Step (1 # 100) (1102 # 100);
        BookRubSoundGenerator.Step (1 # 100) (1103 # 100)])
  = BookRubSoundGenerator.rubbing (BookRubSoundGenerator.Finite (2 / (11 - 10))).
Proof. split; vm_compute; reflexivity. Qed.

(** * The sound of cooling *)

Lemma cooling_record_length rate history :
  (length history <= 10)%nat ->
  length (CoolingSoundGenerator.record rate history)
  = Nat.min (S (length history)) 10.
Proof.
  intros H. unfold CoolingSoundGenerator.record,
    CoolingSoundGenerator.AMPLITUDE_AVERAGING_ARRAY_LENGTH.
  cbn zeta. rewrite length_app. cbn [length].
  destruct (Nat.ltb_spec 10 (length history + 1)).
  - rewrite length_drop, length_app. cbn [length]. lia.
  - rewrite length_app. cbn [length]. lia.
Qed.

Lemma cooling_run_length events g :
  (length (CoolingSoundGenerator.amplitudeChangeRateHistory g) <= 10)%nat ->
  length (CoolingSoundGenerator.amplitudeChangeRateHistory
            (CoolingSoundGenerator.run g events))
  = Nat.min (length (CoolingSoundGenerator.amplitudeChangeRateHistory g)
             + CoolingSoundGenerator.stepCount events) 10.
Proof.
  revert g. induction events as [|e events IH]; intros g H.
  - cbn. lia.
  - change (CoolingSoundGenerator.run g (e :: events))
      with (CoolingSoundGenerator.run (CoolingSoundGenerator.handle g e) events).
    destruct e as [a|dt ol ip].
    + rewrite IH by exact H. reflexivity.
    + assert (L : length (CoolingSoundGenerator.amplitudeChangeRateHistory
                            (CoolingSoundGenerator.handle g
                               (CoolingSoundGenerator.Step dt ol ip)))
                  = Nat.min (S (length (CoolingSoundGenerator.amplitudeChangeRateHistory g))) 10)
        by (apply cooling_record_length; exact H).
      rewrite IH by (rewrite L; lia). rewrite L.
      unfold CoolingSoundGenerator.stepCount.
      rewrite filter_cons_True by reflexivity. cbn [length]. lia.
Qed.

(** X20.  The cooling sound averages over a window of ten change rates and
    says nothing before the window is full.  After any sequence of
    temperature changes and steps from the constructor, the history holds
    as many rates as there were steps, and ten at most; and as long as fewer
    than nine steps have been taken, the next step asks for the level 0. *)
Theorem cooling_window_is_bounded maxOutputLevel events dt outputLevel isPlaying :
  let g := CoolingSoundGenerator.run
             (CoolingSoundGenerator.construct maxOutputLevel) events in
  length (CoolingSoundGenerator.amplitudeChangeRateHistory g)
  = Nat.min (CoolingSoundGenerator.stepCount events) 10 /\
  ((CoolingSoundGenerator.stepCount events < 9)%nat ->
   snd (fst (CoolingSoundGenerator.step dt outputLevel isPlaying g)) = 0).
Proof.
  cbn zeta.
  pose proof (cooling_run_length events
                (CoolingSoundGenerator.construct maxOutputLevel)) as L.
  cbn [CoolingSoundGenerator.construct
         CoolingSoundGenerator.amplitudeChangeRateHistory length] in L.
  specialize (L ltac:(lia)). cbn [Nat.add] in L.
  split; [exact L|]. intros H.
  set (g := CoolingSoundGenerator.run _ events) in *.
  unfold CoolingSoundGenerator.step. cbn zeta. cbn [fst snd].
  rewrite cooling_record_length by lia.
  rewrite L.
  replace (Nat.min (S (Nat.min (CoolingSoundGenerator.stepCount events) 10)) 10
           =? CoolingSoundGenerator.AMPLITUDE_AVERAGING_ARRAY_LENGTH)%nat
    with false.
  - reflexivity.
  - symmetry. apply Nat.eqb_neq.
    unfold CoolingSoundGenerator.AMPLITUDE_AVERAGING_ARRAY_LENGTH. lia.
Qed.

Lemma cooling_window_is_bounded_witness :
  (CoolingSoundGenerator.stepCount
     [CoolingSoundGenerator.Amplitude 5;
      CoolingSoundGenerator.Step (1 # 60) 0 true;
      CoolingSoundGenerator.Amplitude 4] < 9)%nat /\
  snd (fst (CoolingSoundGenerator.step (1 # 60) 0 true
              (CoolingSoundGenerator.run
                 (CoolingSoundGenerator.construct (75 # 100))
                 [CoolingSoundGenerator.Amplitude 5;
                  CoolingSoundGenerator.Step (1 # 60) 0 true;
                  CoolingSoundGenerator.Amplitude 4]))) = 0.
Proof.
  assert (H : (CoolingSoundGenerator.stepCount
                 [CoolingSoundGenerator.Amplitude 5;
                  CoolingSoundGenerator.Step (1 # 60) 0 true;
                  CoolingSoundGenerator.Amplitude 4] < 9)%nat)
    by (vm_compute; lia).
  split; [exact H|].
  exact (proj2 (cooling_window_is_bounded (75 # 100)
                  [CoolingSoundGenerator.Amplitude 5;
                   CoolingSoundGenerator.Step (1 # 60) 0 true;
                   CoolingSoundGenerator.Amplitude 4] (1 # 60) 0 true) H).
Defined.

(** The scaling factor lies between 0 and 1. *)
Lemma cooling_scaling a b :
  0 <= a -> 0 <= (1 - Qmin a 1) * Qmin (Qabs b) 1 /\
            (1 - Qmin a 1) * Qmin (Qabs b) 1 <= 1.
Proof.
  intros Ha. pose proof (Qabs_nonneg b) as Hb.
  assert (A0 : 0 <= 1 - Qmin a 1) by (pose proof (Q.le_min_r a 1); lra).
  assert (A1 : 1 - Qmin a 1 <= 1).
  { assert (0 <= Qmin a 1) by (apply Q.min_glb; lra). lra. }
  assert (B0 : 0 <= Qmin (Qabs b) 1) by (apply Q.min_glb; lra).
  assert (B1 : Qmin (Qabs b) 1 <= 1) by apply Q.le_min_r.
  set (x := 1 - Qmin a 1) in *. set (y := Qmin (Qabs b) 1) in *.
  split; [now apply Qmult_le_0_compat|].
  assert (0 <= (1 - x) * y) by (apply Qmult_le_0_compat; lra).
  lra.
Qed.

(** X21.  The cooling sound is never louder than its maximum and plays for
    two seconds at most.  The level a step asks for lies between 0 and the
    maximum output level; and it is above 0 only while the window of ten
    rates is full, their average is negative and the temperature has been
    cooling without a break for more than 0.25 and less than 2.25
    seconds. *)
Theorem cooling_level_is_bounded dt outputLevel isPlaying g :
  0 < dt ->
  0 <= CoolingSoundGenerator.maxOutputLevel g ->
  let g' := fst (fst (CoolingSoundGenerator.step dt outputLevel isPlaying g)) in
  let target := snd (fst (CoolingSoundGenerator.step dt outputLevel isPlaying g)) in
  0 <= target /\ target <= CoolingSoundGenerator.maxOutputLevel g /\
  (0 < target ->
   length (CoolingSoundGenerator.amplitudeChangeRateHistory g') = 10%nat /\
   CoolingSoundGenerator.averageChangeRate
     (CoolingSoundGenerator.amplitudeChangeRateHistory g') < 0 /\
   exists time,
     CoolingSoundGenerator.continuousCoolingTime g' = Some time /\
     CoolingSoundGenerator.COOLING_SOUND_DELAY < time /\
     time < CoolingSoundGenerator.COOLING_SOUND_DELAY
            + CoolingSoundGenerator.COOLING_SOUND_DURATION).
Proof.
  intros _ Hmax. cbn zeta. unfold CoolingSoundGenerator.step. cbn zeta.
  cbn [fst snd].
  set (history := CoolingSoundGenerator.record _ _).
  set (time := if _ && _ then _ else Some 0).
  unfold CoolingSoundGenerator.targetLevel.
  cbn [CoolingSoundGenerator.continuousCoolingTime
         CoolingSoundGenerator.maxOutputLevel
         CoolingSoundGenerator.amplitudeChangeRateHistory].
  unfold CoolingSoundGenerator.COOLING_SOUND_DELAY,
    CoolingSoundGenerator.COOLING_SOUND_DURATION.
  destruct time as [c|] eqn:T;
    [|split; [apply Qle_refl|split; [exact Hmax|]];
      intros X; exfalso; revert X; apply Qlt_irrefl].
  destruct (Qlt_bool (25 # 100) c) eqn:D;
    [apply Qlt_bool_iff in D
    |split; [apply Qle_refl|split; [exact Hmax|]];
     intros X; exfalso; revert X; apply Qlt_irrefl].
  assert (Ha : 0 <= (c - (25 # 100)) / 2) by (apply Qle_shift_div_l; lra).
  destruct (cooling_scaling ((c - (25 # 100)) / 2)
              (CoolingSoundGenerator.averageChangeRate history) Ha) as [S0 S1].
  set (f := (1 - Qmin ((c - (25 # 100)) / 2) 1)
            * Qmin (Qabs (CoolingSoundGenerator.averageChangeRate history)) 1) in *.
  assert (M0 : 0 <= CoolingSoundGenerator.maxOutputLevel g * f)
    by now apply Qmult_le_0_compat.
  assert (M1 : 0 <= CoolingSoundGenerator.maxOutputLevel g * (1 - f))
    by (apply Qmult_le_0_compat; lra).
  split; [exact M0|]. split; [lra|]. intros P.
  subst time.
  destruct ((length history =? CoolingSoundGenerator.AMPLITUDE_AVERAGING_ARRAY_LENGTH)%nat
            && Qlt_bool (CoolingSoundGenerator.averageChangeRate history) 0) eqn:B.
  - apply andb_true_iff in B as [B1 B2].
    apply Nat.eqb_eq in B1. apply Qlt_bool_iff in B2.
    split; [exact B1|]. split; [exact B2|].
    exists c. split; [reflexivity|]. split; [exact D|].
    (* the factor of the duration is positive *)
    destruct (Qlt_le_dec c ((25 # 100) + 2)) as [G | G]; [exact G|].
    exfalso.
    assert (Z : Qmin ((c - (25 # 100)) / 2) 1 == 1).
    { apply Q.min_r. apply Qle_shift_div_l; lra. }
    assert (F0 : f == 0) by (subst f; rewrite Z; ring).
    rewrite F0 in P. lra.
  - injection T as <-. exfalso. lra.
Qed.

Lemma cooling_level_is_bounded_witness :
  (0 < 1 # 60 /\
   0 <= CoolingSoundGenerator.maxOutputLevel
          (CoolingSoundGenerator.construct (75 # 100))) /\
  snd (fst (CoolingSoundGenerator.step (1 # 60) 0 true
              (CoolingSoundGenerator.construct (75 # 100))))
  <= CoolingSoundGenerator.maxOutputLevel
       (CoolingSoundGenerator.construct (75 # 100)).
Proof.
  assert (H1 : 0 < 1 # 60) by reflexivity.
  assert (H2 : 0 <= CoolingSoundGenerator.maxOutputLevel
                      (CoolingSoundGenerator.construct (75 # 100)))
    by discriminate.
  split; [exact (conj H1 H2)|].
  exact (proj1 (proj2 (cooling_level_is_bounded (1 # 60) 0 true
                         (CoolingSoundGenerator.construct (75 # 100)) H1 H2))).
Defined.
